(** * The Wisconsin breast-cancer loaders of the logistic-regression notebook

    The notebook defines three functions: [image_features], which generates
    the 30 feature names, and the two loaders
    [load_wisconsin_breast_cancer_diagnosis] and
    [load_wisconsin_breast_cancer_prognosis], which read a header-less
    delimited file with [pandas.read_csv] and split it into a feature table
    and a label output.

    The three functions are embedded as they are written.  The loaders
    read a file and can raise, so they live in a small state-and-exception
    monad over the file system and the rest of the process state.  The
    pandas calls they make ([read_csv], column access, [rename_categories],
    [drop], [loc], [astype]) are library code; each one is given as an
    executable definition of the behaviour the loaders rely on, documented
    where it is defined:

    - a file is the sequence of its records, each the list of its fields,
      as the tokenizer delivers them;
    - a column read by [read_csv] keeps its tokens, with the missing-value
      mask applied, and the type inferred for it (integers, floats,
      booleans or strings), from which its values follow;
    - a float is a binary64 value, rounded from a literal as [float()]
      rounds it;
    - a categorical is its sorted categories and one code per row;
    - the behaviour is that of pandas 1.5.  The outcome is [Unmodelled],
      and nothing is said, for a file whose first record has more fields
      than there are column names, for the conversion of a column with an
      integer outside the 64-bit range or with a float literal that the
      tokenizer's converter may not round as [float()] does, and for what
      [float()] makes of a string with a character outside ASCII.

    The two cells that call the loaders (shape, label counts, the series
    handed to the histogram) follow in the same monad.  The prediction
    display of the estimator lecture, a loop over a generator that draws
    into a matplotlib figure, is embedded in the module [Display] with a
    state-and-exception monad over the figures of pyplot. *)

From Stdlib Require Import List String Ascii Bool Arith Lia ZArith QArith
  Permutation Sorted.
From Stdlib Require DecimalString OrderedTypeEx SpecFloat.
Import ListNotations.
Local Open Scope string_scope.
Local Open Scope nat_scope.
Local Open Scope list_scope.

Set Implicit Arguments.

(* ================================================================== *)
(** * 1. Column-name generation *)
(* ================================================================== *)

(** ["mean_{}".format(v)] with a single string argument. *)
Definition format (template_prefix v : string) : string := template_prefix ++ v.

(** The local list [names] of [image_features]. *)
Definition names : list string :=
  ["radius"; "texture"; "perimeter"; "area"; "smoothness"; "compactness";
   "concavity"; "concave points"; "symmetry"; "fractal dimension"].

(** [image_features()]: three comprehensions over [names], the second and
    third appended with [extend]. *)
Definition image_features (_ : unit) : list string :=
  let columns := map (fun v => format "mean_" v) names in
  let columns := columns ++ map (fun v => format "se_" v) names in
  let columns := columns ++ map (fun v => format "worst_" v) names in
  columns.

(* ================================================================== *)
(** * 2. Cells, floats and missing values *)
(* ================================================================== *)

(** A float as the loaders see it: a finite number, an infinity, or NaN,
    which pandas uses as the missing marker.  A finite number is the
    rational value of a binary64 float, in lowest terms; the sign of a
    zero is not kept. *)
Inductive float64 : Type :=
| Finite (q : Q)
| Inf (negative : bool)
| NaN.

Definition is_finite (x : float64) : bool :=
  match x with Finite _ => true | _ => false end.

(** ** Rounding to binary64

    [float()] gives the binary64 float nearest to the number a literal
    denotes, ties going to the even significand, and an infinity when the
    number is too large.  The division of the standard library's IEEE 754
    specification does this rounding for a quotient of two integers. *)
Definition float_of_spec (x : SpecFloat.spec_float) : float64 :=
  match x with
  | SpecFloat.S754_zero _ => Finite 0
  | SpecFloat.S754_infinity s => Inf s
  | SpecFloat.S754_nan => NaN
  | SpecFloat.S754_finite s m e =>
      let q := match e with
               | Z0 => Qmake (Zpos m) 1
               | Zpos k => Qmake (Zpos m * 2 ^ Zpos k) 1
               | Zneg k => Qmake (Zpos m) (2 ^ k)
               end in
      Finite (Qred (if s then Qopp q else q))
  end.

(** The float nearest to [n / d], negated when [neg]. *)
Definition round_ratio (neg : bool) (n : N) (d : positive) : float64 :=
  match n with
  | N0 => Finite 0
  | Npos k =>
      float_of_spec
        (SpecFloat.SFdiv 53 1024 (SpecFloat.S754_finite neg k 0)
                         (SpecFloat.S754_finite false d 0))
  end.

(** The float nearest to [m * 10^e], negated when [neg]. *)
Definition round_decimal (neg : bool) (m : N) (e : Z) : float64 :=
  if (0 <=? e)%Z then round_ratio neg (m * 10 ^ Z.to_N e) 1
  else round_ratio neg m (Z.to_pos (10 ^ (- e))).

(** [float(z)] for an integer: the nearest float. *)
Definition float_of_Z (z : Z) : float64 :=
  round_decimal (z <? 0)%Z (Z.abs_N z) 0.

(** A cell of a parsed column before any numeric conversion: the token of
    the file, or [None] when the token is one of the missing-value tokens. *)
Definition cell : Type := option string.

(** ** Strings that denote a float

    [float_of_string] follows Python's [float()] on an ASCII string:
    surrounding white space (space, tab, line feed, vertical tab, form
    feed, carriage return) is dropped; after an optional sign come either
    one of the names inf, infinity or nan in any letter case, or a decimal
    literal: integer digits, an optional point followed by fraction digits
    (at least one mantissa digit in all) and an optional exponent (e or E,
    an optional sign, digits); a single underscore may separate two digits.
    The value is rounded to binary64.  On a string with a character
    outside ASCII [float()] also accepts other decimal digits and spaces
    of Unicode; such strings are told apart by [ascii_token] and what
    [float()] makes of them is left open where it matters. *)

Definition is_space (c : ascii) : bool :=
  let n := N_of_ascii c in
  (((9 <=? n) && (n <=? 13)) || (n =? 32))%N.

Fixpoint ascii_token (s : string) : bool :=
  match s with
  | EmptyString => true
  | String c s' => (N_of_ascii c <? 128)%N && ascii_token s'
  end.

Fixpoint lstrip (s : string) : string :=
  match s with
  | EmptyString => EmptyString
  | String c s' => if is_space c then lstrip s' else s
  end.

Fixpoint rstrip (s : string) : string :=
  match s with
  | EmptyString => EmptyString
  | String c s' =>
      match rstrip s' with
      | EmptyString => if is_space c then EmptyString else String c EmptyString
      | String _ _ as t => String c t
      end
  end.

Definition strip (s : string) : string := rstrip (lstrip s).

Definition lower_ascii (c : ascii) : ascii :=
  let n := N_of_ascii c in
  if ((65 <=? n) && (n <=? 90))%N then ascii_of_N (n + 32) else c.

Fixpoint lower (s : string) : string :=
  match s with
  | EmptyString => EmptyString
  | String c s' => String (lower_ascii c) (lower s')
  end.

Definition digit_of_ascii (c : ascii) : option N :=
  let n := N_of_ascii c in
  if ((48 <=? n) && (n <=? 57))%N then Some (n - 48)%N else None.

Definition starts_with_digit (s : string) : bool :=
  match s with
  | String c _ => match digit_of_ascii c with Some _ => true | None => false end
  | EmptyString => false
  end.

(** Reads a maximal run of digits, a single underscore being allowed
    between two of them: accumulated value, number of digits read, and the
    rest of the string. *)
Fixpoint read_digits (s : string) (acc : N) (cnt : nat) : N * nat * string :=
  match s with
  | EmptyString => (acc, cnt, s)
  | String c s' =>
      match digit_of_ascii c with
      | Some d => read_digits s' (10 * acc + d)%N (S cnt)
      | None =>
          if Ascii.eqb c "_" && (0 <? cnt) && starts_with_digit s'
          then read_digits s' acc cnt
          else (acc, cnt, s)
      end
  end.

(** An optional sign: [true] for a leading minus. *)
Definition read_sign (s : string) : bool * string :=
  match s with
  | String "-"%char s' => (true, s')
  | String "+"%char s' => (false, s')
  | _ => (false, s)
  end.

(** The exponent part, if any; [None] when the rest of the token is not a
    well-formed exponent. *)
Definition read_exponent (s : string) : option Z :=
  match s with
  | EmptyString => Some 0%Z
  | String c s' =>
      if (Ascii.eqb c "e" || Ascii.eqb c "E")%bool then
        let '(neg, s1) := read_sign s' in
        match read_digits s1 0%N 0 with
        | (_, O, _) => None
        | (e, S _, EmptyString) =>
            Some (if neg then (- Z.of_N e)%Z else Z.of_N e)
        | (_, S _, String _ _) => None
        end
      else None
  end.

(** The decimal literal [s], read after the sign: the integer its mantissa
    digits spell and the power of ten it is to be scaled by. *)
Definition decimal_parts (s : string) : option (N * Z) :=
  let '(ip, n1, s1) := read_digits s 0%N 0 in
  let '(m, n2, s2) :=
    match s1 with
    | String "."%char s1' =>
        let '(m, n2, s2) := read_digits s1' ip 0 in (m, n2, s2)
    | _ => (ip, 0, s1)
    end in
  match n1 + n2 with
  | O => None
  | S _ =>
      match read_exponent s2 with
      | Some e => Some (m, (e - Z.of_nat n2)%Z)
      | None => None
      end
  end.

Definition decimal_of_string (neg : bool) (s : string) : option float64 :=
  match decimal_parts s with
  | Some (m, e) => Some (round_decimal neg m e)
  | None => None
  end.

Definition float_of_string (tok : string) : option float64 :=
  let '(neg, s) := read_sign (strip tok) in
  let name := lower s in
  if String.eqb name "inf" || String.eqb name "infinity" then Some (Inf neg)
  else if String.eqb name "nan" then Some NaN
  else decimal_of_string neg s.

(** ** The numeric converters of [read_csv]

    The tokenizer's integer converter takes optional white space, an
    optional sign, digits, optional white space, and nothing else. *)
Fixpoint all_digits (s : string) : bool :=
  match s with
  | EmptyString => true
  | String c s' =>
      match digit_of_ascii c with
      | Some _ => all_digits s'
      | None => false
      end
  end.

Fixpoint digits_value (s : string) (acc : N) : N :=
  match s with
  | EmptyString => acc
  | String c s' =>
      match digit_of_ascii c with
      | Some d => digits_value s' (10 * acc + d)%N
      | None => acc
      end
  end.

Definition int_of_token (tok : string) : option Z :=
  let '(neg, s) := read_sign (strip tok) in
  match s with
  | EmptyString => None
  | String _ _ =>
      if all_digits s then
        let m := Z.of_N (digits_value s 0) in
        Some (if neg then (- m)%Z else m)
      else None
  end.

Definition int64_min : Z := (- 2 ^ 63)%Z.
Definition int64_max : Z := (2 ^ 63 - 1)%Z.

Definition in_int64 (z : Z) : bool :=
  ((int64_min <=? z) && (z <=? int64_max))%Z.

(** A column of integers in which a cell is missing is converted to
    floats, and the smallest 64-bit integer, which the parser uses as its
    own missing marker, comes out missing too.  The 512 integers next to
    it round to the same float; whether they are taken for the marker as
    well depends on the order in which the library converts and compares,
    and their value is not modelled. *)
Definition near_int64_min (tok : string) : bool :=
  match int_of_token tok with
  | Some z => (z <=? int64_min + 512)%Z
  | None => false
  end.

Fixpoint has_underscore (s : string) : bool :=
  match s with
  | EmptyString => false
  | String c s' => Ascii.eqb c "_" || has_underscore s'
  end.

(** The tokenizer's float converter takes the decimal literals of
    [float()] without underscores, provided the value does not overflow,
    and the names inf and infinity, signed or not, in any letter case,
    written without white space around them. *)
Definition inf_word (tok : string) : bool :=
  let '(_, s) := read_sign tok in
  String.eqb (lower s) "inf" || String.eqb (lower s) "infinity".

Definition pandas_float_of_token (tok : string) : option float64 :=
  match float_of_string tok with
  | Some (Finite q) => if has_underscore tok then None else Some (Finite q)
  | Some (Inf neg) => if inf_word tok then Some (Inf neg) else None
  | _ => None
  end.

(** The converter accumulates up to 17 mantissa digits in a float and
    scales the result by a power of ten with one multiplication or
    division.  That is the float nearest to the number, the float of
    [float()], when the digits spell an integer below [2^53] and the power
    of ten is between [10^-22] and [10^22], both then being floats; for
    other literals the converter can be off in the last place, and their
    value is not modelled. *)
Fixpoint mantissa_digits (s : string) : nat :=
  match s with
  | EmptyString => 0
  | String c s' =>
      if (Ascii.eqb c "e" || Ascii.eqb c "E")%bool then 0
      else
        match digit_of_ascii c with
        | Some _ => S (mantissa_digits s')
        | None => mantissa_digits s'
        end
  end.

Definition short_decimal (tok : string) : bool :=
  let '(_, s) := read_sign (strip tok) in
  match decimal_parts s with
  | Some (m, e) =>
      (mantissa_digits s <=? 17)
      && (m <? 2 ^ 53)%N && (-22 <=? e)%Z && (e <=? 22)%Z
  | None => false
  end.

Definition exact_float_token (tok : string) : bool :=
  inf_word tok || short_decimal tok.

(** ** Missing-value tokens

    The tokens [read_csv] reads as missing when [keep_default_na] is left at
    its default (the list of pandas 1.x). *)
Definition default_na_values : list string :=
  [""; "#N/A"; "#N/A N/A"; "#NA"; "-1.#IND"; "-1.#QNAN"; "-NaN"; "-nan";
   "1.#IND"; "1.#QNAN"; "<NA>"; "N/A"; "NA"; "NULL"; "NaN"; "n/a"; "nan";
   "null"].

Definition is_na (na : list string) (tok : string) : bool :=
  existsb (String.eqb tok) na.

(** The missing mask applied to one token. *)
Definition na_filter (na : list string) (tok : string) : cell :=
  if is_na na tok then None else Some tok.

(** ** Boolean literals

    With no [true_values] or [false_values] passed, the tokenizer's
    boolean converter takes the words true and false in any letter
    case. *)
Definition true_literal (t : string) : bool := String.eqb (lower t) "true".
Definition false_literal (t : string) : bool := String.eqb (lower t) "false".

Definition boolean_literal (t : string) : bool :=
  true_literal t || false_literal t.

Definition mem (x : string) (l : list string) : bool :=
  existsb (String.eqb x) l.

Fixpoint mapM_option {A B : Type} (f : A -> option B) (l : list A)
  : option (list B) :=
  match l with
  | [] => Some []
  | a :: l' =>
      match f a with
      | Some b =>
          match mapM_option f l' with
          | Some bs => Some (b :: bs)
          | None => None
          end
      | None => None
      end
  end.

(** ** Type inference

    [read_csv] infers the type of a column it is given no dtype for from
    all the cells of the column:
    - integers ([AsInt]) when no cell is missing and every token is an
      integer of 64 bits;
    - floats, when every present token is such an integer and a cell is
      missing ([AsUpcastInt]: the integers are converted, see
      [upcast_int]), or when every present token is
      taken by the float converter ([AsFloat] when it converts every one
      of them exactly, [AsInexactFloat], with values that are not
      modelled, otherwise);
    - booleans ([AsBool]) when every present token is a boolean literal
      (with a missing cell the column holds booleans and NaN);
    - strings ([AsString]) otherwise.
    With an integer token outside the 64-bit range in the column the
    outcome (unsigned integers, floats or strings) depends on the other
    tokens and on their order; it is [NotModelled]. *)
Inductive reading : Type :=
| AsInt | AsUpcastInt | AsFloat | AsInexactFloat | AsBool | AsString
| NotModelled.

Definition is_missing (c : cell) : bool :=
  match c with None => true | Some _ => false end.

Definition every_present (P : string -> bool) (cells : list cell) : bool :=
  forallb (fun c => match c with Some t => P t | None => true end) cells.

Definition some_present (P : string -> bool) (cells : list cell) : bool :=
  existsb (fun c => match c with Some t => P t | None => false end) cells.

Definition is_int64_token (t : string) : bool :=
  match int_of_token t with Some z => in_int64 z | None => false end.

Definition is_big_int_token (t : string) : bool :=
  match int_of_token t with Some z => negb (in_int64 z) | None => false end.

Definition is_pandas_float (t : string) : bool :=
  match pandas_float_of_token t with Some _ => true | None => false end.

Definition infer_reading (cells : list cell) : reading :=
  match cells with
  | [] => AsString
  | _ :: _ =>
      if some_present is_big_int_token cells then NotModelled
      else if every_present is_int64_token cells then
        if existsb is_missing cells then AsUpcastInt else AsInt
      else if every_present is_pandas_float cells then
        if every_present exact_float_token cells then AsFloat
        else AsInexactFloat
      else if every_present boolean_literal cells then AsBool
      else AsString
  end.

Definition upcast_int (z : Z) : option float64 :=
  if (z =? int64_min)%Z then Some NaN
  else if (z <=? int64_min + 512)%Z then None
  else Some (float_of_Z z).

(** The values of a column or an index. *)
Inductive scalar : Type :=
| IntVal (z : Z)
| FloatVal (x : float64)
| BoolVal (b : bool)
| StrVal (s : string).

(** The value a cell has under a reading; a missing cell is NaN. *)
Definition read_scalar (r : reading) (c : cell) : option scalar :=
  match r, c with
  | NotModelled, _ => None
  | _, None => Some (FloatVal NaN)
  | AsInexactFloat, Some _ => None
  | AsInt, Some t => option_map IntVal (int_of_token t)
  | AsUpcastInt, Some t =>
      match int_of_token t with
      | Some z => option_map FloatVal (upcast_int z)
      | None => None
      end
  | AsFloat, Some t => option_map FloatVal (pandas_float_of_token t)
  | AsBool, Some t =>
      if true_literal t then Some (BoolVal true)
      else if false_literal t then Some (BoolVal false)
      else None
  | AsString, Some t => Some (StrVal t)
  end.

Definition read_scalars (r : reading) (cells : list cell)
  : option (list scalar) :=
  mapM_option (read_scalar r) cells.

(* ================================================================== *)
(** * 3. Categoricals, columns and frames *)
(* ================================================================== *)

(** A categorical array: the category values and, per row, the position of
    the row's value among them ([None] for a missing value; pandas stores
    the code -1). *)
Record Categorical : Type := {
  categories : list string;
  codes : list (option nat)
}.

(** The columns a frame can hold here: a column as [read_csv] read it
    (its tokens, with the missing mask applied, and the reading inferred
    for them, which together give its values), a column of floats, or a
    categorical. *)
Inductive column : Type :=
| ReadCol (r : reading) (cells : list cell)
| FloatCol (xs : list float64)
| CategoryCol (c : Categorical).

(** A row index: read like a column. *)
Record Index : Type := {
  ix_cells : list cell;
  ix_as : reading
}.

Definition index_values (ix : Index) : option (list scalar) :=
  read_scalars (ix_as ix) (ix_cells ix).

Record DataFrame : Type := {
  df_index : Index;
  df_columns : list (string * column)
}.

Record Series : Type := {
  s_index : Index;
  s_name : string;
  s_values : column
}.

(** ** Building a categorical from tokens

    The categories of a column parsed with dtype category are its distinct
    present tokens in sorted order (code-point order of the strings). *)
Fixpoint insert_category (x : string) (l : list string) : list string :=
  match l with
  | [] => [x]
  | y :: l' =>
      match String.compare x y with
      | Lt => x :: l
      | Eq => l
      | Gt => y :: insert_category x l'
      end
  end.

Fixpoint sorted_categories (cells : list cell) : list string :=
  match cells with
  | [] => []
  | None :: cells' => sorted_categories cells'
  | Some t :: cells' => insert_category t (sorted_categories cells')
  end.

Fixpoint index_of (x : string) (l : list string) : option nat :=
  match l with
  | [] => None
  | y :: l' => if String.eqb x y then Some 0 else option_map S (index_of x l')
  end.

Definition code_of (cats : list string) (c : cell) : option nat :=
  match c with
  | Some t => index_of t cats
  | None => None
  end.

Definition factorize (cells : list cell) : Categorical :=
  let cats := sorted_categories cells in
  {| categories := cats; codes := map (code_of cats) cells |}.

(** The value a code stands for. *)
Definition value_of_code (cats : list string) (code : option nat) : cell :=
  match code with
  | Some k => nth_error cats k
  | None => None
  end.

(** The values of a categorical, row by row. *)
Definition categorical_values (c : Categorical) : list cell :=
  map (value_of_code (categories c)) (codes c).

(** ** Column access by name *)
Fixpoint lookup_column (name : string) (cols : list (string * column))
  : option column :=
  match cols with
  | [] => None
  | (n, col) :: cols' =>
      if String.eqb name n then Some col else lookup_column name cols'
  end.

(** ** Conversion of a column to float

    [astype(float)] converts the integers of an integer column, keeps the
    floats of a float column, maps booleans to 1.0 and 0.0, and calls
    [float()] on every string of a column of strings, which raises on a
    string that denotes no float.  A missing cell is NaN throughout.  For
    a column whose values are not modelled there is no result. *)
Definition float_of_cell (c : cell) : option float64 :=
  match c with
  | None => Some NaN
  | Some t => float_of_string t
  end.

Definition float_of_bool_cell (c : cell) : option float64 :=
  match c with
  | None => Some NaN
  | Some t =>
      if true_literal t then Some (Finite 1)
      else if false_literal t then Some (Finite 0)
      else None
  end.

Definition read_float (r : reading) (c : cell) : option float64 :=
  match r with
  | AsInt =>
      match c with
      | None => Some NaN
      | Some t => option_map float_of_Z (int_of_token t)
      end
  | AsUpcastInt =>
      match c with
      | None => Some NaN
      | Some t =>
          match int_of_token t with
          | Some z => upcast_int z
          | None => None
          end
      end
  | AsFloat =>
      match c with
      | None => Some NaN
      | Some t => pandas_float_of_token t
      end
  | AsInexactFloat | NotModelled =>
      match c with
      | None => Some NaN
      | Some _ => None
      end
  | AsBool => float_of_bool_cell c
  | AsString => float_of_cell c
  end.

Definition column_floats (col : column) : option (list float64) :=
  match col with
  | FloatCol xs => Some xs
  | ReadCol r cells => mapM_option (read_float r) cells
  | CategoryCol c => mapM_option float_of_cell (categorical_values c)
  end.

(** The floats of a column of the file: read, then converted. *)
Definition floats_of_cells (cells : list cell) : option (list float64) :=
  column_floats (ReadCol (infer_reading cells) cells).

Definition astype_float_column (col : column) : option column :=
  option_map FloatCol (column_floats col).

Definition astype_float_named (p : string * column) : option (string * column) :=
  option_map (fun col => (fst p, col)) (astype_float_column (snd p)).

(** A string of ASCII characters that [float()] rejects. *)
Definition rejected_token (t : string) : bool :=
  ascii_token t
  && match float_of_string t with Some _ => false | None => true end.

(** A column [astype(float)] is sure to fail on: one of strings holding a
    rejected one.  Where the conversion gives no result with no such
    column, a string with a character outside ASCII, of which what
    [float()] makes is left open, or a column of floats whose values are
    not modelled is behind it. *)
Definition column_rejected (col : column) : bool :=
  match col with
  | ReadCol AsString cells | ReadCol NotModelled cells =>
      some_present rejected_token cells
  | CategoryCol c => some_present rejected_token (categorical_values c)
  | _ => false
  end.

(** ** Counting values

    [value_counts()] of a categorical series: one entry per category with
    the number of rows carrying it, most frequent first, categories with
    the same count in the order of the categories. *)
Definition count_code (k : nat) (cs : list (option nat)) : nat :=
  List.length
    (filter (fun c => match c with Some j => j =? k | None => false end) cs).

Fixpoint insert_by_count (p : string * nat) (l : list (string * nat))
  : list (string * nat) :=
  match l with
  | [] => [p]
  | q :: l' => if snd q <=? snd p then p :: l else q :: insert_by_count p l'
  end.

Definition value_counts (c : Categorical) : list (string * nat) :=
  fold_right insert_by_count []
    (map (fun kn => (snd kn, count_code (fst kn) (codes c)))
         (combine (seq 0 (List.length (categories c))) (categories c))).

(* ================================================================== *)
(** * 4. Effects: the file system, exceptions *)
(* ================================================================== *)

(** A file as the tokenizer delivers it: its records in file order, each
    one the list of its fields (blank lines are not records). *)
Definition csv_record : Type := list string.
Definition csv_file : Type := list csv_record.

(** Why a [ValueError] was raised. *)
Inductive value_error : Type :=
| categories_length_mismatch   (* rename_categories: as many new names as old categories *)
| could_not_convert_to_float.  (* astype(float) on a string that is no number *)

Inductive exn : Type :=
| FileNotFoundError (path : string)
| ParserError (record : nat)   (* the tokenizer: too many fields in this record *)
| KeyError (label : string)
| AttributeError (attr : string)
| ValueError (why : value_error).

(** The outcome of a call: a value, an exception, or [Unmodelled] for the
    inputs whose treatment by the libraries is left out here: a first
    record with more fields than there are column names, and a float
    conversion with no result that is not due to a string of ASCII
    characters that [float()] rejects. *)
Inductive outcome (A : Type) : Type :=
| Returns (a : A)
| Raises (e : exn)
| Unmodelled.

Arguments Returns {A} a.
Arguments Raises {A} e.
Arguments Unmodelled {A}.

Section Effects.

(** Whatever else the process holds besides the files: module globals,
    caches.  The loaders are written once for every such type. *)
Variable Globals : Type.

Record world : Type := {
  fs : string -> option csv_file;
  globals : Globals
}.

Definition M (A : Type) : Type := world -> outcome A * world.

Definition ret {A : Type} (a : A) : M A := fun w => (Returns a, w).

Definition bind {A B : Type} (m : M A) (k : A -> M B) : M B :=
  fun w =>
    match m w with
    | (Returns a, w') => k a w'
    | (Raises e, w') => (Raises e, w')
    | (Unmodelled, w') => (Unmodelled, w')
    end.

Definition raise {A : Type} (e : exn) : M A := fun w => (Raises e, w).

Definition unmodelled {A : Type} : M A := fun w => (Unmodelled, w).

(** Opening and reading a file; the file system is left as it is. *)
Definition read_file (path : string) : M csv_file :=
  fun w =>
    match fs w path with
    | Some rows => (Returns rows, w)
    | None => (Raises (FileNotFoundError path), w)
    end.

End Effects.

Arguments ret {Globals A} a.
Arguments bind {Globals A B} m k.
Arguments raise {Globals A} e.
Arguments unmodelled {Globals A}.
Arguments read_file {Globals} path.

Declare Scope monad_scope.
Delimit Scope monad_scope with monad.
Notation "x <- c ;; k" := (bind c (fun x => k))
  (at level 61, c at next level, right associativity) : monad_scope.
Local Open Scope monad_scope.

(* ================================================================== *)
(** * 5. The pandas calls of the loaders *)
(* ================================================================== *)

(** The cells of column [j]: the [j]-th field of every record, the empty
    token where a record has fewer fields, with the missing mask applied. *)
Definition column_cells (rows : csv_file) (na : list string) (j : nat)
  : list cell :=
  map (fun r => na_filter na (nth j r "")) rows.

(** The column read from position [j]. *)
Definition infer_column (cells : list cell) : column :=
  ReadCol (infer_reading cells) cells.

(** A string of ASCII characters that is neither a number for [float()]
    nor a boolean literal. *)
Definition plain_string (t : string) : bool :=
  rejected_token t && negb (boolean_literal t).

(** The index column is read like any column and then, where it came out
    as strings or as booleans with a missing cell, gone over once more for
    numbers and booleans.  Integers and floats stay as they were read, and
    so do booleans with no cell missing; strings stay strings when one of
    them is a [plain_string], which stops the second pass.  What the
    second pass makes of the other columns is not modelled. *)
Definition index_reading (cells : list cell) : reading :=
  match infer_reading cells with
  | AsInt => AsInt
  | AsUpcastInt => AsUpcastInt
  | AsFloat => AsFloat
  | AsInexactFloat => AsInexactFloat
  | AsBool => if existsb is_missing cells then NotModelled else AsBool
  | AsString =>
      if some_present plain_string cells then AsString else NotModelled
  | NotModelled => NotModelled
  end.

(** The index read from position [j]. *)
Definition read_index (rows : csv_file) (na : list string) (j : nat) : Index :=
  {| ix_cells := column_cells rows na j;
     ix_as := index_reading (column_cells rows na j) |}.

(** One named column: categorical when its name is given dtype category. *)
Definition parse_column (rows : csv_file) (na dtype_category : list string)
    (j : nat) (name : string) : string * column :=
  let cells := column_cells rows na j in
  (name,
   if mem name dtype_category then CategoryCol (factorize cells)
   else infer_column cells).

(** The records with more than [width] fields, the first record apart:
    the position of the first of them, counting records from 1. *)
Fixpoint first_over_long (width : nat) (k : nat) (rest : csv_file) : option nat :=
  match rest with
  | [] => None
  | r :: rest' =>
      if width <? List.length r then Some k
      else first_over_long width (S k) rest'
  end.

Section Pandas.

Variable Globals : Type.

(** [pd.read_csv(local_file, index_col=index_col, header=None,
    names=names, dtype={c: 'category' ...}, na_values=na_values)].
    With [header=None] every record is data and the names are bound to
    the fields by position; the column at [index_col] becomes the row
    index.  A record shorter than [names] is padded with empty fields,
    which read as missing.  The tokenizer expects as many fields as there
    are names and raises on a record with more, except on the first
    record: a first record with more fields makes the leading columns an
    implicit index and binds the names further right, with a result that
    depends on the other records; that case is left [Unmodelled]. *)
Definition read_csv (local_file : string) (index_col : nat)
    (names dtype_category na_values : list string) : M Globals DataFrame :=
  rows <- read_file local_file ;;
  let width := List.length names in
  if match rows with
     | first :: _ => width <? List.length first
     | [] => false
     end
  then unmodelled
  else
    match first_over_long width 2 (tl rows) with
    | Some k => raise (ParserError k)
    | None =>
        let na := default_na_values ++ na_values in
        let positions := combine (seq 0 width) names in
        let data_positions :=
          filter (fun p => negb (fst p =? index_col)) positions in
        ret {| df_index := read_index rows na index_col;
               df_columns :=
                 map (fun p => parse_column rows na dtype_category (fst p) (snd p))
                     data_positions |}
    end.

(** [df.name]: the column as a series on the frame's index. *)
Definition getattr (df : DataFrame) (name : string) : M Globals Series :=
  match lookup_column name (df_columns df) with
  | Some col => ret {| s_index := df_index df; s_name := name; s_values := col |}
  | None => raise (AttributeError name)
  end.

(** [s.cat.rename_categories(new_categories)]: the same codes under new
    category names, bound by position; as many names as categories are
    required. *)
Definition cat_rename_categories (s : Series) (new_categories : list string)
  : M Globals Series :=
  match s_values s with
  | CategoryCol c =>
      if List.length new_categories =? List.length (categories c)
      then ret {| s_index := s_index s; s_name := s_name s;
                  s_values := CategoryCol {| categories := new_categories;
                                             codes := codes c |} |}
      else raise (ValueError categories_length_mismatch)
  | _ => raise (AttributeError "cat")
  end.

(** [y.name.cat.rename_categories(new_categories, inplace=True)].  Column
    access makes no copy: the series [y.name] is built on the categorical
    object held by [y], so renaming its categories in place is a write to
    the column of [y], and the call returns nothing.  The frame is passed
    in and handed back updated. *)
Definition cat_rename_categories_inplace (y : DataFrame) (name : string)
    (new_categories : list string) : M Globals DataFrame :=
  s <- getattr y name ;;
  s' <- cat_rename_categories s new_categories ;;
  ret {| df_index := df_index y;
         df_columns :=
           map (fun p => if String.eqb (fst p) name
                         then (fst p, s_values s') else p)
               (df_columns y) |}.

(** [df.drop(labels, axis=1)]. *)
Definition drop (df : DataFrame) (labels : list string) : M Globals DataFrame :=
  match find (fun l => negb (mem l (map fst (df_columns df)))) labels with
  | Some l => raise (KeyError l)
  | None =>
      ret {| df_index := df_index df;
             df_columns :=
               filter (fun p => negb (mem (fst p) labels)) (df_columns df) |}
  end.

(** [df.loc[:, labels]]: the named columns, in the order asked for. *)
Definition loc_columns (df : DataFrame) (labels : list string) : M Globals DataFrame :=
  match find (fun l => negb (mem l (map fst (df_columns df)))) labels with
  | Some l => raise (KeyError l)
  | None =>
      ret {| df_index := df_index df;
             df_columns :=
               flat_map (fun l => match lookup_column l (df_columns df) with
                                  | Some col => [(l, col)]
                                  | None => []
                                  end)
                        labels |}
  end.

(** [df.astype(float)]. *)
Definition astype_float (df : DataFrame) : M Globals DataFrame :=
  match mapM_option astype_float_named (df_columns df) with
  | Some cols => ret {| df_index := df_index df; df_columns := cols |}
  | None =>
      if existsb (fun p => column_rejected (snd p)) (df_columns df)
      then raise (ValueError could_not_convert_to_float)
      else unmodelled
  end.

(* ================================================================ *)
(** * 6. The loaders *)
(* ================================================================ *)

Definition load_wisconsin_breast_cancer_diagnosis (local_file : string)
  : M Globals (DataFrame * Series) :=
  let columns := ["ID"; "diagnosis"] in
  let columns := columns ++ image_features tt in
  data <- read_csv local_file 0 columns ["diagnosis"] [] ;;
  diagnosis <- getattr data "diagnosis" ;;
  y <- cat_rename_categories diagnosis ["benign"; "malignant"] ;;
  dropped <- drop data ["diagnosis"] ;;
  X <- astype_float dropped ;;
  ret (X, y).

Definition load_wisconsin_breast_cancer_prognosis (local_file : string)
  : M Globals (DataFrame * DataFrame) :=
  let columns := ["ID"; "outcome"; "time"] in
  let outcomes := skipn 1 columns in
  let extra_vars := ["tumor_size"; "lymph_node_status"] in
  let columns := columns ++ image_features tt in
  let columns := columns ++ extra_vars in
  data <- read_csv local_file 0 columns ["outcome"] ["?"] ;;
  y <- loc_columns data outcomes ;;
  y <- cat_rename_categories_inplace y "outcome" ["nonrecurring"; "recurring"] ;;
  dropped <- drop data outcomes ;;
  X <- astype_float dropped ;;
  ret (X, y).

End Pandas.

Arguments read_csv {Globals}.
Arguments load_wisconsin_breast_cancer_diagnosis {Globals}.
Arguments load_wisconsin_breast_cancer_prognosis {Globals}.

(** The default paths of the two loaders. *)
Definition wdbc_data : string := "datasets/wdbc.data".
Definition wpbc_data : string := "datasets/wpbc.data".

(* ================================================================== *)
(** * 7. The loaders' results as functions of the records *)
(* ================================================================== *)

(** The feature columns as [read_csv] leaves them: the names bound, by
    position, to the columns from position [first] on. *)
Definition feature_columns (rows : csv_file) (na : list string) (first : nat)
    (feature_names : list string) : list (string * column) :=
  map (fun p => (snd p, infer_column (column_cells rows na (fst p))))
      (combine (seq first (List.length feature_names)) feature_names).

Definition too_long (width : nat) (rows : csv_file) : bool :=
  existsb (fun r => width <? List.length r) rows.

(** What [read_csv] does with a file that has a record of more than
    [width] fields. *)
Definition over_long (A : Type) (width : nat) (rows : csv_file) : outcome A :=
  match rows with
  | [] => Unmodelled
  | first :: rest =>
      if width <? List.length first then Unmodelled
      else
        match first_over_long width 2 rest with
        | Some k => Raises (ParserError k)
        | None => Unmodelled
        end
  end.

Arguments over_long {A} width rows.

(** The floats of the [n] columns from position [first] on, when every one
    of them converts. *)
Definition feature_floats (rows : csv_file) (na : list string) (first n : nat)
  : option (list (list float64)) :=
  mapM_option (fun j => floats_of_cells (column_cells rows na j)) (seq first n).

(** One of the [n] columns from position [first] on is a column of
    strings with one that [float()] rejects. *)
Definition features_rejected (rows : csv_file) (na : list string)
    (first n : nat) : bool :=
  existsb (fun j => column_rejected (infer_column (column_cells rows na j)))
          (seq first n).

(** The outcome of a float conversion that did not go through. *)
Definition not_converted (A : Type) (rejected : bool) : outcome A :=
  if rejected then Raises (ValueError could_not_convert_to_float)
  else Unmodelled.

Arguments not_converted {A} rejected.

(** The frame of float columns [xss] under the names [names]. *)
Definition float_table (index : Index) (names : list string)
    (xss : list (list float64)) : DataFrame :=
  {| df_index := index; df_columns := combine names (map FloatCol xss) |}.

(** The missing-value tokens in force in each loader, and the feature names
    of the prognosis table. *)
Definition na_diagnosis : list string := default_na_values ++ [].
Definition na_prognosis : list string := default_na_values ++ ["?"].
Definition prognosis_features : list string :=
  image_features tt ++ ["tumor_size"; "lymph_node_status"].

(** The label column as parsed: the categorical of the fields at
    position 1. *)
Definition parsed_labels (rows : csv_file) (na : list string) : Categorical :=
  factorize (column_cells rows na 1).

(** What the diagnosis loader computes from the records of its file;
    [diagnosis_run] proves that it does. *)
Definition diagnosis_result (rows : csv_file) : outcome (DataFrame * Series) :=
  if too_long 32 rows then over_long 32 rows
  else
    let index := read_index rows na_diagnosis 0 in
    let labels := parsed_labels rows na_diagnosis in
    if 2 =? List.length (categories labels) then
      match mapM_option astype_float_named
              (feature_columns rows na_diagnosis 2 (image_features tt)) with
      | Some cols =>
          Returns ({| df_index := index; df_columns := cols |},
                   {| s_index := index; s_name := "diagnosis";
                      s_values :=
                        CategoryCol {| categories := ["benign"; "malignant"];
                                       codes := codes labels |} |})
      | None => not_converted (features_rejected rows na_diagnosis 2 30)
      end
    else Raises (ValueError categories_length_mismatch).

(** What the prognosis loader computes from the records of its file;
    [prognosis_run] proves that it does. *)
Definition prognosis_result (rows : csv_file)
  : outcome (DataFrame * DataFrame) :=
  if too_long 35 rows then over_long 35 rows
  else
    let index := read_index rows na_prognosis 0 in
    let labels := parsed_labels rows na_prognosis in
    if 2 =? List.length (categories labels) then
      match mapM_option astype_float_named
              (feature_columns rows na_prognosis 3 prognosis_features) with
      | Some cols =>
          Returns ({| df_index := index; df_columns := cols |},
                   {| df_index := index;
                      df_columns :=
                        [("outcome",
                          CategoryCol {| categories := ["nonrecurring"; "recurring"];
                                         codes := codes labels |});
                         ("time", infer_column (column_cells rows na_prognosis 2))] |})
      | None => not_converted (features_rejected rows na_prognosis 3 32)
      end
    else Raises (ValueError categories_length_mismatch).

Definition on_file {A : Type} (path : string) (file : option csv_file)
    (k : csv_file -> outcome A) : outcome A :=
  match file with
  | Some rows => k rows
  | None => Raises (FileNotFoundError path)
  end.

(* ================================================================== *)
(** * 8. Reading the results; well-formed files; sample files *)
(* ================================================================== *)

(** ** Observations on frames and series *)

(** [df.shape]. *)
Definition shape (df : DataFrame) : nat * nat :=
  (List.length (ix_cells (df_index df)), List.length (df_columns df)).

Definition column_names (df : DataFrame) : list string :=
  map fst (df_columns df).

(** The float at row [i] of the column called [name]. *)
Definition frame_cell (df : DataFrame) (name : string) (i : nat)
  : option float64 :=
  match lookup_column name (df_columns df) with
  | Some (FloatCol xs) => nth_error xs i
  | _ => None
  end.

(** Every column is a float column with one entry per row of the index. *)
Definition float_frame (df : DataFrame) : bool :=
  forallb (fun p => match snd p with
                    | FloatCol xs =>
                        List.length xs =? List.length (ix_cells (df_index df))
                    | _ => false
                    end)
          (df_columns df).

(** Every column is a float column, one entry per row, and no entry is
    missing. *)
Definition numeric_frame (df : DataFrame) : bool :=
  forallb (fun p => match snd p with
                    | FloatCol xs =>
                        (List.length xs
                         =? List.length (ix_cells (df_index df)))
                        && forallb is_finite xs
                    | _ => false
                    end)
          (df_columns df).

(** The label values of a column, row by row: the category names of a
    categorical, the tokens of a column as read. *)
Definition column_labels (col : column) : list cell :=
  match col with
  | CategoryCol c => categorical_values c
  | ReadCol _ cells => cells
  | FloatCol _ => []
  end.

(** The values of a column, row by row. *)
Definition column_values (col : column) : option (list scalar) :=
  match col with
  | CategoryCol c => read_scalars AsString (categorical_values c)
  | ReadCol r cells => read_scalars r cells
  | FloatCol xs => Some (map FloatVal xs)
  end.

Definition series_labels (s : Series) : list cell := column_labels (s_values s).

(** The label values of the column [name] of a frame. *)
Definition frame_labels (df : DataFrame) (name : string) : list cell :=
  match lookup_column name (df_columns df) with
  | Some col => column_labels col
  | None => []
  end.

(** [s.value_counts()] of a categorical series. *)
Definition series_value_counts (s : Series) : list (string * nat) :=
  match s_values s with
  | CategoryCol c => value_counts c
  | _ => []
  end.

(** ** The fields of a record *)

Definition identifier (r : csv_record) : string := nth 0 r "".
Definition raw_label (r : csv_record) : string := nth 1 r "".
Definition field (j : nat) (r : csv_record) : string := nth j r "".

(** The integer an integer token denotes. *)
Definition int_value (t : string) : Z :=
  match int_of_token t with Some z => z | None => 0%Z end.

(** The index entry of a record when the index holds strings. *)
Definition string_entry (na : list string) (r : csv_record) : scalar :=
  match na_filter na (identifier r) with
  | Some t => StrVal t
  | None => FloatVal NaN
  end.

(** A token that denotes a finite number, written as a decimal literal
    that every converter takes to the same float. *)
Definition numeric_token (t : string) : bool :=
  match float_of_string t with
  | Some (Finite _) => short_decimal t
  | _ => false
  end.

(** The number of records carrying the raw label [code]. *)
Definition count_label (code : string) (rows : csv_file) : nat :=
  List.length (filter (fun r => String.eqb (raw_label r) code) rows).

(** The target name a raw label is given when [first_code] is the raw code
    that sorts first. *)
Definition relabel (first_code first_name second_name : string)
    (r : csv_record) : cell :=
  if String.eqb (raw_label r) first_code then Some first_name
  else Some second_name.

(** The same, a label that is a missing-value token staying missing. *)
Definition relabel_present (na : list string)
    (first_code first_name second_name : string) (r : csv_record) : cell :=
  if is_na na (raw_label r) then None
  else relabel first_code first_name second_name r.

(** ** Well-formed files

    A diagnosis record has 32 fields: an identifier, one of the two raw
    label codes, 30 numbers.  A diagnosis file is well formed when all its
    records are and both raw codes occur in it: the loader renames the
    categories by position and needs the two of them. *)
Definition diagnosis_record_ok (first_code second_code : string)
    (r : csv_record) : bool :=
  (List.length r =? 32)
  && (String.eqb (raw_label r) first_code
      || String.eqb (raw_label r) second_code)
  && forallb (fun j => numeric_token (field j r)) (seq 2 30).

Definition well_formed_diagnosis (first_code second_code : string)
    (rows : csv_file) : bool :=
  forallb (diagnosis_record_ok first_code second_code) rows
  && existsb (fun r => String.eqb (raw_label r) first_code) rows
  && existsb (fun r => String.eqb (raw_label r) second_code) rows.

(** A prognosis record has 35 fields: an identifier, one of the two raw
    outcome codes, the time, 30 image features and the tumor size, all
    numbers, and the lymph node status, a number or the token [?]. *)
Definition prognosis_record_ok (first_code second_code : string)
    (r : csv_record) : bool :=
  (List.length r =? 35)
  && (String.eqb (raw_label r) first_code
      || String.eqb (raw_label r) second_code)
  && forallb (fun j => numeric_token (field j r)) (seq 2 32)
  && (numeric_token (field 34 r) || String.eqb (field 34 r) "?").

Definition well_formed_prognosis (first_code second_code : string)
    (rows : csv_file) : bool :=
  forallb (prognosis_record_ok first_code second_code) rows
  && existsb (fun r => String.eqb (raw_label r) first_code) rows
  && existsb (fun r => String.eqb (raw_label r) second_code) rows.

(** The [n] fields of a record from position [first] on denote finite
    numbers; or each of them does or is the token [?]. *)
Definition numbers_at (first n : nat) (r : csv_record) : bool :=
  forallb (fun j => numeric_token (field j r)) (seq first n).

Definition numbers_or_unknown_at (first n : nat) (r : csv_record) : bool :=
  forallb (fun j => numeric_token (field j r) || String.eqb (field j r) "?")
          (seq first n).

(** Two raw codes a label column can be relabelled from: present tokens,
    the first sorting before the second. *)
Definition code_pair (na : list string) (first_code second_code : string)
  : bool :=
  String.ltb first_code second_code
  && negb (is_na na first_code) && negb (is_na na second_code).

(** ** Reordered feature columns

    The record with its feature fields, which start at position [first],
    rearranged: field [first + j] of the result is field [first + p(j)] of
    the record. *)
Definition permute_features (first : nat) (p : list nat) (r : csv_record)
  : csv_record :=
  firstn first r ++ map (fun i => field (first + i) r) p.

(** The columns of a list picked in the order [p]. *)
Definition pick {A : Type} (d : A) (l : list A) (p : list nat) : list A :=
  map (fun i => nth i l d) p.

(** ** A file system with one file *)
Definition single_file (path : string) (rows : csv_file)
  : string -> option csv_file :=
  fun p => if String.eqb p path then Some rows else None.

Definition world_with (path : string) (rows : csv_file) : world unit :=
  {| fs := single_file path rows; globals := tt |}.

(** ** Sample files *)

(** A diagnosis record with the same number in its 30 feature fields. *)
Definition diagnosis_record (id code number : string) : csv_record :=
  [id; code] ++ repeat number 30.

(** A prognosis record: time, 30 equal feature fields, tumor size, lymph
    node status. *)
Definition prognosis_record (id code time number tumor_size lymph : string)
  : csv_record :=
  [id; code; time] ++ repeat number 30 ++ [tumor_size; lymph].

(** Five diagnosis records, two coded M and three coded B. *)
Definition five_diagnosis_records : csv_file :=
  [diagnosis_record "842302" "M" "17.99";
   diagnosis_record "842517" "M" "20.57";
   diagnosis_record "8510426" "B" "13.54";
   diagnosis_record "8510653" "B" "13.08";
   diagnosis_record "8510824" "B" "9.504"].

(** Three prognosis records; the lymph node status of the last is missing. *)
Definition three_prognosis_records : csv_file :=
  [prognosis_record "119513" "N" "31" "18.02" "5" "5";
   prognosis_record "8423" "N" "61" "17.99" "3" "2";
   prognosis_record "842517" "R" "116" "21.37" "2.5" "?"].

(** Prognosis records with the token [?] in the tumor size of the first. *)
Definition prognosis_unknown_tumor_size : csv_file :=
  [prognosis_record "119513" "N" "31" "18.02" "?" "5";
   prognosis_record "842517" "R" "116" "21.37" "2.5" "0"].

(** Diagnosis records of 31 fields: the last feature field is absent. *)
Definition short_diagnosis_records : csv_file :=
  [["8510426"; "B"] ++ repeat "13.54" 29;
   ["842302"; "M"] ++ repeat "17.99" 29].

(** Absent last fields in prognosis records. *)
Definition short_prognosis_records : csv_file :=
  [["119513"; "N"; "31"] ++ repeat "18.02" 30 ++ ["5"];
   ["842517"; "R"; "116"] ++ repeat "21.37" 30 ++ ["2.5"]].

(** Diagnosis records with a third raw code. *)
Definition three_code_diagnosis_records : csv_file :=
  [diagnosis_record "1" "B" "13.54";
   diagnosis_record "2" "M" "17.99";
   diagnosis_record "3" "X" "20.57"].

Definition three_code_prognosis_records : csv_file :=
  [prognosis_record "1" "N" "31" "18.02" "5" "5";
   prognosis_record "2" "R" "116" "21.37" "2.5" "0";
   prognosis_record "3" "X" "61" "17.99" "3" "2"].

(** Diagnosis and prognosis records, the label field of the last holding
    a missing-value token. *)
Definition missing_label_diagnosis_records : csv_file :=
  [diagnosis_record "1" "B" "13.54";
   diagnosis_record "2" "M" "17.99";
   diagnosis_record "3" "NA" "20.57"].

Definition missing_label_prognosis_records : csv_file :=
  [prognosis_record "1" "N" "31" "18.02" "5" "5";
   prognosis_record "2" "R" "116" "21.37" "2.5" "0";
   prognosis_record "3" "?" "61" "17.99" "3" "2"].

(** Files of one class only, their records well formed. *)
Definition one_class_diagnosis_records : csv_file :=
  [diagnosis_record "8510426" "B" "13.54";
   diagnosis_record "8510653" "B" "13.08"].

Definition one_class_prognosis_records : csv_file :=
  [prognosis_record "119513" "N" "31" "18.02" "5" "5";
   prognosis_record "8423" "N" "61" "17.99" "3" "?"].

(** Records sharing an identifier, of one class only. *)
Definition duplicate_id_one_class_records : csv_file :=
  [diagnosis_record "842302" "B" "17.99";
   diagnosis_record "842302" "B" "13.54"].

(** Records whose identifiers are two spellings of one integer. *)
Definition leading_zero_id_records : csv_file :=
  [diagnosis_record "007" "B" "13.54";
   diagnosis_record "7" "M" "17.99"].

(** A file whose second record has one field too many. *)
Definition longer_second_record : csv_file :=
  [diagnosis_record "8510426" "B" "13.54";
   diagnosis_record "842302" "M" "17.99" ++ ["0"]].

(** Records sharing an identifier. *)
Definition duplicate_id_diagnosis_records : csv_file :=
  [diagnosis_record "842302" "M" "17.99";
   diagnosis_record "842302" "B" "13.54"].

Definition duplicate_id_prognosis_records : csv_file :=
  [prognosis_record "119513" "N" "31" "18.02" "5" "5";
   prognosis_record "119513" "R" "116" "21.37" "2.5" "0"].

(** Diagnosis records whose first two feature fields differ, and the
    reordering that exchanges the first two feature columns. *)
Definition distinct_diagnosis_records : csv_file :=
  [["8510426"; "B"; "13.54"; "14.36"] ++ repeat "0.1" 28;
   ["842302"; "M"; "17.99"; "10.38"] ++ repeat "0.2" 28].

Definition exchange_first_two (n : nat) : list nat := 1 :: 0 :: seq 2 (n - 2).

(** A diagnosis record with the token [?] in a feature field. *)
Definition diagnosis_unknown_feature : csv_file :=
  [["8510426"; "B"; "?"] ++ repeat "13.54" 29;
   diagnosis_record "842302" "M" "17.99"].

(* ================================================================== *)
(** * 9. The cells that call the loaders *)
(* ================================================================== *)

(** [s == value] on a series of labels, row by row; a missing label
    compares false. *)
Definition series_eq (s : Series) (value : string) : list bool :=
  map (fun l => match l with
                | Some v => String.eqb v value
                | None => false
                end)
      (series_labels s).

(** The entries of [xs] at the rows where the mask is true. *)
Definition boolean_select {A : Type} (xs : list A) (mask : list bool) : list A :=
  map fst (filter snd (combine xs mask)).

(** [s[mask]] for a boolean mask on the rows of [s]; the dtypes stay. *)
Definition series_select (s : Series) (mask : list bool) : Series :=
  {| s_index := {| ix_cells := boolean_select (ix_cells (s_index s)) mask;
                   ix_as := ix_as (s_index s) |};
     s_name := s_name s;
     s_values :=
       match s_values s with
       | ReadCol r cells => ReadCol r (boolean_select cells mask)
       | FloatCol xs => FloatCol (boolean_select xs mask)
       | CategoryCol c =>
           CategoryCol {| categories := categories c;
                          codes := boolean_select (codes c) mask |}
       end |}.

Section Cells.

Variable Globals : Type.

(** The cell of task 1: the loader is called on its default path; the
    shape of the feature table and the label counts are printed. *)
Definition diagnosis_cell : M Globals ((nat * nat) * list (string * nat)) :=
  loaded <- load_wisconsin_breast_cancer_diagnosis wdbc_data ;;
  let '(X_diagnosis, y_diagnosis) := loaded in
  ret (shape X_diagnosis, series_value_counts y_diagnosis).

(** The cell of task 2: shape and outcome counts are printed, and the
    times of the recurring and of the nonrecurring rows are handed to the
    histogram, in that order, under the labels [recurring] and
    [nonrecurring]. *)
Definition prognosis_cell
  : M Globals ((nat * nat) * list (string * nat) * list (string * Series)) :=
  loaded <- load_wisconsin_breast_cancer_prognosis wpbc_data ;;
  let '(X_prognosis, y_prognosis) := loaded in
  outcome <- getattr y_prognosis "outcome" ;;
  let counts := series_value_counts outcome in
  time1 <- getattr y_prognosis "time" ;;
  outcome1 <- getattr y_prognosis "outcome" ;;
  let recurring := series_select time1 (series_eq outcome1 "recurring") in
  time2 <- getattr y_prognosis "time" ;;
  outcome2 <- getattr y_prognosis "outcome" ;;
  let nonrecurring := series_select time2 (series_eq outcome2 "nonrecurring") in
  ret (shape X_prognosis, counts,
       combine ["recurring"; "nonrecurring"] [recurring; nonrecurring]).

End Cells.

Arguments diagnosis_cell {Globals}.
Arguments prognosis_cell {Globals}.

(** Records that differ at most in the fields at the positions [free] and
    have the same number of fields. *)
Definition same_but (free : list nat) (r r' : csv_record) : Prop :=
  List.length r = List.length r'
  /\ forall j, ~ In j free -> field j r = field j r'.

(** The order of the categories: code-point order of the strings. *)
Definition before (s t : string) : Prop := String.compare s t = Lt.

(** The number of records whose label field is a missing-value token. *)
Definition count_missing_labels (na : list string) (rows : csv_file) : nat :=
  List.length (filter (fun r => is_na na (raw_label r)) rows).

(** The time fields of the records carrying the raw label [code]. *)
Definition times_of (na : list string) (code : string) (rows : csv_file)
  : list cell :=
  map (fun r => na_filter na (field 2 r))
      (filter (fun r => String.eqb (raw_label r) code) rows).

(** The rows of a column, an index, a frame, a series at the positions
    [p], in the order of [p] (positions within range); the dtypes stay. *)
Definition take_column (p : list nat) (col : column) : column :=
  match col with
  | ReadCol r cells => ReadCol r (pick None cells p)
  | FloatCol xs => FloatCol (pick NaN xs p)
  | CategoryCol c =>
      CategoryCol {| categories := categories c;
                     codes := pick None (codes c) p |}
  end.

Definition take_index (p : list nat) (ix : Index) : Index :=
  {| ix_cells := pick None (ix_cells ix) p; ix_as := ix_as ix |}.

Definition take_frame (p : list nat) (df : DataFrame) : DataFrame :=
  {| df_index := take_index p (df_index df);
     df_columns := map (fun nc => (fst nc, take_column p (snd nc)))
                       (df_columns df) |}.

Definition take_series (p : list nat) (s : Series) : Series :=
  {| s_index := take_index p (s_index s);
     s_name := s_name s;
     s_values := take_column p (s_values s) |}.

(** More sample files: one class only, with a feature field that is no
    number; prognosis records with other identifiers and times than
    [three_prognosis_records]; an order of five rows. *)
Definition single_class_diagnosis_records : csv_file :=
  [["8510426"; "B"; "n/k"] ++ repeat "13.54" 29;
   diagnosis_record "8510653" "B" "13.08"].

Definition retimed_prognosis_records : csv_file :=
  [prognosis_record "A-1" "N" "about 31" "18.02" "5" "5";
   prognosis_record "A-2" "N" "?" "17.99" "3" "2";
   prognosis_record "A-3" "R" "" "21.37" "2.5" "?"].

(** The three prognosis records with other spellings of the times. *)
Definition zero_padded_prognosis_records : csv_file :=
  [prognosis_record "119513" "N" "031" "18.02" "5" "5";
   prognosis_record "8423" "N" "+61" "17.99" "3" "2";
   prognosis_record "842517" "R" "0116" "21.37" "2.5" "?"].

Definition reversed_five : list nat := [4; 3; 2; 1; 0].

(* ================================================================== *)
(** * 10. The prediction display of the estimator lecture *)
(* ================================================================== *)

Module Display.

(** The failures the display loop can meet. *)
Inductive value_error : Type :=
| cannot_reshape (size : nat)        (* reshape: size is not rows * cols *)
| subplot_out_of_range (num : nat).  (* subplot: num is not in 1 .. rows * cols *)

Inductive exn : Type :=
| IndexError (index : nat)
| KeyError (key : string)
| ValueError (why : value_error).

Inductive result (A : Type) : Type :=
| Ok (a : A)
| Error (e : exn).

Arguments Ok {A} a.
Arguments Error {A} e.

(** A prediction: the dict the estimator yields for one example, reduced
    to its integer arrays; the loop reads the key [class_ids] only. *)
Definition prediction : Type := list (string * list Z).

Section Plot.

(** The type of a pixel value. *)
Variable Pixel : Type.

(** An axes of a figure: its place in the subplot grid (rows, columns,
    number), the image shown with its colour map, the title, and whether
    the two axis lines are drawn. *)
Record Axes : Type := {
  ax_position : nat * nat * nat;
  ax_image : option (list (list Pixel) * string);
  ax_title : string;
  ax_xaxis_visible : bool;
  ax_yaxis_visible : bool
}.

Record Figure : Type := {
  fig_size : Q * Q;
  fig_axes : list Axes
}.

(** The state of pyplot: the figures in creation order; the last one is
    the current figure. *)
Definition pyplot : Type := list Figure.

Definition P (A : Type) : Type := pyplot -> result A * pyplot.

Definition ret {A : Type} (a : A) : P A := fun st => (Ok a, st).

Definition bind {A B : Type} (m : P A) (k : A -> P B) : P B :=
  fun st =>
    match m st with
    | (Ok a, st') => k a st'
    | (Error e, st') => (Error e, st')
    end.

Definition raise {A : Type} (e : exn) : P A := fun st => (Error e, st).

(** [plt.figure(figsize=...)]: a new, empty figure becomes current. *)
Definition figure (figsize : Q * Q) : P unit :=
  fun st => (Ok tt, st ++ [{| fig_size := figsize; fig_axes := [] |}]).

Definition default_figure : Figure :=
  {| fig_size := (64 # 10, 48 # 10); fig_axes := [] |}.

Definition new_axes (position : nat * nat * nat) : Axes :=
  {| ax_position := position; ax_image := None; ax_title := "";
     ax_xaxis_visible := true; ax_yaxis_visible := true |}.

Definition same_position (p q : nat * nat * nat) : bool :=
  let '(a, b, c) := p in
  let '(a', b', c') := q in
  (a =? a') && (b =? b') && (c =? c').

(** The place of the first axes at [position], if there is one. *)
Fixpoint find_axes (position : nat * nat * nat) (axes : list Axes)
  : option nat :=
  match axes with
  | [] => None
  | a :: axes' =>
      if same_position (ax_position a) position then Some 0
      else option_map S (find_axes position axes')
  end.

(** [plt.subplot(nrows, ncols, num)] on the current figure (one is made
    if there is none): the axes at that place of the grid, added if the
    figure has none there.  The number must lie in 1 .. nrows * ncols.  The
    result is the handle of the axes, its place among the axes of the
    current figure. *)
Definition subplot (nrows ncols num : nat) : P nat :=
  fun st =>
    let st := match st with [] => [default_figure] | _ :: _ => st end in
    if (1 <=? num) && (num <=? nrows * ncols) then
      let fig := last st default_figure in
      match find_axes (nrows, ncols, num) (fig_axes fig) with
      | Some h => (Ok h, st)
      | None =>
          (Ok (List.length (fig_axes fig)),
           removelast st
             ++ [{| fig_size := fig_size fig;
                    fig_axes := fig_axes fig ++ [new_axes (nrows, ncols, num)] |}])
      end
    else (Error (ValueError (subplot_out_of_range num)), st).

(** A method call on the axes with handle [h] of the current figure. *)
Fixpoint update_nth {A : Type} (h : nat) (f : A -> A) (l : list A) : list A :=
  match l, h with
  | [], _ => []
  | a :: l', O => f a :: l'
  | a :: l', S h' => a :: update_nth h' f l'
  end.

Definition on_axes (h : nat) (f : Axes -> Axes) : P unit :=
  fun st =>
    match st with
    | [] => (Ok tt, st)
    | _ :: _ =>
        let fig := last st default_figure in
        (Ok tt,
         removelast st
           ++ [{| fig_size := fig_size fig;
                  fig_axes := update_nth h f (fig_axes fig) |}])
    end.

Definition imshow (h : nat) (image : list (list Pixel)) (cmap : string) : P unit :=
  on_axes h (fun a => {| ax_position := ax_position a;
                         ax_image := Some (image, cmap);
                         ax_title := ax_title a;
                         ax_xaxis_visible := ax_xaxis_visible a;
                         ax_yaxis_visible := ax_yaxis_visible a |}).

Definition set_title (h : nat) (title : string) : P unit :=
  on_axes h (fun a => {| ax_position := ax_position a;
                         ax_image := ax_image a;
                         ax_title := title;
                         ax_xaxis_visible := ax_xaxis_visible a;
                         ax_yaxis_visible := ax_yaxis_visible a |}).

Definition xaxis_set_visible (h : nat) (b : bool) : P unit :=
  on_axes h (fun a => {| ax_position := ax_position a;
                         ax_image := ax_image a;
                         ax_title := ax_title a;
                         ax_xaxis_visible := b;
                         ax_yaxis_visible := ax_yaxis_visible a |}).

Definition yaxis_set_visible (h : nat) (b : bool) : P unit :=
  on_axes h (fun a => {| ax_position := ax_position a;
                         ax_image := ax_image a;
                         ax_title := ax_title a;
                         ax_xaxis_visible := ax_xaxis_visible a;
                         ax_yaxis_visible := b |}).

(** [xs[i]] for an index that is not negative. *)
Definition index_array {A : Type} (xs : list A) (i : nat) : P A :=
  match nth_error xs i with
  | Some x => ret x
  | None => raise (IndexError i)
  end.

(** The rows of a [rows] by [cols] array filled from [xs] in order. *)
Fixpoint chunks {A : Type} (cols rows : nat) (xs : list A) : list (list A) :=
  match rows with
  | O => []
  | S rows' => firstn cols xs :: chunks cols rows' (skipn cols xs)
  end.

(** [xs.reshape(rows, cols)]. *)
Definition reshape {A : Type} (xs : list A) (rows cols : nat)
  : P (list (list A)) :=
  if List.length xs =? rows * cols then ret (chunks cols rows xs)
  else raise (ValueError (cannot_reshape (List.length xs))).

(** [p[key]] on a dict. *)
Fixpoint lookup (key : string) (p : prediction) : option (list Z) :=
  match p with
  | [] => None
  | (k, v) :: p' => if String.eqb key k then Some v else lookup key p'
  end.

Definition getitem (p : prediction) (key : string) : P (list Z) :=
  match lookup key p with
  | Some v => ret v
  | None => raise (KeyError key)
  end.

(** ["%d" % z]. *)
Definition format_d (z : Z) : string :=
  DecimalString.NilEmpty.string_of_int (Z.to_int z).

Definition newline : string := String (ascii_of_nat 10) EmptyString.

(** ["Predicted: %d\nActual: %d" % (predicted, actual)]. *)
Definition title_of (predicted actual : Z) : string :=
  "Predicted: " ++ format_d predicted ++ newline
    ++ "Actual: " ++ format_d actual.

Declare Scope display_scope.
Local Notation "x <- c ;; k" := (bind c (fun x => k))
  (at level 61, c at next level, right associativity) : display_scope.
Local Open Scope display_scope.

(** The body of the loop up to the counter update, for the prediction [p]
    met when the counter is [i]. *)
Definition display_one (n : nat) (images_test : list (list Pixel))
    (labels_test : list Z) (i : nat) (p : prediction) : P unit :=
  ax <- subplot 2 n (i + 1) ;;
  image <- index_array images_test i ;;
  shaped <- reshape image 28 28 ;;
  _ <- imshow ax shaped "gray_r" ;;
  actual <- index_array labels_test i ;;
  class_ids <- getitem p "class_ids" ;;
  predicted <- index_array class_ids 0 ;;
  _ <- set_title ax (title_of predicted actual) ;;
  _ <- xaxis_set_visible ax false ;;
  yaxis_set_visible ax false.

(** [for p in predictions: ...; i += 1; if i == n: break].  The result is
    the final counter and the predictions the generator has not yielded. *)
Fixpoint display_loop (n : nat) (images_test : list (list Pixel))
    (labels_test : list Z) (predictions : list prediction) (i : nat)
  : P (nat * list prediction) :=
  match predictions with
  | [] => ret (i, [])
  | p :: rest =>
      _ <- display_one n images_test labels_test i p ;;
      let i := i + 1 in
      if i =? n then ret (i, rest)
      else display_loop n images_test labels_test rest i
  end.

(** The cell: [n] is the number of digits to display (10 in the
    notebook), the counter starts at 0, and a figure of 20 by 4 is opened
    before the loop. *)
Definition display_cell (n : nat) (images_test : list (list Pixel))
    (labels_test : list Z) (predictions : list prediction)
  : P (nat * list prediction) :=
  _ <- figure (20 # 1, 4 # 1) ;;
  display_loop n images_test labels_test predictions 0.

(** The axes the loop leaves for the example number [k]. *)
Definition panel (n k : nat) (image : list Pixel) (predicted actual : Z)
  : Axes :=
  {| ax_position := (2, n, k + 1);
     ax_image := Some (chunks 28 28 image, "gray_r");
     ax_title := title_of predicted actual;
     ax_xaxis_visible := false;
     ax_yaxis_visible := false |}.

(** The class a prediction names first (0 when it names none). *)
Definition class_id (p : prediction) : Z :=
  match lookup "class_ids" p with
  | Some (z :: _) => z
  | _ => 0%Z
  end.

(** What the loop body reads of the example number [k] and of its
    prediction: an image of 784 pixels, a label, a first class. *)
Definition displayable (images_test : list (list Pixel)) (labels_test : list Z)
    (k : nat) (p : prediction) : Prop :=
  (exists image, nth_error images_test k = Some image
                 /\ List.length image = 784)
  /\ (exists actual, nth_error labels_test k = Some actual)
  /\ (exists z zs, lookup "class_ids" p = Some (z :: zs)).

(** The panels of the examples [0 .. m - 1]. *)
Definition panels (n : nat) (images_test : list (list Pixel))
    (labels_test : list Z) (predictions : list prediction) (m : nat)
  : list Axes :=
  map (fun k => panel n k (nth k images_test [])
                      (class_id (nth k predictions []))
                      (nth k labels_test 0%Z))
      (seq 0 m).

End Plot.

(** Sample data: images of one grey value, three examples, four
    predictions. *)
Definition grey_image (v : nat) : list nat := repeat v 784.

Definition sample_images : list (list nat) :=
  [grey_image 0; grey_image 1; grey_image 2].

Definition sample_labels : list Z := [7%Z; 2%Z; 1%Z].

Definition sample_predictions : list prediction :=
  [[("logits", [0%Z; 5%Z]); ("class_ids", [7%Z])];
   [("class_ids", [2%Z])];
   [("class_ids", [8%Z])];
   [("class_ids", [4%Z])]].

End Display.

(* ================================================================== *)
(** * 11. Evaluation on small inputs *)
(* ================================================================== *)

Example float_of_string_fraction :
  float_of_string "2.5" = Some (Finite (5 # 2))
  /\ float_of_string "0.1"
     = Some (Finite (3602879701896397 # 36028797018963968)).
Proof. split; reflexivity. Qed.

Example float_of_string_exponent :
  float_of_string " -1_0.5e2" = Some (Finite (-1050 # 1)).
Proof. reflexivity. Qed.

Example float_of_string_rounds :
  float_of_string "9007199254740993" = Some (Finite (9007199254740992 # 1))
  /\ float_of_string "1e400" = Some (Inf false)
  /\ float_of_string "1e-400" = Some (Finite 0).
Proof. repeat split; vm_compute; reflexivity. Qed.

Example float_of_string_white_space :
  float_of_string (String (ascii_of_nat 9) "1.5") = Some (Finite (3 # 2))
  /\ float_of_string (String (ascii_of_nat 28) "1.5") = None.
Proof. split; reflexivity. Qed.

Example float_of_string_infinity : float_of_string "-Infinity" = Some (Inf true).
Proof. reflexivity. Qed.

Example float_of_string_underscores :
  float_of_string "1__0" = None /\ float_of_string "1_" = None
  /\ float_of_string "1._5" = None /\ float_of_string "." = None.
Proof. repeat split. Qed.

Example float_of_string_unknown : float_of_string "?" = None.
Proof. reflexivity. Qed.

Example float_of_string_empty : float_of_string "" = None.
Proof. reflexivity. Qed.

Example categories_are_sorted :
  sorted_categories [Some "M"; Some "B"; None; Some "M"; Some "B"] = ["B"; "M"].
Proof. reflexivity. Qed.

Example factorize_codes :
  codes (factorize [Some "M"; Some "B"; None; Some "M"])
  = [Some 1; Some 0; None; Some 1].
Proof. reflexivity. Qed.

Example boolean_column_converts :
  floats_of_cells [Some "True"; None; Some "false"]
  = Some [Finite 1; NaN; Finite 0].
Proof. reflexivity. Qed.

Example mixed_column_fails :
  floats_of_cells [Some "True"; Some "1.5"] = None.
Proof. reflexivity. Qed.

Example integers_are_read_by_value :
  infer_reading [Some "007"; Some "7"] = AsInt
  /\ read_scalars AsInt [Some "007"; Some "7"] = Some [IntVal 7; IntVal 7].
Proof. split; reflexivity. Qed.

Example integers_beside_a_missing_cell :
  infer_reading [Some "031"; None] = AsUpcastInt
  /\ read_scalars AsUpcastInt [Some "031"; None]
     = Some [FloatVal (Finite 31); FloatVal NaN]
  /\ floats_of_cells [Some "-9223372036854775808"; None] = Some [NaN; NaN].
Proof. repeat split. Qed.

Example overflowing_token_stays_a_string :
  infer_reading [Some "1e400"; Some "1"] = AsString
  /\ floats_of_cells [Some "1e400"; Some "1"] = Some [Inf false; Finite 1].
Proof. split; vm_compute; reflexivity. Qed.

Example single_class_file_fails :
  fst (load_wisconsin_breast_cancer_diagnosis wdbc_data
         (world_with wdbc_data [diagnosis_record "8510426" "B" "13.54"]))
  = Raises (ValueError categories_length_mismatch).
Proof. reflexivity. Qed.

Example longer_first_record_is_out_of_scope :
  fst (load_wisconsin_breast_cancer_diagnosis wdbc_data
         (world_with wdbc_data
            [diagnosis_record "8510426" "B" "13.54" ++ ["0"];
             diagnosis_record "842302" "M" "17.99"]))
  = Unmodelled.
Proof. reflexivity. Qed.

Example longer_later_record_is_rejected :
  fst (load_wisconsin_breast_cancer_diagnosis wdbc_data
         (world_with wdbc_data
            [diagnosis_record "8510426" "B" "13.54";
             diagnosis_record "842302" "M" "17.99" ++ ["0"]]))
  = Raises (ParserError 2).
Proof. reflexivity. Qed.

Example value_counts_most_frequent_first :
  value_counts {| categories := ["benign"; "malignant"];
                  codes := [Some 1; Some 1; Some 0; Some 1] |}
  = [("malignant", 3); ("benign", 1)].
Proof. reflexivity. Qed.

Example value_counts_equal_counts :
  value_counts {| categories := ["benign"; "malignant"];
                  codes := [Some 1; Some 0] |}
  = [("benign", 1); ("malignant", 1)].
Proof. reflexivity. Qed.

(* ================================================================== *)
(** * 12. The loaders compute the results of section 7 *)
(* ================================================================== *)

Lemma first_over_long_none (width : nat) (rest : csv_file) :
  forall k,
    first_over_long width k rest = None
    <-> existsb (fun r => width <? List.length r) rest = false.
Proof.
  induction rest as [|r rest IH]; intros k; [now split|].
  cbn [first_over_long existsb].
  destruct (width <? List.length r); [now split|]. apply IH.
Qed.

Lemma first_over_long_some (width : nat) (rest : csv_file) :
  forall k j,
    first_over_long width k rest = Some j ->
    existsb (fun r => width <? List.length r) rest = true.
Proof.
  intros k j H.
  destruct (existsb (fun r => width <? List.length r) rest) eqn:E;
    [reflexivity|].
  apply first_over_long_none with (k := k) in E. congruence.
Qed.

(** The width test of [read_csv], by cases on [too_long]. *)
Lemma width_test (A : Type) (width : nat) (rows : csv_file)
    (k : outcome A) :
  (if match rows with
      | first :: _ => width <? List.length first
      | [] => false
      end
   then Unmodelled
   else match first_over_long width 2 (tl rows) with
        | Some j => Raises (ParserError j)
        | None => k
        end)
  = if too_long width rows then over_long width rows else k.
Proof.
  unfold too_long, over_long. destruct rows as [|first rest]; [reflexivity|].
  cbn [existsb tl]. destruct (width <? List.length first); [reflexivity|].
  cbn [orb]. destruct (first_over_long width 2 rest) as [j|] eqn:E.
  - apply first_over_long_some in E. now rewrite E.
  - apply first_over_long_none in E. now rewrite E.
Qed.

(** The record [first_over_long] answers is the first one with more than
    [width] fields. *)
Lemma first_over_long_spec (width : nat) (rest : csv_file) :
  forall k j,
    first_over_long width k rest = Some j ->
    k <= j
    /\ exists r, nth_error rest (j - k) = Some r
                 /\ width < List.length r
                 /\ Forall (fun r' => List.length r' <= width)
                           (firstn (j - k) rest).
Proof.
  induction rest as [|r rest IH]; intros k j H; [discriminate|].
  cbn [first_over_long] in H.
  destruct (Nat.ltb_spec width (List.length r)) as [Hlt|Hle].
  - injection H as <-. split; [lia|]. rewrite Nat.sub_diag.
    exists r. repeat split; [assumption | constructor].
  - destruct (IH _ _ H) as (Hk & r' & Hr' & Hlt & Hall).
    split; [lia|]. exists r'.
    replace (j - k) with (S (j - S k)) by lia.
    repeat split; [assumption | assumption |].
    cbn [firstn]. now constructor.
Qed.

(** A file whose first record fits and that has a longer record later:
    [read_csv] raises at the first such record. *)
Lemma over_long_later (A : Type) (width : nat) (first : csv_record)
    (rest : csv_file) :
  List.length first <= width -> too_long width rest = true ->
  too_long width (first :: rest) = true
  /\ exists k r,
       over_long (A := A) width (first :: rest) = Raises (ParserError k)
       /\ 2 <= k
       /\ nth_error (first :: rest) (k - 1) = Some r
       /\ width < List.length r
       /\ Forall (fun r' => List.length r' <= width)
                 (firstn (k - 1) (first :: rest)).
Proof.
  intros Hfirst Hlong. unfold too_long in *. cbn [existsb].
  rewrite Hlong, orb_true_r. split; [reflexivity|].
  unfold over_long.
  destruct (Nat.ltb_spec width (List.length first)) as [Hlt|_]; [lia|].
  destruct (first_over_long width 2 rest) as [k|] eqn:E.
  - apply first_over_long_spec in E as (Hk & r & Hr & Hlt & Hall).
    exists k, r. split; [reflexivity|]. split; [assumption|].
    replace (k - 1) with (S (k - 2)) by lia.
    repeat split; [assumption | assumption |].
    cbn [firstn]. now constructor.
  - apply first_over_long_none in E. congruence.
Qed.

Lemma features_rejected_columns (rows : csv_file) (na : list string)
    (names : list string) :
  forall first,
    existsb (fun p => column_rejected (snd p))
            (feature_columns rows na first names)
    = features_rejected rows na first (List.length names).
Proof.
  unfold feature_columns, features_rejected.
  induction names as [|n names IH]; intros first; [reflexivity|].
  cbn [List.length seq combine map existsb snd fst]. now rewrite IH.
Qed.

Lemma diagnosis_frame_columns (rows : csv_file) (na : list string) :
  map (fun p => parse_column rows na ["diagnosis"] (fst p) (snd p))
      (filter (fun p => negb (fst p =? 0))
              (combine (seq 0 32) (["ID"; "diagnosis"] ++ image_features tt)))
  = ("diagnosis", CategoryCol (factorize (column_cells rows na 1)))
      :: feature_columns rows na 2 (image_features tt).
Proof. reflexivity. Qed.

Lemma diagnosis_drop (G : Type) (w : world G) (idx : Index) (c : column)
    (rows : csv_file) (na : list string) :
  drop {| df_index := idx;
          df_columns := ("diagnosis", c)
                          :: feature_columns rows na 2 (image_features tt) |}
       ["diagnosis"] w
  = (Returns {| df_index := idx;
                df_columns := feature_columns rows na 2 (image_features tt) |}, w).
Proof. reflexivity. Qed.

(** The steps of the diagnosis loader after [read_csv] has parsed. *)
Lemma diagnosis_steps (G : Type) (w : world G) (rows : csv_file) :
  (let data :=
     {| df_index := read_index rows (default_na_values ++ []) 0;
        df_columns :=
          map (fun p => parse_column rows (default_na_values ++ [])
                          ["diagnosis"] (fst p) (snd p))
              (filter (fun p => negb (fst p =? 0))
                 (combine (seq 0 32)
                    (["ID"; "diagnosis"] ++ image_features tt))) |} in
   (diagnosis <- getattr data "diagnosis" ;;
    y <- cat_rename_categories diagnosis ["benign"; "malignant"] ;;
    dropped <- drop data ["diagnosis"] ;;
    X <- astype_float dropped ;;
    ret (X, y)) w)
  = (let index := read_index rows na_diagnosis 0 in
     let labels := parsed_labels rows na_diagnosis in
     if 2 =? List.length (categories labels) then
       match mapM_option astype_float_named
               (feature_columns rows na_diagnosis 2 (image_features tt)) with
       | Some cols =>
           Returns ({| df_index := index; df_columns := cols |},
                    {| s_index := index; s_name := "diagnosis";
                       s_values :=
                         CategoryCol {| categories := ["benign"; "malignant"];
                                        codes := codes labels |} |})
       | None => not_converted (features_rejected rows na_diagnosis 2 30)
       end
     else Raises (ValueError categories_length_mismatch), w).
Proof.
  cbv zeta. unfold bind, parsed_labels, na_diagnosis.
  rewrite diagnosis_frame_columns.
  unfold getattr.
  cbn [df_columns df_index lookup_column String.eqb Ascii.eqb Bool.eqb].
  unfold ret at 1. cbv beta iota.
  unfold cat_rename_categories.
  cbn [s_values s_index s_name List.length].
  destruct (2 =? _); [|reflexivity].
  unfold ret at 1. cbv beta iota.
  rewrite diagnosis_drop.
  unfold astype_float. cbn [df_columns df_index].
  rewrite features_rejected_columns.
  change (List.length (image_features tt)) with 30.
  destruct (mapM_option _ _); [reflexivity|].
  unfold not_converted. now destruct (features_rejected _ _ _ _).
Qed.

Lemma diagnosis_run (G : Type) (w : world G) (path : string) :
  load_wisconsin_breast_cancer_diagnosis path w
  = (on_file path (fs w path) diagnosis_result, w).
Proof.
  unfold load_wisconsin_breast_cancer_diagnosis, read_csv, bind at 1 2,
    read_file, on_file.
  destruct (fs w path) as [rows|]; [|reflexivity].
  change (List.length (["ID"; "diagnosis"] ++ image_features tt)) with 32.
  cbv zeta. unfold diagnosis_result.
  rewrite <- width_test.
  destruct (match rows with
            | first :: _ => 32 <? List.length first
            | [] => false
            end); [reflexivity|].
  destruct (first_over_long 32 2 (tl rows)); [reflexivity|].
  unfold ret at 1. apply diagnosis_steps.
Qed.

Lemma prognosis_frame_columns (rows : csv_file) (na : list string) :
  map (fun p => parse_column rows na ["outcome"] (fst p) (snd p))
      (filter (fun p => negb (fst p =? 0))
              (combine (seq 0 35)
                 ((["ID"; "outcome"; "time"] ++ image_features tt)
                    ++ ["tumor_size"; "lymph_node_status"])))
  = ("outcome", CategoryCol (factorize (column_cells rows na 1)))
      :: ("time", infer_column (column_cells rows na 2))
      :: feature_columns rows na 3
           (image_features tt ++ ["tumor_size"; "lymph_node_status"]).
Proof. reflexivity. Qed.

Lemma prognosis_loc (G : Type) (w : world G) (idx : Index) (c t : column)
    (rows : csv_file) (na : list string) :
  loc_columns {| df_index := idx;
                 df_columns :=
                   ("outcome", c) :: ("time", t)
                     :: feature_columns rows na 3
                          (image_features tt
                             ++ ["tumor_size"; "lymph_node_status"]) |}
              ["outcome"; "time"] w
  = (Returns {| df_index := idx;
                df_columns := [("outcome", c); ("time", t)] |}, w).
Proof. reflexivity. Qed.

Lemma prognosis_drop (G : Type) (w : world G) (idx : Index) (c t : column)
    (rows : csv_file) (na : list string) :
  drop {| df_index := idx;
          df_columns :=
            ("outcome", c) :: ("time", t)
              :: feature_columns rows na 3
                   (image_features tt ++ ["tumor_size"; "lymph_node_status"]) |}
       ["outcome"; "time"] w
  = (Returns {| df_index := idx;
                df_columns :=
                  feature_columns rows na 3
                    (image_features tt
                       ++ ["tumor_size"; "lymph_node_status"]) |}, w).
Proof. reflexivity. Qed.

(** The steps of the prognosis loader after [read_csv] has parsed. *)
Lemma prognosis_steps (G : Type) (w : world G) (rows : csv_file) :
  (let data :=
     {| df_index := read_index rows (default_na_values ++ ["?"]) 0;
        df_columns :=
          map (fun p => parse_column rows (default_na_values ++ ["?"])
                          ["outcome"] (fst p) (snd p))
              (filter (fun p => negb (fst p =? 0))
                 (combine (seq 0 35)
                    ((["ID"; "outcome"; "time"] ++ image_features tt)
                       ++ ["tumor_size"; "lymph_node_status"]))) |} in
   (y <- loc_columns data (skipn 1 ["ID"; "outcome"; "time"]) ;;
    y <- cat_rename_categories_inplace y "outcome"
           ["nonrecurring"; "recurring"] ;;
    dropped <- drop data (skipn 1 ["ID"; "outcome"; "time"]) ;;
    X <- astype_float dropped ;;
    ret (X, y)) w)
  = (let index := read_index rows na_prognosis 0 in
     let labels := parsed_labels rows na_prognosis in
     if 2 =? List.length (categories labels) then
       match mapM_option astype_float_named
               (feature_columns rows na_prognosis 3 prognosis_features) with
       | Some cols =>
           Returns ({| df_index := index; df_columns := cols |},
                    {| df_index := index;
                       df_columns :=
                         [("outcome",
                           CategoryCol
                             {| categories := ["nonrecurring"; "recurring"];
                                codes := codes labels |});
                          ("time",
                           infer_column (column_cells rows na_prognosis 2))] |})
       | None => not_converted (features_rejected rows na_prognosis 3 32)
       end
     else Raises (ValueError categories_length_mismatch), w).
Proof.
  cbv zeta. unfold bind at 1, parsed_labels, na_prognosis, prognosis_features.
  rewrite prognosis_frame_columns.
  change (skipn 1 ["ID"; "outcome"; "time"]) with ["outcome"; "time"].
  rewrite prognosis_loc.
  unfold cat_rename_categories_inplace, bind, getattr.
  cbn [df_columns df_index lookup_column String.eqb Ascii.eqb Bool.eqb].
  unfold ret at 1. cbv beta iota.
  unfold cat_rename_categories.
  cbn [s_values s_index s_name List.length].
  destruct (2 =? _); [|reflexivity].
  unfold ret at 1. cbv beta iota.
  unfold ret at 1. cbv beta iota.
  rewrite prognosis_drop.
  unfold astype_float. cbn [df_columns df_index].
  rewrite features_rejected_columns.
  change (List.length (image_features tt
                         ++ ["tumor_size"; "lymph_node_status"])) with 32.
  destruct (mapM_option _ _); [reflexivity|].
  unfold not_converted. now destruct (features_rejected _ _ _ _).
Qed.

Lemma prognosis_run (G : Type) (w : world G) (path : string) :
  load_wisconsin_breast_cancer_prognosis path w
  = (on_file path (fs w path) prognosis_result, w).
Proof.
  unfold load_wisconsin_breast_cancer_prognosis, read_csv, bind at 1 2,
    read_file, on_file.
  destruct (fs w path) as [rows|]; [|reflexivity].
  change (List.length ((["ID"; "outcome"; "time"] ++ image_features tt)
                         ++ ["tumor_size"; "lymph_node_status"])) with 35.
  cbv zeta. unfold prognosis_result.
  rewrite <- width_test.
  destruct (match rows with
            | first :: _ => 35 <? List.length first
            | [] => false
            end); [reflexivity|].
  destruct (first_over_long 35 2 (tl rows)); [reflexivity|].
  unfold ret at 1. apply prognosis_steps.
Qed.

(* ================================================================== *)
(** * 13. Lists and monadic maps *)
(* ================================================================== *)

Unset Implicit Arguments.

Section MapM.

Context {A B : Type}.
Variable f : A -> option B.

Lemma mapM_option_cons_some (a : A) (l : list A) (b : B) (bs : list B) :
  f a = Some b -> mapM_option f l = Some bs ->
  mapM_option f (a :: l) = Some (b :: bs).
Proof. intros Ha Hl. simpl. now rewrite Ha, Hl. Qed.

Lemma mapM_option_inv (a : A) (l : list A) (r : list B) :
  mapM_option f (a :: l) = Some r ->
  exists b bs, f a = Some b /\ mapM_option f l = Some bs /\ r = b :: bs.
Proof.
  simpl. destruct (f a) as [b|]; [|discriminate].
  destruct (mapM_option f l) as [bs|]; [|discriminate].
  intros [= <-]. now exists b, bs.
Qed.

Lemma mapM_option_length (l : list A) :
  forall r, mapM_option f l = Some r -> List.length r = List.length l.
Proof.
  induction l as [|a l IH]; intros r H.
  - injection H as <-. reflexivity.
  - apply mapM_option_inv in H as (b & bs & _ & Hl & ->).
    simpl. f_equal. now apply IH.
Qed.

Lemma mapM_option_nth_error (l : list A) :
  forall r i, mapM_option f l = Some r ->
    nth_error r i = match nth_error l i with
                    | Some a => f a
                    | None => None
                    end.
Proof.
  induction l as [|a l IH]; intros r i H.
  - injection H as <-. now destruct i.
  - apply mapM_option_inv in H as (b & bs & Ha & Hl & ->).
    destruct i as [|i]; simpl; [now rewrite Ha | now apply IH].
Qed.

Lemma mapM_option_total (l : list A) :
  (forall a, In a l -> f a <> None) -> exists r, mapM_option f l = Some r.
Proof.
  induction l as [|a l IH]; intros H.
  - now exists [].
  - destruct (f a) as [b|] eqn:Ha.
    + destruct IH as [bs Hbs]; [intros; apply H; now right|].
      exists (b :: bs). now apply mapM_option_cons_some.
    + exfalso. apply (H a); [now left | assumption].
Qed.

Lemma mapM_option_fails (l : list A) (a : A) :
  In a l -> f a = None -> mapM_option f l = None.
Proof.
  induction l as [|a' l IH]; intros Hin Ha; [contradiction|].
  simpl. destruct Hin as [-> | Hin].
  - now rewrite Ha.
  - destruct (f a'); [|reflexivity]. now rewrite (IH Hin Ha).
Qed.

Lemma mapM_option_some_all (l : list A) (r : list B) (a : A) :
  mapM_option f l = Some r -> In a l -> f a <> None.
Proof.
  intros H Hin Ha. now rewrite (mapM_option_fails l a Hin Ha) in H.
Qed.

Lemma mapM_option_pick (l : list A) (r : list B) (d : A) (d' : B)
    (p : list nat) :
  mapM_option f l = Some r ->
  Forall (fun i => i < List.length l) p ->
  mapM_option f (pick d l p) = Some (pick d' r p).
Proof.
  intros H Hp. induction Hp as [|i p Hi _ IH]; [reflexivity|].
  unfold pick in *. simpl. apply mapM_option_cons_some; [|exact IH].
  pose proof (mapM_option_nth_error l r i H) as Hn.
  pose proof (mapM_option_length l r H) as Hlen.
  rewrite (nth_error_nth' l d Hi) in Hn.
  rewrite (nth_error_nth' r d') in Hn by lia.
  symmetry. exact Hn.
Qed.

End MapM.

Lemma mapM_option_map {A B C : Type} (g : A -> B) (f : B -> option C)
    (l : list A) :
  mapM_option f (map g l) = mapM_option (fun a => f (g a)) l.
Proof.
  induction l as [|a l IH]; [reflexivity|]. simpl. now rewrite IH.
Qed.

Lemma mapM_option_ext {A B : Type} (f g : A -> option B) (l : list A) :
  (forall a, In a l -> f a = g a) -> mapM_option f l = mapM_option g l.
Proof.
  induction l as [|a l IH]; intros H; [reflexivity|].
  simpl. rewrite (H a) by now left.
  rewrite IH; [reflexivity|]. intros; apply H; now right.
Qed.

Lemma map_nth_seq {A : Type} (d : A) (l : list A) :
  map (fun i => nth i l d) (seq 0 (List.length l)) = l.
Proof.
  apply nth_ext with (d := d) (d' := d).
  - now rewrite length_map, length_seq.
  - intros n Hn. rewrite length_map, length_seq in Hn.
    rewrite (nth_indep _ d (nth 0 l d)) by now rewrite length_map, length_seq.
    rewrite (map_nth (fun i => nth i l d) (seq 0 (List.length l)) 0 n).
    now rewrite seq_nth.
Qed.

Lemma map_fst_combine {A B : Type} (l : list A) :
  forall l' : list B, List.length l' = List.length l ->
    map fst (combine l l') = l.
Proof.
  induction l as [|a l IH]; intros [|b l'] H; try discriminate; [reflexivity|].
  simpl. f_equal. apply IH. now injection H.
Qed.

Lemma lookup_column_combine (names : list string) (cols : list column) :
  NoDup names -> List.length cols = List.length names ->
  forall k name, nth_error names k = Some name ->
    lookup_column name (combine names cols) = nth_error cols k.
Proof.
  intros Hnd. revert cols.
  induction Hnd as [|n names Hn Hnd IH]; intros cols Hlen k name Hk.
  - now destruct k.
  - destruct cols as [|c cols]; [discriminate|]. simpl.
    destruct k as [|k]; simpl in Hk.
    + injection Hk as ->. now rewrite String.eqb_refl.
    + destruct (String.eqb_spec name n) as [->|_].
      * exfalso. apply Hn. eapply nth_error_In; eassumption.
      * simpl. apply IH; [now injection Hlen | assumption].
Qed.

(* ================================================================== *)
(** * 14. Missing-value tokens, floats, categories *)
(* ================================================================== *)

Lemma is_na_true (na : list string) (t : string) :
  is_na na t = true <-> In t na.
Proof.
  unfold is_na. rewrite existsb_exists. split.
  - intros (x & Hx & He). apply String.eqb_eq in He. now subst.
  - intros H. exists t. split; [assumption | apply String.eqb_refl].
Qed.

(** No missing-value token of either loader is a decimal literal or a
    boolean literal. *)
Lemma na_token_not_numeric (t : string) :
  In t (default_na_values ++ ["?"]) ->
  numeric_token t = false /\ boolean_literal t = false.
Proof.
  intros H. simpl in H.
  repeat (destruct H as [<- | H]; [split; reflexivity|]).
  contradiction.
Qed.

Lemma numeric_token_present (extra : list string) (t : string) :
  incl extra ["?"] -> numeric_token t = true ->
  na_filter (default_na_values ++ extra) t = Some t.
Proof.
  intros Hex Hn. unfold na_filter.
  destruct (is_na (default_na_values ++ extra) t) eqn:E; [|reflexivity].
  apply is_na_true in E.
  assert (In t (default_na_values ++ ["?"])) as Hin.
  { apply in_app_or in E as [E|E]; apply in_or_app; [now left | right; now apply Hex]. }
  apply na_token_not_numeric in Hin as [Hin _]. congruence.
Qed.

(** ** The converters *)

Lemma read_digits_all (s : string) :
  forall acc cnt,
    all_digits s = true ->
    read_digits s acc cnt
    = (digits_value s acc, cnt + String.length s, EmptyString).
Proof.
  induction s as [|c s IH]; intros acc cnt H.
  - cbn [read_digits digits_value String.length]. now rewrite Nat.add_0_r.
  - cbn [all_digits] in H. cbn [read_digits digits_value String.length].
    destruct (digit_of_ascii c) as [d|]; [|discriminate].
    rewrite (IH _ _ H). f_equal. f_equal. lia.
Qed.

Lemma digit_is_no_letter (c : ascii) (d : N) :
  digit_of_ascii c = Some d ->
  Ascii.eqb (lower_ascii c) "i" = false
  /\ Ascii.eqb (lower_ascii c) "n" = false.
Proof.
  destruct c as [[] [] [] [] [] [] [] []]; try discriminate; now split.
Qed.

Lemma digits_are_no_name (s : string) :
  s <> EmptyString -> all_digits s = true ->
  (String.eqb (lower s) "inf" || String.eqb (lower s) "infinity") = false
  /\ String.eqb (lower s) "nan" = false.
Proof.
  destruct s as [|c s]; [congruence|]. intros _ Hd.
  cbn [all_digits] in Hd.
  destruct (digit_of_ascii c) as [d|] eqn:Hc; [|discriminate].
  destruct (digit_is_no_letter c d Hc) as [Hi Hn].
  cbn [lower String.eqb]. now rewrite Hi, Hn.
Qed.

Lemma decimal_parts_digits (s : string) :
  s <> EmptyString -> all_digits s = true ->
  decimal_parts s = Some (digits_value s 0, 0%Z).
Proof.
  intros Hs Hd. unfold decimal_parts.
  rewrite (read_digits_all s 0%N 0 Hd).
  destruct s as [|c s]; [congruence|]. reflexivity.
Qed.

Lemma float_of_signed (neg : bool) (m : N) :
  round_decimal neg m 0
  = float_of_Z (if neg then (- Z.of_N m)%Z else Z.of_N m).
Proof.
  unfold float_of_Z, round_decimal. destruct neg, m as [|k]; reflexivity.
Qed.

(** A string the integer converter takes denotes, for [float()], the
    float of the integer. *)
Lemma int_token_float (t : string) (z : Z) :
  int_of_token t = Some z -> float_of_string t = Some (float_of_Z z).
Proof.
  unfold int_of_token, float_of_string.
  destruct (read_sign (strip t)) as [neg s].
  destruct (string_dec s EmptyString) as [->|Hs]; [discriminate|].
  destruct (all_digits s) eqn:Hd; [|now destruct s].
  destruct (digits_are_no_name s Hs Hd) as [H1 H2].
  rewrite H1, H2. unfold decimal_of_string.
  rewrite (decimal_parts_digits s Hs Hd), float_of_signed.
  destruct s; [congruence|]. now intros [= <-].
Qed.

Lemma pandas_float_token (t : string) (x : float64) :
  pandas_float_of_token t = Some x -> float_of_string t = Some x.
Proof.
  unfold pandas_float_of_token.
  destruct (float_of_string t) as [[q|neg|]|]; try discriminate.
  - destruct (has_underscore t); [discriminate | now intros [= <-]].
  - destruct (inf_word t); [now intros [= <-] | discriminate].
Qed.

(** A character that is a letter once lowered is that letter or its
    capital. *)
Lemma lower_ascii_inv (c : ascii) :
  ((97 <=? N_of_ascii (lower_ascii c)) && (N_of_ascii (lower_ascii c) <=? 122))%N
  = true ->
  c = lower_ascii c \/ c = ascii_of_N (N_of_ascii (lower_ascii c) - 32).
Proof.
  destruct c as [[] [] [] [] [] [] [] []]; vm_compute; intros H;
    first [discriminate H | now left | now right].
Qed.

Ltac letter_case c H :=
  let Hc := fresh "Hc" in
  pose proof (lower_ascii_inv c) as Hc; rewrite H in Hc;
  specialize (Hc eq_refl); destruct Hc as [-> | ->]; clear H.

Lemma boolean_literal_no_number (t : string) :
  boolean_literal t = true -> float_of_string t = None.
Proof.
  unfold boolean_literal, true_literal, false_literal. intros E.
  apply orb_true_iff in E as [E|E]; apply String.eqb_eq in E.
  - destruct t as [|c1 [|c2 [|c3 [|c4 [|c5 t]]]]]; try discriminate E.
    cbn [lower] in E. injection E as H1 H2 H3 H4.
    letter_case c1 H1; letter_case c2 H2; letter_case c3 H3;
      letter_case c4 H4; reflexivity.
  - destruct t as [|c1 [|c2 [|c3 [|c4 [|c5 [|c6 t]]]]]]; try discriminate E.
    cbn [lower] in E. injection E as H1 H2 H3 H4 H5.
    letter_case c1 H1; letter_case c2 H2; letter_case c3 H3;
      letter_case c4 H4; letter_case c5 H5; reflexivity.
Qed.

Lemma numeric_not_boolean (t : string) :
  numeric_token t = true -> boolean_literal t = false.
Proof.
  intros Hn. destruct (boolean_literal t) eqn:E; [|reflexivity].
  apply boolean_literal_no_number in E. unfold numeric_token in Hn.
  now rewrite E in Hn.
Qed.

(** ** The inferred reading *)

Lemma every_present_in (P : string -> bool) (cells : list cell) (t : string) :
  every_present P cells = true -> In (Some t) cells -> P t = true.
Proof.
  unfold every_present. rewrite forallb_forall. intros H Hin.
  exact (H (Some t) Hin).
Qed.

Lemma infer_reading_cases (cells : list cell) :
  match infer_reading cells with
  | AsInt => every_present is_int64_token cells = true
             /\ existsb is_missing cells = false
  | AsUpcastInt => every_present is_int64_token cells = true
                   /\ existsb is_missing cells = true
  | AsFloat => every_present is_pandas_float cells = true
  | AsInexactFloat => every_present is_pandas_float cells = true
                      /\ every_present exact_float_token cells = false
  | AsBool => every_present boolean_literal cells = true
  | AsString => True
  | NotModelled => some_present is_big_int_token cells = true
  end.
Proof.
  unfold infer_reading. destruct cells as [|c cells]; [exact I|].
  destruct (some_present is_big_int_token (c :: cells)) eqn:E0;
    [reflexivity|].
  destruct (every_present is_int64_token (c :: cells)) eqn:E1.
  - destruct (existsb is_missing (c :: cells)) eqn:E2; now split.
  - destruct (every_present is_pandas_float (c :: cells)) eqn:E3.
    + destruct (every_present exact_float_token (c :: cells)) eqn:E5;
        [reflexivity | now split].
    + destruct (every_present boolean_literal (c :: cells)) eqn:E4;
        [reflexivity | exact I].
Qed.

(** What a present cell converts to under the reading of its column: the
    float its token denotes, if it denotes one; the exceptions are the
    smallest 64-bit integers in a column of integers with a missing cell,
    and the columns whose values are not modelled. *)
Lemma read_float_value (cells : list cell) (t : string) (v : float64) :
  In (Some t) cells -> float_of_string t = Some v ->
  read_float (infer_reading cells) (Some t) = Some v
  \/ (near_int64_min t = true /\ existsb is_missing cells = true)
  \/ infer_reading cells = AsInexactFloat
  \/ infer_reading cells = NotModelled.
Proof.
  intros Hin Hv. pose proof (infer_reading_cases cells) as Hr.
  destruct (infer_reading cells); cbn [read_float float_of_cell].
  - destruct Hr as [Hr _].
    pose proof (every_present_in _ _ _ Hr Hin) as Ht.
    unfold is_int64_token in Ht.
    destruct (int_of_token t) as [z|] eqn:Hz; [|discriminate].
    left. cbn [option_map].
    rewrite (int_token_float t z Hz) in Hv. exact Hv.
  - destruct Hr as [Hr Hm].
    pose proof (every_present_in _ _ _ Hr Hin) as Ht.
    unfold is_int64_token in Ht. unfold near_int64_min.
    destruct (int_of_token t) as [z|] eqn:Hz; [|discriminate].
    rewrite (int_token_float t z Hz) in Hv. unfold upcast_int.
    destruct (Z.eqb_spec z int64_min) as [->|_]; [right; left; now split|].
    destruct (z <=? int64_min + 512)%Z;
      [right; left; now split | left; exact Hv].
  - pose proof (every_present_in _ _ _ Hr Hin) as Ht.
    unfold is_pandas_float in Ht.
    destruct (pandas_float_of_token t) as [x|] eqn:Hx; [|discriminate].
    left. rewrite (pandas_float_token t x Hx) in Hv. exact Hv.
  - right; right; now left.
  - pose proof (every_present_in _ _ _ Hr Hin) as Ht.
    apply boolean_literal_no_number in Ht. congruence.
  - now left.
  - right; right; now right.
Qed.

(** A token that denotes no float and is no boolean literal converts
    under no reading. *)
Lemma read_float_rejects (r : reading) (t : string) :
  float_of_string t = None -> boolean_literal t = false ->
  read_float r (Some t) = None.
Proof.
  intros Hv Hb. destruct r; cbn [read_float float_of_cell float_of_bool_cell].
  - destruct (int_of_token t) as [z|] eqn:Hz; [|reflexivity].
    apply int_token_float in Hz. congruence.
  - destruct (int_of_token t) as [z|] eqn:Hz; [|reflexivity].
    apply int_token_float in Hz. congruence.
  - destruct (pandas_float_of_token t) as [x|] eqn:Hx; [|reflexivity].
    apply pandas_float_token in Hx. congruence.
  - reflexivity.
  - unfold boolean_literal in Hb. apply orb_false_iff in Hb as [H1 H2].
    now rewrite H1, H2.
  - exact Hv.
  - reflexivity.
Qed.

Lemma read_float_missing (r : reading) : read_float r None = Some NaN.
Proof. now destruct r. Qed.

(** ** Floats of a column *)

Lemma float_of_cell_numeric (t : string) :
  numeric_token t = true ->
  exists q, float_of_cell (Some t) = Some (Finite q).
Proof.
  unfold numeric_token. cbn [float_of_cell].
  destruct (float_of_string t) as [[q| |]|]; try discriminate.
  intros _. now exists q.
Qed.

(** An integer written as a short decimal is below [2^53] in absolute
    value. *)
Lemma short_integer (t : string) (z : Z) :
  short_decimal t = true -> int_of_token t = Some z ->
  (- 9007199254740992 < z < 9007199254740992)%Z.
Proof.
  unfold short_decimal, int_of_token. intros Hs Hz.
  destruct (read_sign (strip t)) as [neg s].
  destruct (string_dec s EmptyString) as [->|Hne]; [discriminate|].
  destruct (all_digits s) eqn:Hd; [|now destruct s].
  rewrite (decimal_parts_digits s Hne Hd) in Hs.
  remember (digits_value s 0) as m eqn:Em.
  apply andb_true_iff in Hs as [Hs _]. apply andb_true_iff in Hs as [Hs _].
  apply andb_true_iff in Hs as [_ Hs]. apply N.ltb_lt in Hs.
  change (2 ^ 53)%N with 9007199254740992%N in Hs.
  clear Em Hd. destruct s; [congruence|]. cbv zeta iota in Hz.
  destruct neg; injection Hz as <-; lia.
Qed.

Lemma short_not_near_min (t : string) :
  short_decimal t = true -> near_int64_min t = false.
Proof.
  intros Hs. unfold near_int64_min.
  destruct (int_of_token t) as [z|] eqn:Hz; [|reflexivity].
  pose proof (short_integer t z Hs Hz) as Hz'.
  change int64_min with (-9223372036854775808)%Z.
  apply Z.leb_gt. lia.
Qed.

Lemma short_not_big (t : string) :
  short_decimal t = true -> is_big_int_token t = false.
Proof.
  intros Hs. unfold is_big_int_token.
  destruct (int_of_token t) as [z|] eqn:Hz; [|reflexivity].
  pose proof (short_integer t z Hs Hz) as Hz'.
  unfold in_int64.
  change int64_min with (-9223372036854775808)%Z.
  change int64_max with 9223372036854775807%Z.
  apply negb_false_iff, andb_true_iff. split; apply Z.leb_le; lia.
Qed.

Lemma numeric_token_short (t : string) :
  numeric_token t = true -> short_decimal t = true.
Proof.
  unfold numeric_token.
  now destruct (float_of_string t) as [[q| |]|].
Qed.

Lemma floats_of_cells_read (cells : list cell) :
  floats_of_cells cells = mapM_option (read_float (infer_reading cells)) cells.
Proof. reflexivity. Qed.

Lemma floats_of_cells_length (cells : list cell) (xs : list float64) :
  floats_of_cells cells = Some xs -> List.length xs = List.length cells.
Proof. rewrite floats_of_cells_read. apply mapM_option_length. Qed.

(** A missing cell becomes [NaN]. *)
Lemma floats_of_cells_missing (cells : list cell) (xs : list float64) (i : nat) :
  floats_of_cells cells = Some xs -> nth_error cells i = Some None ->
  nth_error xs i = Some NaN.
Proof.
  rewrite floats_of_cells_read. intros H Hi.
  rewrite (mapM_option_nth_error _ _ _ i H), Hi. apply read_float_missing.
Qed.

(** A present cell that denotes a float becomes that float, unless it is
    one of the smallest 64-bit integers in a column with a missing
    cell. *)
Lemma floats_of_cells_value (cells : list cell) (xs : list float64)
    (i : nat) (t : string) (v : float64) :
  floats_of_cells cells = Some xs -> nth_error cells i = Some (Some t) ->
  float_of_string t = Some v ->
  near_int64_min t = false \/ existsb is_missing cells = false ->
  nth_error xs i = Some v.
Proof.
  rewrite floats_of_cells_read. intros H Hi Hv Hq.
  rewrite (mapM_option_nth_error _ _ _ i H), Hi.
  destruct (read_float_value cells t v (nth_error_In _ _ Hi) Hv)
    as [E | [(Hz & Hm) | [E | E]]]; [exact E | | |].
  - destruct Hq as [Hq | Hq]; congruence.
  - rewrite E in H.
    now elim (mapM_option_some_all _ _ _ (Some t) H (nth_error_In _ _ Hi)).
  - rewrite E in H.
    now elim (mapM_option_some_all _ _ _ (Some t) H (nth_error_In _ _ Hi)).
Qed.

(** A present cell that denotes a finite number becomes a finite
    number. *)
Lemma floats_of_cells_numeric (cells : list cell) (xs : list float64)
    (i : nat) (t : string) :
  floats_of_cells cells = Some xs -> nth_error cells i = Some (Some t) ->
  numeric_token t = true ->
  exists q, nth_error xs i = Some (Finite q).
Proof.
  intros H Hi Hn. destruct (float_of_cell_numeric t Hn) as [q Hv].
  exists q. apply (floats_of_cells_value cells xs i t _ H Hi Hv).
  left. apply short_not_near_min, numeric_token_short, Hn.
Qed.

(** A present cell that denotes no float and is no boolean literal makes
    the conversion of its column fail. *)
Lemma floats_of_cells_rejects (cells : list cell) (t : string) :
  In (Some t) cells -> float_of_string t = None -> boolean_literal t = false ->
  floats_of_cells cells = None.
Proof.
  intros Hin Hn Hb. rewrite floats_of_cells_read.
  apply (mapM_option_fails _ cells (Some t) Hin).
  now apply read_float_rejects.
Qed.

Lemma some_present_in (P : string -> bool) (cells : list cell) (t : string) :
  In (Some t) cells -> P t = true -> some_present P cells = true.
Proof.
  intros Hin Ht. apply existsb_exists. exists (Some t). now split.
Qed.

(** A column with such a cell is read as a column of strings, and the
    conversion is sure to fail on it when the cell is ASCII. *)
Lemma column_rejected_token (cells : list cell) (t : string) :
  In (Some t) cells -> ascii_token t = true ->
  float_of_string t = None -> boolean_literal t = false ->
  column_rejected (infer_column cells) = true.
Proof.
  intros Hin Ha Hn Hb.
  assert (some_present rejected_token cells = true) as Hrej.
  { apply (some_present_in _ _ t Hin). unfold rejected_token.
    now rewrite Ha, Hn. }
  unfold infer_column. pose proof (infer_reading_cases cells) as Hr.
  destruct (infer_reading cells); cbn [column_rejected]; try exact Hrej;
    exfalso.
  - destruct Hr as [Hr _]. pose proof (every_present_in _ _ _ Hr Hin) as Ht.
    unfold is_int64_token in Ht.
    destruct (int_of_token t) as [z|] eqn:Hz; [|discriminate].
    apply int_token_float in Hz. congruence.
  - destruct Hr as [Hr _]. pose proof (every_present_in _ _ _ Hr Hin) as Ht.
    unfold is_int64_token in Ht.
    destruct (int_of_token t) as [z|] eqn:Hz; [|discriminate].
    apply int_token_float in Hz. congruence.
  - pose proof (every_present_in _ _ _ Hr Hin) as Ht.
    unfold is_pandas_float in Ht.
    destruct (pandas_float_of_token t) as [x|] eqn:Hx; [|discriminate].
    apply pandas_float_token in Hx. congruence.
  - destruct Hr as [Hr _]. pose proof (every_present_in _ _ _ Hr Hin) as Ht.
    unfold is_pandas_float in Ht.
    destruct (pandas_float_of_token t) as [x|] eqn:Hx; [|discriminate].
    apply pandas_float_token in Hx. congruence.
  - pose proof (every_present_in _ _ _ Hr Hin) as Ht. congruence.
Qed.

Lemma every_present_all (P : string -> bool) (cells : list cell) :
  (forall t, In (Some t) cells -> P t = true) -> every_present P cells = true.
Proof.
  intros H. apply forallb_forall. intros [t|] Hc; [now apply H | reflexivity].
Qed.

(** A column whose present cells are all short decimals converts. *)
Lemma floats_of_cells_total (cells : list cell) :
  (forall t, In (Some t) cells ->
             float_of_string t <> None /\ short_decimal t = true) ->
  exists xs, floats_of_cells cells = Some xs.
Proof.
  intros H. rewrite floats_of_cells_read. apply mapM_option_total.
  intros [t|] Hc; [|now rewrite read_float_missing].
  destruct (float_of_string t) as [v|] eqn:Hv; [|now elim (proj1 (H t Hc))].
  destruct (read_float_value cells t v Hc Hv)
    as [E | [(Hz & _) | [E | E]]];
    try (rewrite E; discriminate);
    [now rewrite (short_not_near_min t (proj2 (H t Hc))) in Hz | |];
    pose proof (infer_reading_cases cells) as Hr; rewrite E in Hr.
  - destruct Hr as [_ Hr].
    rewrite (every_present_all exact_float_token cells) in Hr; [discriminate|].
    intros t' Ht'. unfold exact_float_token.
    rewrite (proj2 (H t' Ht')). apply orb_true_r.
  - unfold some_present in Hr. apply existsb_exists in Hr as ([t'|] & Ht' & Hb);
      [|discriminate].
    now rewrite (short_not_big t' (proj2 (H t' Ht'))) in Hb.
Qed.

(** A column whose cells are all missing or decimal literals converts. *)
Lemma floats_of_cells_converts (cells : list cell) :
  (forall c, In c cells ->
             c = None \/ exists t, c = Some t /\ numeric_token t = true) ->
  exists xs, floats_of_cells cells = Some xs.
Proof.
  intros H. apply floats_of_cells_total. intros t Ht.
  destruct (H _ Ht) as [E | (t' & [= <-] & Hn)]; [discriminate|].
  destruct (float_of_cell_numeric t Hn) as [q Hq]. cbn in Hq. split.
  - congruence.
  - now apply numeric_token_short.
Qed.

(** ** Sorted categories *)

Lemma compare_refl (s : string) : String.compare s s = Eq.
Proof.
  pose proof (String.compare_antisym s s) as H.
  destruct (String.compare s s); [reflexivity | discriminate | discriminate].
Qed.

Lemma compare_lt_gt (s t : string) :
  String.compare s t = Lt -> String.compare t s = Gt.
Proof. intros H. rewrite String.compare_antisym, H. reflexivity. Qed.

Lemma compare_lt_neq (s t : string) : String.compare s t = Lt -> s <> t.
Proof. intros H ->. rewrite compare_refl in H. discriminate. Qed.

Lemma insert_category_in (x : string) (l : list string) :
  In x (insert_category x l).
Proof.
  induction l as [|y l IH]; simpl; [now left|].
  destruct (String.compare x y) eqn:E.
  - apply String.compare_eq_iff in E. subst. now left.
  - now left.
  - now right.
Qed.

Lemma insert_category_keeps (x y : string) (l : list string) :
  In y l -> In y (insert_category x l).
Proof.
  induction l as [|z l IH]; simpl; [contradiction|].
  intros H. destruct (String.compare x z); simpl; destruct H as [-> | H]; auto.
Qed.

Lemma sorted_categories_in (t : string) (cells : list cell) :
  In (Some t) cells -> In t (sorted_categories cells).
Proof.
  induction cells as [|[u|] cells IH]; simpl; [contradiction| |].
  - intros [[= ->] | H]; [apply insert_category_in|].
    apply insert_category_keeps. now apply IH.
  - intros [H | H]; [discriminate | now apply IH].
Qed.

(** Three distinct present tokens give three categories at least. *)
Lemma sorted_categories_three (a b c : string) (cells : list cell) :
  a <> b -> a <> c -> b <> c ->
  In (Some a) cells -> In (Some b) cells -> In (Some c) cells ->
  3 <= List.length (sorted_categories cells).
Proof.
  intros Hab Hac Hbc Ha Hb Hc.
  change 3 with (List.length [a; b; c]).
  apply NoDup_incl_length.
  - repeat constructor; simpl; intuition congruence.
  - intros x [<- | [<- | [<- | []]]]; now apply sorted_categories_in.
Qed.

(** The categories of a column that holds two codes only. *)
Lemma sorted_categories_two (c1 c2 : string) (cells : list cell) :
  String.compare c1 c2 = Lt ->
  Forall (fun c => c = Some c1 \/ c = Some c2) cells ->
  sorted_categories cells = [] \/ sorted_categories cells = [c1]
  \/ sorted_categories cells = [c2] \/ sorted_categories cells = [c1; c2].
Proof.
  intros Hlt Hall. pose proof (compare_lt_gt _ _ Hlt) as Hgt.
  induction Hall as [|c cells Hc _ IH]; [now left|].
  destruct Hc as [-> | ->]; simpl;
    destruct IH as [-> | [-> | [-> | ->]]]; simpl;
    rewrite ?compare_refl, ?Hlt, ?Hgt, ?compare_refl; auto.
Qed.

Lemma sorted_categories_pair (c1 c2 : string) (cells : list cell) :
  String.compare c1 c2 = Lt ->
  Forall (fun c => c = Some c1 \/ c = Some c2) cells ->
  List.length (sorted_categories cells) = 2 ->
  sorted_categories cells = [c1; c2].
Proof.
  intros Hlt Hall Hlen.
  destruct (sorted_categories_two c1 c2 cells Hlt Hall)
    as [E | [E | [E | E]]]; rewrite E in Hlen |- *;
    (discriminate Hlen || reflexivity).
Qed.

Lemma sorted_categories_both (c1 c2 : string) (cells : list cell) :
  String.compare c1 c2 = Lt ->
  Forall (fun c => c = Some c1 \/ c = Some c2) cells ->
  In (Some c1) cells -> In (Some c2) cells ->
  sorted_categories cells = [c1; c2].
Proof.
  intros Hlt Hall H1 H2. pose proof (compare_lt_neq _ _ Hlt) as Hne.
  apply sorted_categories_in in H1, H2.
  destruct (sorted_categories_two c1 c2 cells Hlt Hall)
    as [E | [E | [E | E]]]; rewrite E in H1, H2 |- *; simpl in H1, H2;
    intuition congruence.
Qed.

(** The values of a categorical renamed by position. *)
Lemma renamed_values (c1 c2 n1 n2 : string) (cells : list cell) :
  c1 <> c2 ->
  Forall (fun c => c = Some c1 \/ c = Some c2) cells ->
  categorical_values
    {| categories := [n1; n2]; codes := map (code_of [c1; c2]) cells |}
  = map (fun c => match c with
                  | Some t => if String.eqb t c1 then Some n1 else Some n2
                  | None => None
                  end) cells.
Proof.
  intros Hne Hall. unfold categorical_values. simpl. rewrite map_map.
  apply map_ext_in. intros c Hc.
  rewrite Forall_forall in Hall. destruct (Hall c Hc) as [-> | ->]; simpl.
  - now rewrite String.eqb_refl.
  - destruct (String.eqb_spec c2 c1) as [E|_]; [congruence|].
    now rewrite String.eqb_refl.
Qed.

(* ================================================================== *)
(** * 15. The shape of the results *)
(* ================================================================== *)

Lemma feature_columns_cons (rows : csv_file) (na : list string) (first : nat)
    (n : string) (names : list string) :
  feature_columns rows na first (n :: names)
  = (n, infer_column (column_cells rows na first))
      :: feature_columns rows na (S first) names.
Proof. reflexivity. Qed.

Lemma astype_features (rows : csv_file) (na : list string) (names : list string) :
  forall first,
    mapM_option astype_float_named (feature_columns rows na first names)
    = option_map (fun xss => combine names (map FloatCol xss))
        (feature_floats rows na first (List.length names)).
Proof.
  induction names as [|n names IH]; intros first; [reflexivity|].
  rewrite feature_columns_cons. unfold feature_floats in *.
  cbn [mapM_option List.length seq]. rewrite IH.
  unfold astype_float_named, astype_float_column. cbn [fst snd].
  change (column_floats (infer_column (column_cells rows na first)))
    with (floats_of_cells (column_cells rows na first)).
  destruct (floats_of_cells (column_cells rows na first)) as [xs|];
    [|reflexivity].
  cbn [option_map].
  destruct (mapM_option _ (seq (S first) (List.length names))); reflexivity.
Qed.

Lemma image_features_length : List.length (image_features tt) = 30.
Proof. reflexivity. Qed.

Lemma prognosis_features_length : List.length prognosis_features = 32.
Proof. reflexivity. Qed.

(** The two results, with the feature table written as a [float_table]. *)
Lemma diagnosis_result_eq (rows : csv_file) :
  diagnosis_result rows
  = if too_long 32 rows then over_long 32 rows
    else if 2 =? List.length (categories (parsed_labels rows na_diagnosis)) then
      match feature_floats rows na_diagnosis 2 30 with
      | Some xss =>
          Returns (float_table (read_index rows na_diagnosis 0)
                               (image_features tt) xss,
                   {| s_index := read_index rows na_diagnosis 0;
                      s_name := "diagnosis";
                      s_values :=
                        CategoryCol
                          {| categories := ["benign"; "malignant"];
                             codes := codes (parsed_labels rows na_diagnosis) |} |})
      | None => not_converted (features_rejected rows na_diagnosis 2 30)
      end
    else Raises (ValueError categories_length_mismatch).
Proof.
  unfold diagnosis_result. rewrite astype_features, image_features_length.
  destruct (too_long 32 rows); [reflexivity|].
  destruct (2 =? _); [|reflexivity].
  destruct (feature_floats rows na_diagnosis 2 30); reflexivity.
Qed.

Lemma prognosis_result_eq (rows : csv_file) :
  prognosis_result rows
  = if too_long 35 rows then over_long 35 rows
    else if 2 =? List.length (categories (parsed_labels rows na_prognosis)) then
      match feature_floats rows na_prognosis 3 32 with
      | Some xss =>
          Returns (float_table (read_index rows na_prognosis 0)
                               prognosis_features xss,
                   {| df_index := read_index rows na_prognosis 0;
                      df_columns :=
                        [("outcome",
                          CategoryCol
                            {| categories := ["nonrecurring"; "recurring"];
                               codes := codes (parsed_labels rows na_prognosis) |});
                         ("time", infer_column (column_cells rows na_prognosis 2))] |})
      | None => not_converted (features_rejected rows na_prognosis 3 32)
      end
    else Raises (ValueError categories_length_mismatch).
Proof.
  unfold prognosis_result. rewrite astype_features, prognosis_features_length.
  destruct (too_long 35 rows); [reflexivity|].
  destruct (2 =? _); [|reflexivity].
  destruct (feature_floats rows na_prognosis 3 32); reflexivity.
Qed.

(** ** The columns of a converted feature table *)

Lemma column_cells_length (rows : csv_file) (na : list string) (j : nat) :
  List.length (column_cells rows na j) = List.length rows.
Proof. apply length_map. Qed.

Lemma column_cells_nth (rows : csv_file) (na : list string) (j i : nat)
    (r : csv_record) :
  nth_error rows i = Some r ->
  nth_error (column_cells rows na j) i = Some (na_filter na (field j r)).
Proof.
  intros H.
  exact (map_nth_error (fun r => na_filter na (field j r)) i rows H).
Qed.

Lemma feature_floats_length (rows : csv_file) (na : list string) (first n : nat)
    (xss : list (list float64)) :
  feature_floats rows na first n = Some xss -> List.length xss = n.
Proof.
  intros H. apply mapM_option_length in H. now rewrite length_seq in H.
Qed.

Lemma feature_floats_nth (rows : csv_file) (na : list string) (first n : nat)
    (xss : list (list float64)) (k : nat) :
  feature_floats rows na first n = Some xss -> k < n ->
  exists xs, nth_error xss k = Some xs
             /\ floats_of_cells (column_cells rows na (first + k)) = Some xs.
Proof.
  intros H Hk.
  pose proof (mapM_option_nth_error _ _ _ k H) as Hn.
  rewrite (nth_error_nth' (seq first n) 0) in Hn by now rewrite length_seq.
  rewrite seq_nth in Hn by assumption.
  destruct (nth_error xss k) as [xs|] eqn:E; [now exists xs|].
  symmetry in Hn. apply (mapM_option_some_all _ _ _ (first + k) H) in Hn;
    [contradiction|].
  apply in_seq. lia.
Qed.

Lemma feature_floats_rows (rows : csv_file) (na : list string) (first n : nat)
    (xss : list (list float64)) (xs : list float64) :
  feature_floats rows na first n = Some xss -> In xs xss ->
  List.length xs = List.length rows.
Proof.
  intros H Hin. apply In_nth_error in Hin as [k Hk].
  assert (k < n) as Hlt.
  { rewrite <- (feature_floats_length _ _ _ _ _ H).
    apply nth_error_Some. congruence. }
  destruct (feature_floats_nth _ _ _ _ _ k H Hlt) as (xs' & Hx & Hf).
  rewrite Hk in Hx. injection Hx as <-.
  apply floats_of_cells_length in Hf. now rewrite column_cells_length in Hf.
Qed.

Lemma float_table_shape (index : Index) (names : list string)
    (xss : list (list float64)) :
  List.length xss = List.length names ->
  shape (float_table index names xss) = (List.length (ix_cells index), List.length names)
  /\ column_names (float_table index names xss) = names.
Proof.
  intros H. unfold shape, column_names, float_table. simpl.
  rewrite length_combine, length_map, H, Nat.min_id. split; [reflexivity|].
  rewrite map_fst_combine; [reflexivity | now rewrite length_map].
Qed.

Lemma float_table_float_frame (index : Index) (names : list string)
    (xss : list (list float64)) :
  (forall xs, In xs xss -> List.length xs = List.length (ix_cells index)) ->
  float_frame (float_table index names xss) = true.
Proof.
  intros H. unfold float_frame, float_table. simpl.
  apply forallb_forall. intros [n col] Hin.
  apply in_combine_r in Hin. apply in_map_iff in Hin as (xs & <- & Hxs).
  simpl. apply Nat.eqb_eq. now apply H.
Qed.

Lemma float_table_numeric_frame (index : Index) (names : list string)
    (xss : list (list float64)) :
  (forall xs, In xs xss ->
     List.length xs = List.length (ix_cells index) /\ forallb is_finite xs = true) ->
  numeric_frame (float_table index names xss) = true.
Proof.
  intros H. unfold numeric_frame, float_table. simpl.
  apply forallb_forall. intros [n col] Hin.
  apply in_combine_r in Hin. apply in_map_iff in Hin as (xs & <- & Hxs).
  simpl. destruct (H xs Hxs) as [Hl Hf].
  apply andb_true_iff. split; [now apply Nat.eqb_eq | assumption].
Qed.

Lemma float_table_cell (index : Index) (names : list string)
    (xss : list (list float64)) (k : nat) (name : string)
    (xs : list float64) (i : nat) :
  NoDup names -> List.length xss = List.length names ->
  nth_error names k = Some name -> nth_error xss k = Some xs ->
  frame_cell (float_table index names xss) name i = nth_error xs i.
Proof.
  intros Hnd Hlen Hname Hxs. unfold frame_cell, float_table. simpl.
  rewrite (lookup_column_combine names (map FloatCol xss) Hnd) with (k := k);
    [|now rewrite length_map | assumption].
  now rewrite nth_error_map, Hxs.
Qed.

Lemma image_features_nodup : NoDup (image_features tt).
Proof.
  rewrite <- (eq_refl : nodup string_dec (image_features tt) = image_features tt).
  apply NoDup_nodup.
Qed.

Lemma prognosis_features_nodup : NoDup prognosis_features.
Proof.
  rewrite <- (eq_refl : nodup string_dec prognosis_features = prognosis_features).
  apply NoDup_nodup.
Qed.

(* ================================================================== *)
(** * 16. The categories of a label column *)
(* ================================================================== *)

Lemma compare_lt_gt_inv (x y : string) :
  String.compare x y = Gt -> String.compare y x = Lt.
Proof. intros H. rewrite String.compare_antisym, H. reflexivity. Qed.

Lemma before_trans (s t u : string) : before s t -> before t u -> before s u.
Proof.
  unfold before. intros H1 H2.
  apply OrderedTypeEx.String_as_OT.cmp_lt.
  apply OrderedTypeEx.String_as_OT.cmp_lt in H1, H2.
  eapply OrderedTypeEx.String_as_OT.lt_trans; eassumption.
Qed.

Lemma before_irrefl (s : string) : ~ before s s.
Proof. unfold before. rewrite compare_refl. discriminate. Qed.

Lemma insert_category_from (x z : string) (l : list string) :
  In z (insert_category x l) -> z = x \/ In z l.
Proof.
  induction l as [|y l IH]; simpl.
  - intros [<- | []]. now left.
  - destruct (String.compare x y); simpl; intros H.
    + now right.
    + destruct H as [<- | H]; [now left | now right].
    + destruct H as [<- | H]; [right; now left|].
      destruct (IH H) as [-> | Hin]; [now left | right; now right].
Qed.

Lemma insert_category_sorted (x : string) (l : list string) :
  StronglySorted before l -> StronglySorted before (insert_category x l).
Proof.
  induction 1 as [|y l Hs IH Hall]; simpl.
  - repeat constructor.
  - destruct (String.compare x y) eqn:E.
    + now constructor.
    + constructor; [now constructor|]. constructor; [exact E|].
      eapply Forall_impl; [|exact Hall]. intros z Hz.
      eapply before_trans; [exact E | exact Hz].
    + constructor; [exact IH|].
      apply Forall_forall. intros z Hz.
      apply insert_category_from in Hz as [-> | Hz].
      * now apply compare_lt_gt_inv.
      * rewrite Forall_forall in Hall. now apply Hall.
Qed.

Lemma sorted_categories_sorted (cells : list cell) :
  StronglySorted before (sorted_categories cells).
Proof.
  induction cells as [|[t|] cells IH]; simpl.
  - constructor.
  - now apply insert_category_sorted.
  - exact IH.
Qed.

Lemma sorted_categories_from (t : string) (cells : list cell) :
  In t (sorted_categories cells) -> In (Some t) cells.
Proof.
  induction cells as [|[u|] cells IH]; simpl; [contradiction| |].
  - intros H. apply insert_category_from in H as [-> | H]; [now left|].
    right. now apply IH.
  - intros H. right. now apply IH.
Qed.

Lemma sorted_categories_iff (t : string) (cells : list cell) :
  In t (sorted_categories cells) <-> In (Some t) cells.
Proof.
  split; [apply sorted_categories_from | apply sorted_categories_in].
Qed.

(** A sorted list without repetition is determined by its elements. *)
Lemma sorted_unique (l : list string) :
  forall l', StronglySorted before l -> StronglySorted before l' ->
             (forall x, In x l <-> In x l') -> l = l'.
Proof.
  induction l as [|a l IH]; intros [|a' l'] Hs Hs' Heq.
  - reflexivity.
  - exfalso. apply (proj2 (Heq a')). now left.
  - exfalso. apply (proj1 (Heq a)). now left.
  - apply StronglySorted_inv in Hs as [Hs Ha].
    apply StronglySorted_inv in Hs' as [Hs' Ha'].
    rewrite Forall_forall in Ha, Ha'.
    assert (a = a') as <-.
    { destruct (proj1 (Heq a) (or_introl eq_refl)) as [E | Hin]; [now symmetry|].
      destruct (proj2 (Heq a') (or_introl eq_refl)) as [E | Hin']; [assumption|].
      exfalso. apply (before_irrefl a).
      eapply before_trans; [apply Ha, Hin' | apply Ha', Hin]. }
    f_equal. apply IH; try assumption.
    intros x. split; intros Hx.
    + destruct (proj1 (Heq x) (or_intror Hx)) as [<- | Hin]; [|assumption].
      exfalso. apply (before_irrefl a). now apply Ha.
    + destruct (proj2 (Heq x) (or_intror Hx)) as [<- | Hin]; [|assumption].
      exfalso. apply (before_irrefl a). now apply Ha'.
Qed.

(** The categories depend on the set of present tokens only. *)
Lemma sorted_categories_same (cells cells' : list cell) :
  (forall t, In (Some t) cells <-> In (Some t) cells') ->
  sorted_categories cells = sorted_categories cells'.
Proof.
  intros H. apply sorted_unique; try apply sorted_categories_sorted.
  intros x. now rewrite !sorted_categories_iff.
Qed.

(** A label column with two categories: the two codes, the first sorting
    before the second, both present, and every present label one of
    them. *)
Lemma two_categories_inv (rows : csv_file) (na : list string) :
  List.length (categories (parsed_labels rows na)) = 2 ->
  exists c1 c2,
    categories (parsed_labels rows na) = [c1; c2]
    /\ before c1 c2
    /\ is_na na c1 = false /\ is_na na c2 = false
    /\ In c1 (map raw_label rows) /\ In c2 (map raw_label rows)
    /\ Forall (fun r => is_na na (raw_label r) = true
                        \/ raw_label r = c1 \/ raw_label r = c2) rows.
Proof.
  unfold parsed_labels, factorize. cbn [categories]. intros Hlen.
  pose proof (sorted_categories_sorted (column_cells rows na 1)) as Hs.
  pose proof (sorted_categories_iff) as Hiff.
  destruct (sorted_categories (column_cells rows na 1)) as [|c1 [|c2 [|c3 l]]] eqn:E;
    try discriminate.
  assert (forall c, In (Some c) (column_cells rows na 1) ->
                    is_na na c = false /\ In c (map raw_label rows)) as Hcell.
  { intros c Hc. apply in_map_iff in Hc as (r & Hr & Hin).
    change (nth 1 r "") with (raw_label r) in Hr. unfold na_filter in Hr.
    destruct (is_na na (raw_label r)) eqn:Hna; [discriminate|].
    injection Hr as <-. split; [assumption | now apply in_map]. }
  assert (In (Some c1) (column_cells rows na 1)) as H1
    by (apply Hiff; rewrite E; now left).
  assert (In (Some c2) (column_cells rows na 1)) as H2
    by (apply Hiff; rewrite E; right; now left).
  exists c1, c2. split; [reflexivity|]. split.
  { apply StronglySorted_inv in Hs as [_ Hs]. now inversion Hs. }
  destruct (Hcell c1 H1) as [Hn1 Hi1]. destruct (Hcell c2 H2) as [Hn2 Hi2].
  repeat split; try assumption.
  apply Forall_forall. intros r Hr.
  destruct (is_na na (raw_label r)) eqn:Hna; [now left | right].
  assert (In (raw_label r) (sorted_categories (column_cells rows na 1))) as Hin.
  { apply Hiff, in_map_iff. exists r. split; [|assumption].
    change (nth 1 r "") with (raw_label r). unfold na_filter. now rewrite Hna. }
  rewrite E in Hin. simpl in Hin. intuition.
Qed.

(** At most one present code gives at most one category. *)
Lemma one_code_categories (rows : csv_file) (na : list string) (c : string) :
  Forall (fun r => raw_label r = c \/ is_na na (raw_label r) = true) rows ->
  (2 =? List.length (categories (parsed_labels rows na))) = false.
Proof.
  intros H. unfold parsed_labels, factorize. cbn [categories].
  assert (sorted_categories (column_cells rows na 1) = []
          \/ sorted_categories (column_cells rows na 1) = [c]) as [-> | ->];
    [|reflexivity|reflexivity].
  induction H as [|r rows Hr _ IH]; [now left|].
  cbn [column_cells map sorted_categories].
  fold (column_cells rows na 1). change (nth 1 r "") with (raw_label r).
  unfold na_filter.
  destruct Hr as [-> | ->].
  - destruct (is_na na c); [exact IH|].
    destruct IH as [-> | ->]; right; simpl; [reflexivity|].
    now rewrite compare_refl.
  - exact IH.
Qed.

(** The categories of a label column that holds two codes, both of them,
    and missing-value tokens. *)
Lemma categories_of_two_codes (na : list string) (c1 c2 : string)
    (rows : csv_file) :
  String.compare c1 c2 = Lt ->
  is_na na c1 = false -> is_na na c2 = false ->
  Forall (fun r => is_na na (raw_label r) = true
                   \/ raw_label r = c1 \/ raw_label r = c2) rows ->
  In c1 (map raw_label rows) -> In c2 (map raw_label rows) ->
  categories (parsed_labels rows na) = [c1; c2].
Proof.
  intros Hlt H1 H2 Hall I1 I2. unfold parsed_labels, factorize.
  cbn [categories].
  rewrite (sorted_categories_same _ [Some c1; Some c2]).
  - cbn [sorted_categories insert_category]. now rewrite Hlt.
  - assert (forall c r, In r rows -> raw_label r = c -> is_na na c = false ->
                        In (Some c) (column_cells rows na 1)) as Hcell.
    { intros c r Hr <- Hc. apply in_map_iff. exists r. split; [|assumption].
      change (nth 1 r "") with (raw_label r). unfold na_filter. now rewrite Hc. }
    intros t. split.
    + intros Hin. apply in_map_iff in Hin as (r & Hr & Hin).
      change (nth 1 r "") with (raw_label r) in Hr. unfold na_filter in Hr.
      rewrite Forall_forall in Hall.
      destruct (Hall r Hin) as [E | [E | E]].
      * rewrite E in Hr. discriminate.
      * rewrite E, H1 in Hr. now left.
      * rewrite E, H2 in Hr. right. now left.
    + apply in_map_iff in I1 as (r1 & E1 & Hr1).
      apply in_map_iff in I2 as (r2 & E2 & Hr2).
      intros [[= <-] | [[= <-] | []]]; eauto.
Qed.

(** The values of a two-category label column renamed by position, missing
    labels included. *)
Lemma labels_relabelled_missing (na : list string) (c1 c2 n1 n2 : string)
    (rows : csv_file) :
  c1 <> c2 -> is_na na c1 = false -> is_na na c2 = false ->
  Forall (fun r => is_na na (raw_label r) = true
                   \/ raw_label r = c1 \/ raw_label r = c2) rows ->
  categories (parsed_labels rows na) = [c1; c2] ->
  categorical_values
    {| categories := [n1; n2]; codes := codes (parsed_labels rows na) |}
  = map (relabel_present na c1 n1 n2) rows.
Proof.
  intros Hne H1 H2 Hall Hcats. unfold parsed_labels, factorize in *.
  cbn [categories codes] in *. rewrite Hcats.
  unfold categorical_values, column_cells. cbn [categories codes].
  rewrite !map_map. apply map_ext_in. intros r Hr.
  change (nth 1 r "") with (raw_label r).
  rewrite Forall_forall in Hall. unfold relabel_present, relabel, na_filter.
  destruct (Hall r Hr) as [E | [E | E]].
  - now rewrite E.
  - rewrite E, H1. cbn. now rewrite String.eqb_refl.
  - rewrite E, H2. cbn.
    destruct (String.eqb_spec c2 c1) as [E'|_]; [congruence|].
    now rewrite String.eqb_refl.
Qed.

(* ================================================================== *)
(** * 17. Well-formed files *)
(* ================================================================== *)

Lemma code_pair_inv (na : list string) (c1 c2 : string) :
  code_pair na c1 c2 = true ->
  String.compare c1 c2 = Lt /\ c1 <> c2
  /\ na_filter na c1 = Some c1 /\ na_filter na c2 = Some c2.
Proof.
  unfold code_pair, String.ltb, na_filter. intros H.
  apply andb_true_iff in H as [H H2]. apply andb_true_iff in H as [H0 H1].
  apply negb_true_iff in H1, H2. rewrite H1, H2.
  destruct (String.compare c1 c2) eqn:E; try discriminate.
  repeat split. now apply compare_lt_neq.
Qed.

Lemma too_long_false (n : nat) (rows : csv_file) :
  Forall (fun r => List.length r <= n) rows -> too_long n rows = false.
Proof.
  intros H. unfold too_long.
  destruct (existsb (fun r => n <? List.length r) rows) eqn:E; [|reflexivity].
  apply existsb_exists in E as (r & Hr & Hlt).
  rewrite Forall_forall in H. apply H in Hr. apply Nat.ltb_lt in Hlt. lia.
Qed.

(** The label cells of a file whose raw labels are two present codes. *)
Lemma label_cells (na : list string) (c1 c2 : string) (rows : csv_file) :
  na_filter na c1 = Some c1 -> na_filter na c2 = Some c2 ->
  Forall (fun r => raw_label r = c1 \/ raw_label r = c2) rows ->
  column_cells rows na 1 = map (fun r => Some (raw_label r)) rows
  /\ Forall (fun c => c = Some c1 \/ c = Some c2) (column_cells rows na 1).
Proof.
  intros H1 H2 Hall. split.
  - apply map_ext_in. intros r Hr. rewrite Forall_forall in Hall.
    fold (raw_label r). destruct (Hall r Hr) as [-> | ->]; assumption.
  - unfold column_cells. apply Forall_map.
    eapply Forall_impl; [|exact Hall]. intros r Hr. simpl.
    fold (raw_label r). destruct Hr as [-> | ->]; [left | right]; assumption.
Qed.

Lemma labels_relabelled (na : list string) (c1 c2 n1 n2 : string)
    (rows : csv_file) :
  code_pair na c1 c2 = true ->
  Forall (fun r => raw_label r = c1 \/ raw_label r = c2) rows ->
  List.length (categories (parsed_labels rows na)) = 2 ->
  categories (parsed_labels rows na) = [c1; c2]
  /\ categorical_values
       {| categories := [n1; n2]; codes := codes (parsed_labels rows na) |}
     = map (relabel c1 n1 n2) rows.
Proof.
  intros Hp Hall Hlen.
  apply code_pair_inv in Hp as (Hlt & Hne & Hc1 & Hc2).
  destruct (label_cells na c1 c2 rows Hc1 Hc2 Hall) as [Hcells Hin].
  unfold parsed_labels, factorize in *. cbn [categories codes] in *.
  pose proof (sorted_categories_pair c1 c2 _ Hlt Hin Hlen) as Hcats.
  split; [exact Hcats|].
  rewrite Hcats, (renamed_values c1 c2 n1 n2 _ Hne Hin), Hcells, map_map.
  reflexivity.
Qed.

Lemma relabel_targets (c1 n1 n2 : string) (rows : csv_file) :
  Forall (fun l => l = Some n1 \/ l = Some n2) (map (relabel c1 n1 n2) rows).
Proof.
  apply Forall_map, Forall_forall. intros r _. unfold relabel.
  destruct (String.eqb (raw_label r) c1); [now left | now right].
Qed.

(** The number of rows under each code of a two-code label column. *)
Lemma count_code_labels (c1 c2 : string) (rows : csv_file) :
  c1 <> c2 ->
  Forall (fun r => raw_label r = c1 \/ raw_label r = c2) rows ->
  count_code 0 (map (code_of [c1; c2]) (map (fun r => Some (raw_label r)) rows))
  = count_label c1 rows
  /\ count_code 1 (map (code_of [c1; c2]) (map (fun r => Some (raw_label r)) rows))
     = count_label c2 rows
  /\ count_label c1 rows + count_label c2 rows = List.length rows.
Proof.
  intros Hne Hall. unfold count_code, count_label.
  induction Hall as [|r rows Hr _ IH]; [repeat split|].
  destruct IH as (IH0 & IH1 & IH2). cbn [map filter code_of index_of].
  destruct Hr as [-> | ->].
  - rewrite String.eqb_refl.
    destruct (String.eqb_spec c1 c2) as [E|_]; [contradiction|].
    cbn [Nat.eqb List.length]. rewrite IH0, IH1. repeat split; lia.
  - destruct (String.eqb_spec c2 c1) as [E|_]; [congruence|].
    rewrite String.eqb_refl. cbn [option_map Nat.eqb List.length].
    rewrite IH0, IH1. repeat split; lia.
Qed.

(** ** The feature columns of a file of numbers *)

Lemma feature_floats_total (rows : csv_file) (na : list string) (first n : nat) :
  (forall j r, first <= j < first + n -> In r rows ->
     na_filter na (field j r) = None \/ numeric_token (field j r) = true) ->
  exists xss, feature_floats rows na first n = Some xss.
Proof.
  intros H. apply mapM_option_total. intros j Hj Hnone.
  apply in_seq in Hj.
  destruct (floats_of_cells_converts (column_cells rows na j)) as [xs Hxs];
    [|congruence].
  intros c Hc. apply in_map_iff in Hc as (r & <- & Hr). fold (field j r).
  destruct (H j r Hj Hr) as [-> | Hn]; [now left|].
  unfold na_filter. destruct (is_na na (field j r)); [now left | right].
  now exists (field j r).
Qed.

Lemma feature_floats_finite (rows : csv_file) (na : list string) (first n : nat)
    (xss : list (list float64)) :
  feature_floats rows na first n = Some xss ->
  (forall j r, first <= j < first + n -> In r rows ->
     numeric_token (field j r) = true
     /\ na_filter na (field j r) = Some (field j r)) ->
  forall xs, In xs xss -> forallb is_finite xs = true.
Proof.
  intros H Hnum xs Hin. apply In_nth_error in Hin as [k Hk].
  assert (k < n) as Hlt.
  { rewrite <- (feature_floats_length _ _ _ _ _ H).
    apply nth_error_Some. congruence. }
  destruct (feature_floats_nth _ _ _ _ _ k H Hlt) as (xs' & Hx & Hf).
  rewrite Hk in Hx. injection Hx as <-.
  apply forallb_forall. intros x Hx. apply In_nth_error in Hx as [i Hi].
  assert (i < List.length rows) as Hirows.
  { rewrite <- (column_cells_length rows na (first + k)),
      <- (floats_of_cells_length _ _ Hf).
    apply nth_error_Some. congruence. }
  destruct (nth_error rows i) as [r|] eqn:Hr;
    [|apply nth_error_None in Hr; lia].
  destruct (Hnum (first + k) r) as [Hn Hp];
    [lia | eapply nth_error_In; eassumption |].
  pose proof (column_cells_nth rows na (first + k) i r Hr) as Hc.
  rewrite Hp in Hc.
  destruct (floats_of_cells_numeric _ _ i _ Hf Hc Hn) as [q Hq].
  rewrite Hi in Hq. now injection Hq as ->.
Qed.

Lemma diagnosis_record_ok_inv (c1 c2 : string) (r : csv_record) :
  diagnosis_record_ok c1 c2 r = true ->
  List.length r = 32 /\ (raw_label r = c1 \/ raw_label r = c2)
  /\ forall j, 2 <= j < 32 -> numeric_token (field j r) = true.
Proof.
  unfold diagnosis_record_ok. intros H.
  apply andb_true_iff in H as [H Hnum]. apply andb_true_iff in H as [Hlen Hlab].
  apply Nat.eqb_eq in Hlen. apply orb_true_iff in Hlab.
  repeat split; [assumption | | ].
  - destruct Hlab as [E|E]; apply String.eqb_eq in E; auto.
  - intros j Hj. rewrite forallb_forall in Hnum. apply Hnum, in_seq. lia.
Qed.

Lemma prognosis_record_ok_inv (c1 c2 : string) (r : csv_record) :
  prognosis_record_ok c1 c2 r = true ->
  List.length r = 35 /\ (raw_label r = c1 \/ raw_label r = c2)
  /\ (forall j, 2 <= j < 34 -> numeric_token (field j r) = true)
  /\ (numeric_token (field 34 r) = true \/ field 34 r = "?").
Proof.
  unfold prognosis_record_ok. intros H.
  apply andb_true_iff in H as [H Hlymph]. apply andb_true_iff in H as [H Hnum].
  apply andb_true_iff in H as [Hlen Hlab].
  apply Nat.eqb_eq in Hlen. apply orb_true_iff in Hlab, Hlymph.
  repeat split; [assumption | | | ].
  - destruct Hlab as [E|E]; apply String.eqb_eq in E; auto.
  - intros j Hj. rewrite forallb_forall in Hnum. apply Hnum, in_seq. lia.
  - destruct Hlymph as [E|E]; [now left | right; now apply String.eqb_eq].
Qed.

Lemma has_label (c : string) (rows : csv_file) (na : list string) :
  existsb (fun r => String.eqb (raw_label r) c) rows = true ->
  na_filter na c = Some c ->
  In (Some c) (column_cells rows na 1).
Proof.
  intros H Hc. apply existsb_exists in H as (r & Hr & E).
  apply String.eqb_eq in E. apply in_map_iff. exists r. split; [|assumption].
  fold (raw_label r). now rewrite E.
Qed.

(** ** What a returned result is made of *)

Lemma over_long_not_returns (A : Type) (width : nat) (rows : csv_file) (a : A) :
  over_long width rows <> Returns a.
Proof.
  unfold over_long. destruct rows as [|first rest]; [discriminate|].
  destruct (width <? List.length first); [discriminate|].
  destruct (first_over_long width 2 rest); discriminate.
Qed.

Lemma not_converted_not_returns (A : Type) (rejected : bool) (a : A) :
  not_converted rejected <> Returns a.
Proof. unfold not_converted. destruct rejected; discriminate. Qed.

Lemma diagnosis_returns (rows : csv_file) (X : DataFrame) (y : Series) :
  diagnosis_result rows = Returns (X, y) ->
  too_long 32 rows = false
  /\ List.length (categories (parsed_labels rows na_diagnosis)) = 2
  /\ exists xss,
       feature_floats rows na_diagnosis 2 30 = Some xss
       /\ X = float_table (read_index rows na_diagnosis 0) (image_features tt) xss
       /\ y = {| s_index := read_index rows na_diagnosis 0;
                 s_name := "diagnosis";
                 s_values :=
                   CategoryCol
                     {| categories := ["benign"; "malignant"];
                        codes := codes (parsed_labels rows na_diagnosis) |} |}.
Proof.
  rewrite diagnosis_result_eq.
  destruct (too_long 32 rows);
    [intros H; now apply over_long_not_returns in H|].
  destruct (Nat.eqb_spec 2 (List.length (categories (parsed_labels rows na_diagnosis))))
    as [E|_]; [|discriminate].
  destruct (feature_floats rows na_diagnosis 2 30) as [xss|];
    [|intros H; now apply not_converted_not_returns in H].
  intros [= <- <-]. repeat split; [now symmetry|]. now exists xss.
Qed.

Lemma prognosis_returns (rows : csv_file) (X y : DataFrame) :
  prognosis_result rows = Returns (X, y) ->
  too_long 35 rows = false
  /\ List.length (categories (parsed_labels rows na_prognosis)) = 2
  /\ exists xss,
       feature_floats rows na_prognosis 3 32 = Some xss
       /\ X = float_table (read_index rows na_prognosis 0) prognosis_features xss
       /\ y = {| df_index := read_index rows na_prognosis 0;
                 df_columns :=
                   [("outcome",
                     CategoryCol
                       {| categories := ["nonrecurring"; "recurring"];
                          codes := codes (parsed_labels rows na_prognosis) |});
                    ("time", infer_column (column_cells rows na_prognosis 2))] |}.
Proof.
  rewrite prognosis_result_eq.
  destruct (too_long 35 rows);
    [intros H; now apply over_long_not_returns in H|].
  destruct (Nat.eqb_spec 2 (List.length (categories (parsed_labels rows na_prognosis))))
    as [E|_]; [|discriminate].
  destruct (feature_floats rows na_prognosis 3 32) as [xss|];
    [|intros H; now apply not_converted_not_returns in H].
  intros [= <- <-]. repeat split; [now symmetry|]. now exists xss.
Qed.

(** A returned feature table has one float per row in every column. *)
Lemma feature_table_populated (rows : csv_file) (na : list string)
    (first : nat) (names : list string) (xss : list (list float64)) :
  feature_floats rows na first (List.length names) = Some xss ->
  let X := float_table (read_index rows na 0) names xss in
  shape X = (List.length rows, List.length names)
  /\ column_names X = names
  /\ float_frame X = true.
Proof.
  intros H X. subst X.
  pose proof (feature_floats_length _ _ _ _ _ H) as Hlen.
  destruct (float_table_shape (read_index rows na 0) names xss Hlen) as [Hs Hn].
  cbn [read_index ix_cells] in Hs.
  rewrite column_cells_length in Hs. repeat split; [assumption | assumption |].
  apply float_table_float_frame. intros xs Hxs. cbn [read_index ix_cells].
  rewrite column_cells_length. eapply feature_floats_rows; eassumption.
Qed.

(** ** Well-formed files load *)

Lemma well_formed_diagnosis_inv (c1 c2 : string) (rows : csv_file) :
  well_formed_diagnosis c1 c2 rows = true ->
  Forall (fun r => diagnosis_record_ok c1 c2 r = true) rows
  /\ existsb (fun r => String.eqb (raw_label r) c1) rows = true
  /\ existsb (fun r => String.eqb (raw_label r) c2) rows = true.
Proof.
  unfold well_formed_diagnosis. intros H.
  apply andb_true_iff in H as [H H2]. apply andb_true_iff in H as [H0 H1].
  repeat split; try assumption. now apply Forall_forall, forallb_forall.
Qed.

Lemma well_formed_prognosis_inv (c1 c2 : string) (rows : csv_file) :
  well_formed_prognosis c1 c2 rows = true ->
  Forall (fun r => prognosis_record_ok c1 c2 r = true) rows
  /\ existsb (fun r => String.eqb (raw_label r) c1) rows = true
  /\ existsb (fun r => String.eqb (raw_label r) c2) rows = true.
Proof.
  unfold well_formed_prognosis. intros H.
  apply andb_true_iff in H as [H H2]. apply andb_true_iff in H as [H0 H1].
  repeat split; try assumption. now apply Forall_forall, forallb_forall.
Qed.

Lemma two_codes_two_categories (na : list string) (c1 c2 : string)
    (rows : csv_file) :
  code_pair na c1 c2 = true ->
  Forall (fun r => raw_label r = c1 \/ raw_label r = c2) rows ->
  existsb (fun r => String.eqb (raw_label r) c1) rows = true ->
  existsb (fun r => String.eqb (raw_label r) c2) rows = true ->
  List.length (categories (parsed_labels rows na)) = 2.
Proof.
  intros Hp Hall H1 H2.
  apply code_pair_inv in Hp as (Hlt & Hne & Hc1 & Hc2).
  destruct (label_cells na c1 c2 rows Hc1 Hc2 Hall) as [_ Hin].
  unfold parsed_labels, factorize. cbn [categories].
  rewrite (sorted_categories_both c1 c2 _ Hlt Hin); [reflexivity| |];
    now apply has_label.
Qed.

Lemma well_formed_diagnosis_loads (c1 c2 : string) (rows : csv_file) :
  code_pair na_diagnosis c1 c2 = true ->
  well_formed_diagnosis c1 c2 rows = true ->
  Forall (fun r => raw_label r = c1 \/ raw_label r = c2) rows
  /\ exists xss,
       feature_floats rows na_diagnosis 2 30 = Some xss
       /\ (forall xs, In xs xss -> forallb is_finite xs = true)
       /\ diagnosis_result rows
          = Returns (float_table (read_index rows na_diagnosis 0)
                                 (image_features tt) xss,
                     {| s_index := read_index rows na_diagnosis 0;
                        s_name := "diagnosis";
                        s_values :=
                          CategoryCol
                            {| categories := ["benign"; "malignant"];
                               codes := codes (parsed_labels rows na_diagnosis) |} |}).
Proof.
  intros Hp Hwf.
  apply well_formed_diagnosis_inv in Hwf as (Hrec & H1 & H2).
  assert (forall r, In r rows ->
            List.length r = 32 /\ (raw_label r = c1 \/ raw_label r = c2)
            /\ forall j, 2 <= j < 32 -> numeric_token (field j r) = true) as Hr.
  { intros r Hin. rewrite Forall_forall in Hrec.
    now apply diagnosis_record_ok_inv, Hrec. }
  assert (Forall (fun r => raw_label r = c1 \/ raw_label r = c2) rows) as Hlab.
  { apply Forall_forall. intros r Hin. now apply Hr. }
  split; [exact Hlab|].
  assert (forall j r, 2 <= j < 2 + 30 -> In r rows ->
            numeric_token (field j r) = true
            /\ na_filter na_diagnosis (field j r) = Some (field j r)) as Hnum.
  { intros j r Hj Hin. destruct (Hr r Hin) as (_ & _ & Hn).
    split; [apply Hn; lia|].
    apply numeric_token_present; [intros x [] | apply Hn; lia]. }
  destruct (feature_floats_total rows na_diagnosis 2 30) as [xss Hxss].
  { intros j r Hj Hin. right. now apply Hnum. }
  exists xss. split; [exact Hxss|]. split.
  - eapply feature_floats_finite; eassumption.
  - rewrite diagnosis_result_eq, too_long_false.
    + rewrite (two_codes_two_categories _ c1 c2 rows Hp Hlab H1 H2), Hxss.
      reflexivity.
    + apply Forall_forall. intros r Hin. destruct (Hr r Hin) as [-> _]. lia.
Qed.

Lemma well_formed_prognosis_loads (c1 c2 : string) (rows : csv_file) :
  code_pair na_prognosis c1 c2 = true ->
  well_formed_prognosis c1 c2 rows = true ->
  Forall (fun r => raw_label r = c1 \/ raw_label r = c2) rows
  /\ exists xss,
       feature_floats rows na_prognosis 3 32 = Some xss
       /\ prognosis_result rows
          = Returns (float_table (read_index rows na_prognosis 0)
                                 prognosis_features xss,
                     {| df_index := read_index rows na_prognosis 0;
                        df_columns :=
                          [("outcome",
                            CategoryCol
                              {| categories := ["nonrecurring"; "recurring"];
                                 codes := codes (parsed_labels rows na_prognosis) |});
                           ("time", infer_column (column_cells rows na_prognosis 2))] |}).
Proof.
  intros Hp Hwf.
  apply well_formed_prognosis_inv in Hwf as (Hrec & H1 & H2).
  assert (forall r, In r rows ->
            List.length r = 35 /\ (raw_label r = c1 \/ raw_label r = c2)
            /\ (forall j, 2 <= j < 34 -> numeric_token (field j r) = true)
            /\ (numeric_token (field 34 r) = true \/ field 34 r = "?")) as Hr.
  { intros r Hin. rewrite Forall_forall in Hrec.
    now apply prognosis_record_ok_inv, Hrec. }
  assert (Forall (fun r => raw_label r = c1 \/ raw_label r = c2) rows) as Hlab.
  { apply Forall_forall. intros r Hin. now apply Hr. }
  split; [exact Hlab|].
  destruct (feature_floats_total rows na_prognosis 3 32) as [xss Hxss].
  { intros j r Hj Hin. destruct (Hr r Hin) as (_ & _ & Hn & Hl).
    destruct (Nat.eq_dec j 34) as [-> | Hne].
    - destruct Hl as [Hl | ->]; [now right | now left].
    - right. apply Hn. lia. }
  exists xss. split; [exact Hxss|].
  rewrite prognosis_result_eq, too_long_false.
  - rewrite (two_codes_two_categories _ c1 c2 rows Hp Hlab H1 H2), Hxss.
    reflexivity.
  - apply Forall_forall. intros r Hin. destruct (Hr r Hin) as [-> _]. lia.
Qed.

(** ** Files with missing labels or unknown features load *)

Lemma numbers_at_inv (first n : nat) (r : csv_record) :
  numbers_at first n r = true ->
  forall j, first <= j < first + n -> numeric_token (field j r) = true.
Proof.
  unfold numbers_at. rewrite forallb_forall. intros H j Hj.
  apply H, in_seq. lia.
Qed.

Lemma numbers_or_unknown_at_inv (first n : nat) (r : csv_record) :
  numbers_or_unknown_at first n r = true ->
  forall j, first <= j < first + n ->
            numeric_token (field j r) = true \/ field j r = "?".
Proof.
  unfold numbers_or_unknown_at. rewrite forallb_forall. intros H j Hj.
  assert (In j (seq first n)) as Hin by (apply in_seq; lia).
  apply H, orb_true_iff in Hin as [E|E]; [now left | right].
  now apply String.eqb_eq.
Qed.

Lemma diagnosis_loads_labels (c1 c2 : string) (rows : csv_file) :
  code_pair na_diagnosis c1 c2 = true ->
  Forall (fun r => is_na na_diagnosis (raw_label r) = true
                   \/ raw_label r = c1 \/ raw_label r = c2) rows ->
  In c1 (map raw_label rows) -> In c2 (map raw_label rows) ->
  Forall (fun r => List.length r <= 32 /\ numbers_at 2 30 r = true) rows ->
  exists xss,
    feature_floats rows na_diagnosis 2 30 = Some xss
    /\ diagnosis_result rows
       = Returns (float_table (read_index rows na_diagnosis 0)
                              (image_features tt) xss,
                  {| s_index := read_index rows na_diagnosis 0;
                     s_name := "diagnosis";
                     s_values :=
                       CategoryCol
                         {| categories := ["benign"; "malignant"];
                            codes := codes (parsed_labels rows na_diagnosis) |} |})
    /\ categorical_values
         {| categories := ["benign"; "malignant"];
            codes := codes (parsed_labels rows na_diagnosis) |}
       = map (relabel_present na_diagnosis c1 "benign" "malignant") rows.
Proof.
  intros Hp Hlab I1 I2 Hrec.
  pose proof (code_pair_inv _ _ _ Hp) as (Hlt & Hne & _ & _).
  assert (is_na na_diagnosis c1 = false /\ is_na na_diagnosis c2 = false)
    as [Hn1 Hn2].
  { unfold code_pair in Hp.
    apply andb_true_iff in Hp as [Hp H2]. apply andb_true_iff in Hp as [_ H1].
    apply negb_true_iff in H1, H2. now split. }
  pose proof (categories_of_two_codes na_diagnosis c1 c2 rows Hlt Hn1 Hn2
                Hlab I1 I2) as Hcats.
  rewrite Forall_forall in Hrec.
  destruct (feature_floats_total rows na_diagnosis 2 30) as [xss Hxss].
  { intros j r Hj Hin. right. destruct (Hrec r Hin) as [_ Hnum].
    now apply (numbers_at_inv 2 30 r Hnum). }
  exists xss. split; [exact Hxss|]. split.
  - rewrite diagnosis_result_eq, too_long_false.
    + now rewrite Hcats, Hxss.
    + apply Forall_forall. intros r Hin. now apply Hrec.
  - apply (labels_relabelled_missing _ c1 c2); assumption.
Qed.

Lemma prognosis_loads_labels (c1 c2 : string) (rows : csv_file) :
  code_pair na_prognosis c1 c2 = true ->
  Forall (fun r => is_na na_prognosis (raw_label r) = true
                   \/ raw_label r = c1 \/ raw_label r = c2) rows ->
  In c1 (map raw_label rows) -> In c2 (map raw_label rows) ->
  Forall (fun r => List.length r <= 35
                   /\ numbers_or_unknown_at 3 32 r = true) rows ->
  exists xss,
    feature_floats rows na_prognosis 3 32 = Some xss
    /\ prognosis_result rows
       = Returns (float_table (read_index rows na_prognosis 0)
                              prognosis_features xss,
                  {| df_index := read_index rows na_prognosis 0;
                     df_columns :=
                       [("outcome",
                         CategoryCol
                           {| categories := ["nonrecurring"; "recurring"];
                              codes := codes (parsed_labels rows na_prognosis) |});
                        ("time", infer_column (column_cells rows na_prognosis 2))] |})
    /\ categorical_values
         {| categories := ["nonrecurring"; "recurring"];
            codes := codes (parsed_labels rows na_prognosis) |}
       = map (relabel_present na_prognosis c1 "nonrecurring" "recurring") rows.
Proof.
  intros Hp Hlab I1 I2 Hrec.
  pose proof (code_pair_inv _ _ _ Hp) as (Hlt & Hne & _ & _).
  assert (is_na na_prognosis c1 = false /\ is_na na_prognosis c2 = false)
    as [Hn1 Hn2].
  { unfold code_pair in Hp.
    apply andb_true_iff in Hp as [Hp H2]. apply andb_true_iff in Hp as [_ H1].
    apply negb_true_iff in H1, H2. now split. }
  pose proof (categories_of_two_codes na_prognosis c1 c2 rows Hlt Hn1 Hn2
                Hlab I1 I2) as Hcats.
  rewrite Forall_forall in Hrec.
  destruct (feature_floats_total rows na_prognosis 3 32) as [xss Hxss].
  { intros j r Hj Hin. destruct (Hrec r Hin) as [_ Hnum].
    destruct (numbers_or_unknown_at_inv 3 32 r Hnum j Hj) as [Hn | ->];
      [now right | now left]. }
  exists xss. split; [exact Hxss|]. split.
  - rewrite prognosis_result_eq, too_long_false.
    + now rewrite Hcats, Hxss.
    + apply Forall_forall. intros r Hin. now apply Hrec.
  - apply (labels_relabelled_missing _ c1 c2); assumption.
Qed.

Lemma two_codes_or_missing (na : list string) (c1 c2 : string)
    (rows : csv_file) :
  Forall (fun r => raw_label r = c1 \/ raw_label r = c2) rows ->
  Forall (fun r => is_na na (raw_label r) = true
                   \/ raw_label r = c1 \/ raw_label r = c2) rows.
Proof. apply Forall_impl. intros r H. now right. Qed.

(* ================================================================== *)
(** * 18. The generated names *)
(* ================================================================== *)

(** C5.  [image_features] is deterministic and order preserving: every
    call returns the same list of exactly 30 names, the 10 base names
    prefixed with [mean_], then with [se_], then with [worst_]; the three
    names of a base name sit at the same position in their groups, so
    [mean_radius], [se_radius] and [worst_radius] come in that order, each
    first in its group. *)
Theorem image_features_order :
  (forall u1 u2 : unit, image_features u1 = image_features u2)
  /\ List.length names = 10
  /\ List.length (image_features tt) = 30
  /\ image_features tt
     = map (format "mean_") names
         ++ map (format "se_") names
         ++ map (format "worst_") names
  /\ (forall i base, nth_error names i = Some base ->
        nth_error (image_features tt) i = Some (format "mean_" base)
        /\ nth_error (image_features tt) (10 + i) = Some (format "se_" base)
        /\ nth_error (image_features tt) (20 + i) = Some (format "worst_" base))
  /\ index_of "mean_radius" (image_features tt) = Some 0
  /\ index_of "se_radius" (image_features tt) = Some 10
  /\ index_of "worst_radius" (image_features tt) = Some 20.
Proof.
  split; [now intros [] []|].
  repeat split.
  all: do 10 (destruct i as [|i];
              [injection H as <-; reflexivity|]);
    now destruct i.
Qed.

Lemma image_features_order_witness :
  nth_error names 0 = Some "radius"
  /\ nth_error (image_features tt) 0 = Some "mean_radius"
  /\ nth_error (image_features tt) 10 = Some "se_radius"
  /\ nth_error (image_features tt) 20 = Some "worst_radius".
Proof.
  split; [reflexivity|].
  destruct image_features_order as (_ & _ & _ & _ & H & _).
  exact (H 0 "radius" eq_refl).
Defined.

(* ================================================================== *)
(** * 19. Loading well-formed files *)
(* ================================================================== *)

Lemma value_counts_two (n1 n2 : string) (c1 c2 : string) (rows : csv_file) :
  c1 <> c2 ->
  Forall (fun r => raw_label r = c1 \/ raw_label r = c2) rows ->
  value_counts
    {| categories := [n1; n2];
       codes := map (code_of [c1; c2]) (map (fun r => Some (raw_label r)) rows) |}
  = insert_by_count (n1, count_label c1 rows) [(n2, count_label c2 rows)].
Proof.
  intros Hne Hall.
  destruct (count_code_labels c1 c2 rows Hne Hall) as (H0 & H1 & _).
  unfold value_counts. cbn [categories codes List.length seq combine map
                            fst snd fold_right].
  now rewrite H0, H1.
Qed.

Lemma occurs_as_label (c : string) (rows : csv_file) :
  In c (map raw_label rows) ->
  existsb (fun r => String.eqb (raw_label r) c) rows = true.
Proof.
  intros H. apply in_map_iff in H as (r & <- & Hr).
  apply existsb_exists. exists r. split; [assumption | apply String.eqb_refl].
Qed.




(** The cell of a returned feature table at a named column: the float of
    the field at the column's position. *)
Lemma feature_cell (rows : csv_file) (na : list string) (first : nat)
    (names : list string) (xss : list (list float64)) (k : nat) (name : string) :
  NoDup names ->
  feature_floats rows na first (List.length names) = Some xss ->
  nth_error names k = Some name ->
  exists xs,
    floats_of_cells (column_cells rows na (first + k)) = Some xs
    /\ forall i,
         frame_cell (float_table (read_index rows na 0) names xss) name i
         = nth_error xs i.
Proof.
  intros Hnd Hxss Hname.
  assert (k < List.length names) as Hk by (apply nth_error_Some; congruence).
  destruct (feature_floats_nth _ _ _ _ _ k Hxss Hk) as (xs & Hx & Hf).
  exists xs. split; [exact Hf|]. intros i.
  apply float_table_cell with (k := k); try assumption.
  eapply feature_floats_length; eassumption.
Qed.




(* ================================================================== *)
(** * 20. Relabelling *)
(* ================================================================== *)

Lemma raw_label_cell (c : string) (rows : csv_file) (na : list string) :
  In c (map raw_label rows) -> is_na na c = false ->
  In (Some c) (column_cells rows na 1).
Proof.
  intros H Hc. apply in_map_iff in H as (r & <- & Hr).
  apply in_map_iff. exists r. split; [|assumption].
  fold (raw_label r). unfold na_filter. now rewrite Hc.
Qed.

Lemma three_codes_three_categories (na : list string) (a b c : string)
    (rows : csv_file) :
  a <> b -> a <> c -> b <> c ->
  is_na na a = false -> is_na na b = false -> is_na na c = false ->
  In a (map raw_label rows) -> In b (map raw_label rows) ->
  In c (map raw_label rows) ->
  (2 =? List.length (categories (parsed_labels rows na))) = false.
Proof.
  intros Hab Hac Hbc Ha Hb Hc Ia Ib Ic.
  apply Nat.eqb_neq. unfold parsed_labels, factorize. cbn [categories].
  pose proof (sorted_categories_three a b c (column_cells rows na 1)
                Hab Hac Hbc (raw_label_cell a rows na Ia Ha)
                (raw_label_cell b rows na Ib Hb)
                (raw_label_cell c rows na Ic Hc)).
  lia.
Qed.

Lemma code_pair_present (na : list string) (c1 c2 : string) :
  code_pair na c1 c2 = true ->
  c1 <> c2 /\ is_na na c1 = false /\ is_na na c2 = false.
Proof.
  intros H. pose proof (code_pair_inv na c1 c2 H) as (_ & Hne & _ & _).
  unfold code_pair in H.
  apply andb_true_iff in H as [H H2]. apply andb_true_iff in H as [_ H1].
  apply negb_true_iff in H1, H2. auto.
Qed.

(** A label field that is a missing-value token is a missing label. *)
Lemma missing_label_value (rows : csv_file) (na : list string)
    (cats : list string) (i : nat) (r : csv_record) :
  nth_error rows i = Some r -> is_na na (raw_label r) = true ->
  nth_error
    (categorical_values
       {| categories := cats; codes := codes (parsed_labels rows na) |}) i
  = Some None.
Proof.
  intros Hr Hna. unfold categorical_values, parsed_labels, factorize.
  cbn [categories codes]. rewrite !nth_error_map.
  rewrite (column_cells_nth rows na 1 i r Hr).
  change (field 1 r) with (raw_label r).
  unfold na_filter. now rewrite Hna.
Qed.




(* ================================================================== *)
(** * 21. The token [?] *)
(* ================================================================== *)

(** A present field that denotes no float and is no boolean literal makes
    the conversion of the feature columns fail. *)
Lemma feature_floats_rejects (rows : csv_file) (na : list string) (first n : nat)
    (r : csv_record) (j : nat) :
  In r rows -> first <= j < first + n ->
  is_na na (field j r) = false ->
  float_of_string (field j r) = None -> boolean_literal (field j r) = false ->
  feature_floats rows na first n = None.
Proof.
  intros Hr Hj Hna Hn Hb.
  apply (mapM_option_fails _ (seq first n) j); [now apply in_seq|].
  apply (floats_of_cells_rejects _ (field j r)); try assumption.
  apply in_map_iff. exists r. split; [|assumption].
  fold (field j r). unfold na_filter. now rewrite Hna.
Qed.

(** When the field is a string of ASCII characters, its column is one the
    conversion is sure to fail on. *)
Lemma features_rejected_token (rows : csv_file) (na : list string)
    (first n : nat) (r : csv_record) (j : nat) :
  In r rows -> first <= j < first + n ->
  is_na na (field j r) = false -> ascii_token (field j r) = true ->
  float_of_string (field j r) = None -> boolean_literal (field j r) = false ->
  features_rejected rows na first n = true.
Proof.
  intros Hr Hj Hna Ha Hn Hb. unfold features_rejected.
  apply existsb_exists. exists j. split; [now apply in_seq|].
  apply (column_rejected_token _ (field j r)); try assumption.
  apply in_map_iff. exists r. split; [|assumption].
  fold (field j r). unfold na_filter. now rewrite Hna.
Qed.




(* ================================================================== *)
(** * 22. The row index *)
(* ================================================================== *)

Lemma categorical_values_length (cats : list string) (c : Categorical) :
  List.length
    (categorical_values {| categories := cats; codes := codes c |})
  = List.length (codes c).
Proof. apply length_map. Qed.

Lemma parsed_labels_length (rows : csv_file) (na : list string) :
  List.length (codes (parsed_labels rows na)) = List.length rows.
Proof.
  unfold parsed_labels, factorize. cbn [codes].
  now rewrite length_map, column_cells_length.
Qed.

(** ** What the index holds *)

Lemma na_token_not_int (t : string) :
  In t (default_na_values ++ ["?"]) -> int_of_token t = None.
Proof.
  intros H. simpl in H.
  repeat (destruct H as [<- | H]; [reflexivity|]).
  contradiction.
Qed.

Lemma int_token_present (extra : list string) (t : string) :
  incl extra ["?"] -> is_int64_token t = true ->
  na_filter (default_na_values ++ extra) t = Some t.
Proof.
  intros Hex Hn. unfold na_filter.
  destruct (is_na (default_na_values ++ extra) t) eqn:E; [|reflexivity].
  apply is_na_true in E.
  assert (In t (default_na_values ++ ["?"])) as Hin.
  { apply in_app_or in E as [E|E]; apply in_or_app;
      [now left | right; now apply Hex]. }
  apply na_token_not_int in Hin. unfold is_int64_token in Hn.
  now rewrite Hin in Hn.
Qed.

Lemma mapM_option_all_some {A B : Type} (f : A -> option B) (g : A -> B)
    (l : list A) :
  (forall a, In a l -> f a = Some (g a)) ->
  mapM_option f l = Some (map g l).
Proof.
  induction l as [|a l IH]; intros H; [reflexivity|].
  cbn [mapM_option map]. rewrite (H a (or_introl eq_refl)), IH; [reflexivity|].
  intros b Hb. apply H. now right.
Qed.

(** A column of 64-bit integers, none missing, is read as integers. *)
Lemma infer_reading_integers (cells : list cell) :
  cells <> [] ->
  Forall (fun c => exists t, c = Some t /\ is_int64_token t = true) cells ->
  infer_reading cells = AsInt.
Proof.
  intros Hne Hall.
  assert (some_present is_big_int_token cells = false
          /\ every_present is_int64_token cells = true
          /\ existsb is_missing cells = false) as (H1 & H2 & H3).
  { clear Hne. induction Hall as [|c cells (t & -> & Ht) _ (I1 & I2 & I3)];
      [now repeat split|].
    unfold some_present, every_present in *. cbn [existsb forallb is_missing].
    rewrite I1, I2, I3, Ht. unfold is_big_int_token.
    unfold is_int64_token in Ht.
    destruct (int_of_token t) as [z|]; [|discriminate].
    now rewrite Ht. }
  unfold infer_reading. destruct cells as [|c cells]; [congruence|].
  now rewrite H1, H2, H3.
Qed.

(** A column with a plain string and no integer out of range is read as
    strings. *)
Lemma infer_reading_strings (cells : list cell) (t : string) :
  In (Some t) cells -> plain_string t = true ->
  some_present is_big_int_token cells = false ->
  infer_reading cells = AsString.
Proof.
  intros Hin Hplain Hbig.
  unfold plain_string, rejected_token in Hplain.
  apply andb_true_iff in Hplain as [Hrej Hb].
  apply andb_true_iff in Hrej as [_ Hn]. apply negb_true_iff in Hb.
  destruct (float_of_string t) as [v|] eqn:Hv; [discriminate|].
  unfold infer_reading. destruct cells as [|c cells]; [contradiction|].
  rewrite Hbig.
  destruct (every_present is_int64_token (c :: cells)) eqn:E1.
  { exfalso. pose proof (every_present_in _ _ _ E1 Hin) as Ht.
    unfold is_int64_token in Ht.
    destruct (int_of_token t) as [z|] eqn:Hz; [|discriminate].
    apply int_token_float in Hz. congruence. }
  destruct (every_present is_pandas_float (c :: cells)) eqn:E2.
  { exfalso. pose proof (every_present_in _ _ _ E2 Hin) as Ht.
    unfold is_pandas_float in Ht.
    destruct (pandas_float_of_token t) as [x|] eqn:Hx; [|discriminate].
    apply pandas_float_token in Hx. congruence. }
  destruct (every_present boolean_literal (c :: cells)) eqn:E3;
    [|reflexivity].
  pose proof (every_present_in _ _ _ E3 Hin) as Ht. congruence.
Qed.

(** The entries of the index, for identifiers that are all integers and
    for identifiers one of which is a plain string. *)
Lemma index_entries (rows : csv_file) (extra : list string) :
  incl extra ["?"] -> rows <> [] ->
  (Forall (fun r => is_int64_token (identifier r) = true) rows ->
   index_values (read_index rows (default_na_values ++ extra) 0)
   = Some (map (fun r => IntVal (int_value (identifier r))) rows))
  /\ (Exists (fun r => is_na (default_na_values ++ extra) (identifier r) = false
                       /\ plain_string (identifier r) = true) rows ->
      Forall (fun r => is_big_int_token (identifier r) = false) rows ->
      index_values (read_index rows (default_na_values ++ extra) 0)
      = Some (map (string_entry (default_na_values ++ extra)) rows)).
Proof.
  intros Hex Hne. set (na := default_na_values ++ extra).
  unfold index_values, read_index. cbn [ix_as ix_cells]. split.
  - intros Hall.
    assert (column_cells rows na 0 = map (fun r => Some (identifier r)) rows)
      as Hcells.
    { apply map_ext_in. intros r Hr. rewrite Forall_forall in Hall.
      apply (int_token_present extra _ Hex), Hall, Hr. }
    rewrite Hcells. unfold index_reading.
    rewrite infer_reading_integers.
    + unfold read_scalars. rewrite mapM_option_map.
      apply mapM_option_all_some. intros r Hr. cbn [read_scalar].
      rewrite Forall_forall in Hall. specialize (Hall r Hr).
      unfold is_int64_token in Hall. unfold int_value.
      now destruct (int_of_token (identifier r)).
    + destruct rows; [congruence | discriminate].
    + apply Forall_map. eapply Forall_impl; [|exact Hall].
      intros r Hr. now exists (identifier r).
  - intros Hsome Hbig.
    apply Exists_exists in Hsome as (r0 & Hr0 & Hna & Hplain).
    assert (In (Some (identifier r0)) (column_cells rows na 0)) as Hin.
    { apply in_map_iff. exists r0. split; [|assumption].
      fold (identifier r0). unfold na_filter. now rewrite Hna. }
    assert (some_present is_big_int_token (column_cells rows na 0) = false)
      as Hnobig.
    { destruct (some_present is_big_int_token (column_cells rows na 0)) eqn:E;
        [|reflexivity].
      unfold some_present in E.
      apply existsb_exists in E as (c & Hc & Hb).
      apply in_map_iff in Hc as (r & <- & Hr).
      fold (identifier r) in Hb. unfold na_filter in Hb.
      rewrite Forall_forall in Hbig. specialize (Hbig r Hr).
      destruct (is_na na (identifier r)); congruence. }
    unfold index_reading.
    rewrite (infer_reading_strings _ _ Hin Hplain Hnobig),
      (some_present_in _ _ _ Hin Hplain).
    unfold read_scalars, column_cells. rewrite mapM_option_map.
    apply mapM_option_all_some. intros r Hr. unfold string_entry.
    fold (identifier r). now destruct (na_filter na (identifier r)).
Qed.

Lemma two_categories_rows (rows : csv_file) (na : list string) :
  List.length (categories (parsed_labels rows na)) = 2 -> rows <> [].
Proof. intros H ->. discriminate H. Qed.




(* ================================================================== *)
(** * 23. Failures *)
(* ================================================================== *)

(** A field beyond the end of a record reads as missing. *)
Lemma absent_field_missing (na : list string) (r : csv_record) (j : nat) :
  List.length r <= j -> na_filter (default_na_values ++ na) (field j r) = None.
Proof.
  intros H. unfold field. now rewrite nth_overflow.
Qed.


Lemma longer_record (width : nat) (rows : csv_file) :
  Exists (fun r => width < List.length r) rows -> too_long width rows = true.
Proof.
  intros H. apply Exists_exists in H as (r & Hr & Hlt).
  apply existsb_exists. exists r. split; [assumption | now apply Nat.ltb_lt].
Qed.



(* ================================================================== *)
(** * 24. Duplicate identifiers *)
(* ================================================================== *)

Lemma index_keeps_duplicates (rows : csv_file) (na : list string) :
  ~ NoDup (map identifier rows) ->
  ~ NoDup (ix_cells (read_index rows na 0)).
Proof.
  intros H Hnd. apply H.
  apply (NoDup_map_inv (na_filter na)).
  cbn [read_index ix_cells] in Hnd.
  unfold column_cells in Hnd. now rewrite map_map.
Qed.

(** Equal cells are read as equal values. *)
Lemma mapM_option_keeps_duplicates {A B : Type} (f : A -> option B)
    (l : list A) :
  forall vs, mapM_option f l = Some vs -> NoDup vs -> NoDup l.
Proof.
  induction l as [|a l IH]; intros vs H Hnd; [constructor|].
  cbn [mapM_option] in H.
  destruct (f a) as [b|] eqn:Ha; [|discriminate].
  destruct (mapM_option f l) as [bs|] eqn:Hl; [|discriminate].
  injection H as <-. apply NoDup_cons_iff in Hnd as [Hb Hbs].
  constructor; [|now apply (IH bs)].
  intros Hin. apply Hb. apply In_nth_error in Hin as [i Hi].
  pose proof (mapM_option_nth_error f l bs i Hl) as Hn.
  rewrite Hi in Hn. cbn [option_map] in Hn.
  destruct (nth_error bs i) as [b'|] eqn:Hb'.
  - apply nth_error_In in Hb'. congruence.
  - rewrite Ha in Hn. destruct (nth_error bs i); discriminate.
Qed.

Lemma index_values_keep_duplicates (rows : csv_file) (na : list string)
    (vs : list scalar) :
  ~ NoDup (map identifier rows) ->
  index_values (read_index rows na 0) = Some vs -> ~ NoDup vs.
Proof.
  intros Hdup Hvs Hnd.
  apply (index_keeps_duplicates rows na Hdup).
  exact (mapM_option_keeps_duplicates _ _ vs Hvs Hnd).
Qed.




(* ================================================================== *)
(** * 25. Reordered feature columns *)
(* ================================================================== *)

Lemma seq_map_add (first n : nat) :
  seq first n = map (fun k => first + k) (seq 0 n).
Proof.
  revert first. induction n as [|n IH]; intros first; [reflexivity|].
  cbn [seq map]. rewrite Nat.add_0_r. f_equal.
  rewrite <- (seq_shift n 0), map_map, (IH (S first)).
  apply map_ext. intros k. lia.
Qed.

Lemma permute_features_length (first : nat) (p : list nat) (r : csv_record) :
  List.length r = first + List.length p ->
  List.length (permute_features first p r) = first + List.length p.
Proof.
  intros H. unfold permute_features.
  rewrite length_app, length_map, length_firstn. lia.
Qed.

Lemma permuted_field_low (first : nat) (p : list nat) (r : csv_record) (j : nat) :
  List.length r = first + List.length p -> j < first ->
  field j (permute_features first p r) = field j r.
Proof.
  intros H Hj. unfold field, permute_features.
  rewrite app_nth1 by (rewrite length_firstn; lia).
  rewrite nth_firstn. now destruct (Nat.ltb_spec j first); [|lia].
Qed.

Lemma permuted_field_high (first : nat) (p : list nat) (r : csv_record) (k : nat) :
  List.length r = first + List.length p -> k < List.length p ->
  field (first + k) (permute_features first p r) = field (first + nth k p 0) r.
Proof.
  intros H Hk. unfold permute_features.
  assert (List.length (firstn first r) = first) as Hlen
    by (rewrite length_firstn; lia).
  unfold field at 1. rewrite <- Hlen at 1. rewrite app_nth2_plus.
  rewrite (nth_indep _ "" (field (first + 0) r)) by now rewrite length_map.
  apply (map_nth (fun i => field (first + i) r)).
Qed.

Section Reordering.

Variables (first : nat) (p : list nat) (rows : csv_file) (na : list string).

Hypothesis width : Forall (fun r => List.length r = first + List.length p) rows.
Hypothesis in_range : Forall (fun i => i < List.length p) p.

Lemma permuted_column_low (j : nat) :
  j < first -> column_cells (map (permute_features first p) rows) na j = column_cells rows na j.
Proof.
  intros Hj. unfold column_cells. rewrite map_map.
  apply map_ext_in. intros r Hr. rewrite Forall_forall in width.
  fold (field j (permute_features first p r)). fold (field j r).
  now rewrite permuted_field_low by auto.
Qed.

Lemma permuted_index :
  0 < first ->
  read_index (map (permute_features first p) rows) na 0 = read_index rows na 0.
Proof.
  intros H. unfold read_index. now rewrite permuted_column_low.
Qed.

Lemma permuted_column_high (k : nat) :
  k < List.length p ->
  column_cells (map (permute_features first p) rows) na (first + k)
  = column_cells rows na (first + nth k p 0).
Proof.
  intros Hk. unfold column_cells. rewrite map_map.
  apply map_ext_in. intros r Hr. rewrite Forall_forall in width.
  fold (field (first + k) (permute_features first p r)).
  fold (field (first + nth k p 0) r).
  now rewrite permuted_field_high by auto.
Qed.

Lemma permuted_too_long :
  too_long (first + List.length p) (map (permute_features first p) rows) = false.
Proof.
  apply too_long_false. apply Forall_map.
  eapply Forall_impl; [|exact width]. intros r Hr. simpl.
  rewrite permute_features_length by assumption. lia.
Qed.

Lemma permuted_feature_floats (xss : list (list float64)) :
  feature_floats rows na first (List.length p) = Some xss ->
  feature_floats (map (permute_features first p) rows) na first (List.length p)
  = Some (pick [] xss p).
Proof.
  unfold feature_floats. rewrite !(seq_map_add first), !mapM_option_map.
  intros H.
  rewrite (mapM_option_ext _
             (fun k => floats_of_cells
                         (column_cells rows na (first + nth k p 0)))).
  2:{ intros k Hk. apply in_seq in Hk.
      now rewrite permuted_column_high by lia. }
  rewrite <- (mapM_option_map (fun k => nth k p 0)
                (fun i => floats_of_cells (column_cells rows na (first + i)))).
  rewrite map_nth_seq.
  pose proof (mapM_option_pick _ _ _ 0 [] p H) as Hpick.
  rewrite length_seq in Hpick. specialize (Hpick in_range).
  replace (pick 0 (seq 0 (List.length p)) p) with p in Hpick; [exact Hpick|].
  unfold pick. rewrite <- (map_id p) at 1. apply map_ext_in.
  intros i Hi. rewrite Forall_forall in in_range.
  now rewrite seq_nth by auto.
Qed.

(** The cell of the reordered table under the [j]-th name is the cell of
    the original table under the [p(j)]-th name. *)
Lemma permuted_cell (names : list string) (xss : list (list float64))
    (index : Index) (j : nat) (name name' : string) (i : nat) :
  NoDup names -> List.length names = List.length p ->
  List.length xss = List.length p ->
  nth_error names j = Some name ->
  nth_error names (nth j p 0) = Some name' ->
  frame_cell (float_table index names (pick [] xss p)) name i
  = frame_cell (float_table index names xss) name' i.
Proof.
  intros Hnd Hnames Hxss Hj Hpj.
  assert (j < List.length p) as Hlt
    by (rewrite <- Hnames; apply nth_error_Some; congruence).
  assert (nth j p 0 < List.length xss) as Hlt'
    by (rewrite Hxss, <- Hnames; apply nth_error_Some; congruence).
  rewrite (float_table_cell index names (pick [] xss p) j name
             (nth (nth j p 0) xss []) i Hnd).
  - symmetry. apply float_table_cell with (k := nth j p 0); try assumption.
    + congruence.
    + now apply nth_error_nth'.
  - unfold pick. rewrite length_map. congruence.
  - assumption.
  - unfold pick. rewrite nth_error_map.
    now rewrite (nth_error_nth' p 0 Hlt).
Qed.

End Reordering.

Lemma permutation_in_range (p : list nat) (n : nat) :
  Permutation p (seq 0 n) ->
  List.length p = n /\ Forall (fun i => i < List.length p) p.
Proof.
  intros H. pose proof (Permutation_length H) as Hlen.
  rewrite length_seq in Hlen. split; [exact Hlen|].
  apply Forall_forall. intros i Hi.
  apply (Permutation_in _ H), in_seq in Hi. lia.
Qed.



(* ================================================================== *)
(** * 26. Two label codes, no fewer *)
(* ================================================================== *)

(** X1.  For a file with no record longer than the schema (32 fields,
    35 for the prognosis), either loader returns a result only when the
    label column holds exactly two distinct codes (label fields that are
    not missing-value tokens).  Such a file with at most one code, the
    empty file and the single-class file included, makes the load fail in
    [rename_categories], whatever its feature fields hold: the renaming
    comes before the float conversion. *)
Theorem two_label_codes_required :
  forall (G : Type) (w : world G) (path : string) (rows : csv_file),
    fs w path = Some rows ->
    (Forall (fun r => List.length r <= 32) rows ->
     (forall X y w',
        load_wisconsin_breast_cancer_diagnosis path w = (Returns (X, y), w') ->
        exists c1 c2,
          before c1 c2
          /\ In c1 (map raw_label rows) /\ In c2 (map raw_label rows)
          /\ Forall (fun r => is_na na_diagnosis (raw_label r) = true
                              \/ raw_label r = c1 \/ raw_label r = c2) rows)
     /\ (forall c,
           Forall (fun r => raw_label r = c
                            \/ is_na na_diagnosis (raw_label r) = true) rows ->
           load_wisconsin_breast_cancer_diagnosis path w
           = (Raises (ValueError categories_length_mismatch), w)))
    /\ (Forall (fun r => List.length r <= 35) rows ->
        (forall X y w',
           load_wisconsin_breast_cancer_prognosis path w = (Returns (X, y), w') ->
           exists c1 c2,
             before c1 c2
             /\ In c1 (map raw_label rows) /\ In c2 (map raw_label rows)
             /\ Forall (fun r => is_na na_prognosis (raw_label r) = true
                                 \/ raw_label r = c1 \/ raw_label r = c2) rows)
        /\ (forall c,
              Forall (fun r => raw_label r = c
                               \/ is_na na_prognosis (raw_label r) = true) rows ->
              load_wisconsin_breast_cancer_prognosis path w
              = (Raises (ValueError categories_length_mismatch), w))).
Proof.
  intros G w path rows Hfs. split; intros Hwidth; split.
  - intros X y w' Hload.
    rewrite diagnosis_run, Hfs in Hload. cbn [on_file] in Hload.
    injection Hload as Hres _.
    apply diagnosis_returns in Hres as (_ & Hlen & _).
    destruct (two_categories_inv rows na_diagnosis Hlen)
      as (c1 & c2 & _ & Hlt & _ & _ & H1 & H2 & Hall).
    now exists c1, c2.
  - intros c Hone.
    rewrite diagnosis_run, Hfs. cbn [on_file].
    now rewrite diagnosis_result_eq, (too_long_false 32 rows Hwidth),
      (one_code_categories rows _ c Hone).
  - intros X y w' Hload.
    rewrite prognosis_run, Hfs in Hload. cbn [on_file] in Hload.
    injection Hload as Hres _.
    apply prognosis_returns in Hres as (_ & Hlen & _).
    destruct (two_categories_inv rows na_prognosis Hlen)
      as (c1 & c2 & _ & Hlt & _ & _ & H1 & H2 & Hall).
    now exists c1, c2.
  - intros c Hone.
    rewrite prognosis_run, Hfs. cbn [on_file].
    now rewrite prognosis_result_eq, (too_long_false 35 rows Hwidth),
      (one_code_categories rows _ c Hone).
Qed.

Lemma two_label_codes_required_witness :
  field 2 (nth 0 single_class_diagnosis_records []) = "n/k"
  /\ load_wisconsin_breast_cancer_diagnosis wdbc_data
       (world_with wdbc_data single_class_diagnosis_records)
     = (Raises (ValueError categories_length_mismatch),
        world_with wdbc_data single_class_diagnosis_records)
  /\ load_wisconsin_breast_cancer_prognosis wpbc_data
       (world_with wpbc_data [])
     = (Raises (ValueError categories_length_mismatch),
        world_with wpbc_data []).
Proof.
  split; [reflexivity|]. split.
  - destruct (two_label_codes_required unit
                (world_with wdbc_data single_class_diagnosis_records) wdbc_data
                single_class_diagnosis_records eq_refl) as (H & _).
    destruct H as [_ H].
    + repeat (constructor; [vm_compute; lia|]). constructor.
    + apply (H "B").
      repeat (constructor; [left; reflexivity|]). constructor.
  - destruct (two_label_codes_required unit (world_with wpbc_data [])
                wpbc_data [] eq_refl) as (_ & H).
    exact (proj2 (H (Forall_nil _)) "" (Forall_nil _)).
Defined.

(* ================================================================== *)
(** * 27. The numbers in the feature table *)
(* ================================================================== *)



(* ================================================================== *)
(** * 28. Identifiers and times take no part in the conversion *)
(* ================================================================== *)

Lemma same_but_cells (free : list nat) (na : list string) (j : nat)
    (rows rows' : csv_file) :
  Forall2 (same_but free) rows rows' -> ~ In j free ->
  column_cells rows na j = column_cells rows' na j.
Proof.
  intros H Hj. induction H as [|r r' rows rows' [_ Hr] _ IH]; [reflexivity|].
  cbn [column_cells map]. fold (column_cells rows na j) (column_cells rows' na j).
  rewrite IH. change (nth j r "") with (field j r).
  change (nth j r' "") with (field j r'). now rewrite (Hr j Hj).
Qed.

Lemma same_but_too_long (free : list nat) (n : nat) (rows rows' : csv_file) :
  Forall2 (same_but free) rows rows' -> too_long n rows = too_long n rows'.
Proof.
  intros H. unfold too_long.
  induction H as [|r r' rows rows' [Hlen _] _ IH]; [reflexivity|].
  cbn [existsb]. now rewrite IH, Hlen.
Qed.

Lemma same_but_features (free : list nat) (na : list string) (first n : nat)
    (rows rows' : csv_file) :
  Forall2 (same_but free) rows rows' ->
  (forall j, first <= j -> ~ In j free) ->
  feature_floats rows na first n = feature_floats rows' na first n.
Proof.
  intros H Hfree. unfold feature_floats. apply mapM_option_ext.
  intros j Hj. apply in_seq in Hj.
  rewrite (same_but_cells free na j rows rows' H); [reflexivity|].
  apply Hfree. lia.
Qed.

Lemma column_cells_fields (rows : csv_file) (na : list string) (j : nat) :
  column_cells rows na j = map (fun r => na_filter na (field j r)) rows.
Proof. reflexivity. Qed.

(** The values of a column of 64-bit integers, none missing. *)
Lemma integer_column_values (rows : csv_file) (extra : list string) (j : nat) :
  incl extra ["?"] -> rows <> [] ->
  Forall (fun r => is_int64_token (field j r) = true) rows ->
  column_values (infer_column (column_cells rows (default_na_values ++ extra) j))
  = Some (map (fun r => IntVal (int_value (field j r))) rows).
Proof.
  intros Hex Hne Hall.
  assert (column_cells rows (default_na_values ++ extra) j
          = map (fun r => Some (field j r)) rows) as Hcells.
  { apply map_ext_in. intros r Hr. rewrite Forall_forall in Hall.
    apply (int_token_present extra _ Hex), Hall, Hr. }
  rewrite Hcells. unfold infer_column. rewrite infer_reading_integers.
  - cbn [column_values]. unfold read_scalars. rewrite mapM_option_map.
    apply mapM_option_all_some. intros r Hr. cbn [read_scalar].
    rewrite Forall_forall in Hall. specialize (Hall r Hr).
    unfold is_int64_token in Hall. unfold int_value.
    now destruct (int_of_token (field j r)).
  - destruct rows; [congruence | discriminate].
  - apply Forall_map. eapply Forall_impl; [|exact Hall].
    intros r Hr. now exists (field j r).
Qed.

(** X3.  The identifier field and, in the prognosis file, the time field
    take no part in the float conversion: when a file with no record
    longer than the schema loads, it loads with any tokens whatever in
    these fields, with the same feature columns and the same labels.  The
    index and the [time] column are what [read_csv] reads from the new
    tokens, a missing-value token being missing and the type being
    inferred: when every time field is an integer of 64 bits, the [time]
    column holds the integers, [031] being read as 31. *)
Theorem identifier_and_time_not_converted :
  forall (G : Type) (w w' : world G) (path path' : string)
         (rows rows' : csv_file),
    fs w path = Some rows -> fs w' path' = Some rows' ->
    (Forall (fun r => List.length r <= 32) rows ->
     Forall2 (same_but [0]) rows rows' ->
     forall X y,
       fst (load_wisconsin_breast_cancer_diagnosis path w) = Returns (X, y) ->
       exists X' y',
         fst (load_wisconsin_breast_cancer_diagnosis path' w')
         = Returns (X', y')
         /\ df_columns X' = df_columns X
         /\ s_values y' = s_values y
         /\ ix_cells (df_index X')
            = map (fun r => na_filter na_diagnosis (identifier r)) rows'
         /\ s_index y' = df_index X')
    /\ (Forall (fun r => List.length r <= 35) rows ->
        Forall2 (same_but [0; 2]) rows rows' ->
        forall X y,
          fst (load_wisconsin_breast_cancer_prognosis path w) = Returns (X, y) ->
          exists X' y' time,
            fst (load_wisconsin_breast_cancer_prognosis path' w')
            = Returns (X', y')
            /\ df_columns X' = df_columns X
            /\ lookup_column "outcome" (df_columns y')
               = lookup_column "outcome" (df_columns y)
            /\ ix_cells (df_index X')
               = map (fun r => na_filter na_prognosis (identifier r)) rows'
            /\ df_index y' = df_index X'
            /\ lookup_column "time" (df_columns y') = Some time
            /\ column_labels time
               = map (fun r => na_filter na_prognosis (field 2 r)) rows'
            /\ (Forall (fun r => is_int64_token (field 2 r) = true) rows' ->
                column_values time
                = Some (map (fun r => IntVal (int_value (field 2 r))) rows'))).
Proof.
  intros G w w' path path' rows rows' Hfs Hfs'. split.
  - intros _ Hsame X y Hload.
    rewrite diagnosis_run, Hfs in Hload. cbn [fst on_file] in Hload.
    apply diagnosis_returns in Hload as (Hlong & Hlen & xss & Hxss & -> & ->).
    rewrite diagnosis_run, Hfs'. cbn [fst on_file].
    rewrite diagnosis_result_eq.
    rewrite <- (same_but_too_long [0] 32 rows rows' Hsame), Hlong.
    unfold parsed_labels.
    rewrite <- (same_but_cells [0] na_diagnosis 1 rows rows' Hsame)
      by (simpl; lia).
    fold (parsed_labels rows na_diagnosis). rewrite Hlen. cbn [Nat.eqb].
    rewrite <- (same_but_features [0] na_diagnosis 2 30 rows rows' Hsame), Hxss
      by (intros j Hj; simpl; lia).
    eexists. eexists. split; [reflexivity|]. repeat split.
  - intros _ Hsame X y Hload.
    rewrite prognosis_run, Hfs in Hload. cbn [fst on_file] in Hload.
    apply prognosis_returns in Hload as (Hlong & Hlen & xss & Hxss & -> & ->).
    assert (rows' <> []) as Hne.
    { apply two_categories_rows in Hlen. inversion Hsame; congruence. }
    rewrite prognosis_run, Hfs'. cbn [fst on_file].
    rewrite prognosis_result_eq.
    rewrite <- (same_but_too_long [0; 2] 35 rows rows' Hsame), Hlong.
    unfold parsed_labels.
    rewrite <- (same_but_cells [0; 2] na_prognosis 1 rows rows' Hsame)
      by (simpl; lia).
    fold (parsed_labels rows na_prognosis). rewrite Hlen. cbn [Nat.eqb].
    rewrite <- (same_but_features [0; 2] na_prognosis 3 32 rows rows' Hsame), Hxss
      by (intros j Hj; simpl; lia).
    eexists. eexists. eexists. split; [reflexivity|].
    cbn [float_table df_columns df_index lookup_column String.eqb Ascii.eqb
         Bool.eqb].
    split; [reflexivity|]. split; [reflexivity|]. split; [reflexivity|].
    split; [reflexivity|]. split; [reflexivity|]. split; [reflexivity|].
    intros Hall.
    exact (integer_column_values rows' ["?"] 2 (incl_refl _) Hne Hall).
Qed.

Lemma identifier_and_time_not_converted_witness :
  (exists X' y',
     fst (load_wisconsin_breast_cancer_prognosis wpbc_data
            (world_with wpbc_data retimed_prognosis_records))
     = Returns (X', y')
     /\ ix_cells (df_index X') = [Some "A-1"; Some "A-2"; Some "A-3"]
     /\ frame_labels y' "time" = [Some "about 31"; None; None])
  /\ exists X' y' time,
       fst (load_wisconsin_breast_cancer_prognosis wpbc_data
              (world_with wpbc_data zero_padded_prognosis_records))
       = Returns (X', y')
       /\ lookup_column "time" (df_columns y') = Some time
       /\ column_labels time = [Some "031"; Some "+61"; Some "0116"]
       /\ column_values time = Some [IntVal 31; IntVal 61; IntVal 116].
Proof.
  assert (exists X y,
            fst (load_wisconsin_breast_cancer_prognosis wpbc_data
                   (world_with wpbc_data three_prognosis_records))
            = Returns (X, y))
    as (X & y & E) by (eexists; eexists; vm_compute; reflexivity).
  assert (Forall (fun r => List.length r <= 35) three_prognosis_records)
    as Hwidth by (repeat (constructor; [vm_compute; lia|]); constructor).
  split.
  - assert (Forall2 (same_but [0; 2]) three_prognosis_records
              retimed_prognosis_records) as Hsame.
    { repeat (constructor;
              [split; [reflexivity|];
               intros j Hj;
               do 3 (destruct j as [|j]; [try reflexivity; exfalso; apply Hj; simpl; tauto|]);
               reflexivity|]).
      constructor. }
    destruct (identifier_and_time_not_converted unit
                (world_with wpbc_data three_prognosis_records)
                (world_with wpbc_data retimed_prognosis_records)
                wpbc_data wpbc_data _ _ eq_refl eq_refl) as [_ H].
    destruct (H Hwidth Hsame X y E)
      as (X' & y' & time & E' & _ & _ & Hidx & _ & Htime & Hlabels & _).
    exists X', y'. split; [exact E'|]. split; [exact Hidx|].
    unfold frame_labels. rewrite Htime. exact Hlabels.
  - assert (Forall2 (same_but [0; 2]) three_prognosis_records
              zero_padded_prognosis_records) as Hsame.
    { repeat (constructor;
              [split; [reflexivity|];
               intros j Hj;
               do 3 (destruct j as [|j]; [try reflexivity; exfalso; apply Hj; simpl; tauto|]);
               reflexivity|]).
      constructor. }
    destruct (identifier_and_time_not_converted unit
                (world_with wpbc_data three_prognosis_records)
                (world_with wpbc_data zero_padded_prognosis_records)
                wpbc_data wpbc_data _ _ eq_refl eq_refl) as [_ H].
    destruct (H Hwidth Hsame X y E)
      as (X' & y' & time & E' & _ & _ & _ & _ & Htime & Hlabels & Hvalues).
    exists X', y', time. split; [exact E'|]. split; [exact Htime|].
    split; [exact Hlabels|].
    apply Hvalues. repeat (constructor; [reflexivity|]). constructor.
Defined.

(* ================================================================== *)
(** * 29. The order of the records *)
(* ================================================================== *)

Lemma pick_map {A B : Type} (f : A -> B) (d : A) (d' : B) (l : list A)
    (p : list nat) :
  Forall (fun i => i < List.length l) p ->
  map f (pick d l p) = pick d' (map f l) p.
Proof.
  intros H. unfold pick. rewrite map_map. apply map_ext_in. intros i Hi.
  rewrite Forall_forall in H. specialize (H i Hi).
  rewrite (nth_indep (map f l) d' (f d)) by now rewrite length_map.
  symmetry. apply map_nth.
Qed.

Lemma pick_permutation {A : Type} (d : A) (l : list A) (p : list nat) :
  Permutation p (seq 0 (List.length l)) -> Permutation (pick d l p) l.
Proof.
  intros H. unfold pick.
  apply Permutation_trans
    with (map (fun i => nth i l d) (seq 0 (List.length l))).
  - now apply Permutation_map.
  - rewrite map_nth_seq. apply Permutation_refl.
Qed.

Lemma pick_in_range {A : Type} (l : list A) (p : list nat) :
  Permutation p (seq 0 (List.length l)) ->
  Forall (fun i => i < List.length l) p.
Proof.
  intros H. destruct (permutation_in_range p _ H) as [Hlen Hall].
  now rewrite Hlen in Hall.
Qed.

Lemma mapM_option_none {A B : Type} (f : A -> option B) (l : list A) :
  mapM_option f l = None -> exists a, In a l /\ f a = None.
Proof.
  induction l as [|a l IH]; [discriminate|]. simpl.
  destruct (f a) as [b|] eqn:Ha; [|intros _; exists a; split; [now left | assumption]].
  destruct (mapM_option f l); [discriminate|].
  intros _. destruct (IH eq_refl) as (a' & Hin & Ha').
  exists a'. split; [now right | assumption].
Qed.

Lemma mapM_option_map_some {A B : Type} (f g : A -> option B) (h : B -> B)
    (l : list A) :
  forall r,
    mapM_option f l = Some r ->
    (forall a b, In a l -> f a = Some b -> g a = Some (h b)) ->
    mapM_option g l = Some (map h r).
Proof.
  induction l as [|a l IH]; intros r H Hg.
  - injection H as <-. reflexivity.
  - apply mapM_option_inv in H as (b & bs & Ha & Hl & ->).
    cbn [map]. apply mapM_option_cons_some.
    + apply Hg; [now left | assumption].
    + apply IH; [assumption|]. intros a' b' Hin. apply Hg. now right.
Qed.

Lemma forallb_permutation {A : Type} (f : A -> bool) (l l' : list A) :
  Permutation l l' -> forallb f l = forallb f l'.
Proof.
  induction 1 as [|x l l' _ IH|x y l|l l' l'' _ IH1 _ IH2]; cbn [forallb].
  - reflexivity.
  - now rewrite IH.
  - now destruct (f x), (f y).
  - now rewrite IH1.
Qed.

Lemma existsb_permutation {A : Type} (f : A -> bool) (l l' : list A) :
  Permutation l l' -> existsb f l = existsb f l'.
Proof.
  induction 1 as [|x l l' _ IH|x y l|l l' l'' _ IH1 _ IH2]; cbn [existsb].
  - reflexivity.
  - now rewrite IH.
  - now destruct (f x), (f y).
  - now rewrite IH1.
Qed.

(** The reading inferred for a column does not depend on the order of its
    cells. *)
Lemma infer_reading_permutation (cells cells' : list cell) :
  Permutation cells cells' -> infer_reading cells = infer_reading cells'.
Proof.
  intros H. unfold infer_reading, some_present, every_present.
  destruct cells as [|c cells], cells' as [|c' cells'].
  - reflexivity.
  - now apply Permutation_nil in H.
  - now apply Permutation_sym, Permutation_nil in H.
  - now rewrite (existsb_permutation _ _ _ H),
      !(forallb_permutation _ _ _ H), (existsb_permutation is_missing _ _ H).
Qed.

Lemma index_reading_permutation (cells cells' : list cell) :
  Permutation cells cells' -> index_reading cells = index_reading cells'.
Proof.
  intros H. unfold index_reading, some_present.
  now rewrite (infer_reading_permutation _ _ H),
    (existsb_permutation is_missing _ _ H), (existsb_permutation _ _ _ H).
Qed.

(** Converting the cells of a column in another order gives the floats in
    that order. *)
Lemma floats_of_cells_pick (cells : list cell) (xs : list float64)
    (p : list nat) :
  Permutation p (seq 0 (List.length cells)) ->
  floats_of_cells cells = Some xs ->
  floats_of_cells (pick None cells p) = Some (pick NaN xs p).
Proof.
  intros Hp H. pose proof (pick_in_range cells p Hp) as Hrange.
  rewrite floats_of_cells_read in *.
  rewrite (infer_reading_permutation _ _ (pick_permutation None cells p Hp)).
  exact (mapM_option_pick _ cells xs None NaN p H Hrange).
Qed.

Lemma column_cells_pick (rows : csv_file) (na : list string) (j : nat)
    (p : list nat) :
  Forall (fun i => i < List.length rows) p ->
  column_cells (pick [] rows p) na j = pick None (column_cells rows na j) p.
Proof. intros H. unfold column_cells. now apply pick_map. Qed.

Lemma too_long_pick (n : nat) (rows : csv_file) (p : list nat) :
  Permutation p (seq 0 (List.length rows)) ->
  too_long n rows = false -> too_long n (pick [] rows p) = false.
Proof.
  intros Hp H. unfold too_long in *.
  destruct (existsb _ (pick [] rows p)) eqn:E; [|reflexivity].
  apply existsb_exists in E as (r & Hr & Hlt).
  apply (Permutation_in r (pick_permutation [] rows p Hp)) in Hr.
  rewrite <- H. symmetry. apply existsb_exists. now exists r.
Qed.

(** The label column of the rearranged file: the same categories, the
    codes rearranged. *)
Lemma parsed_labels_pick (rows : csv_file) (na : list string) (p : list nat) :
  Permutation p (seq 0 (List.length rows)) ->
  parsed_labels (pick [] rows p) na
  = {| categories := categories (parsed_labels rows na);
       codes := pick None (codes (parsed_labels rows na)) p |}.
Proof.
  intros Hp. pose proof (pick_in_range rows p Hp) as Hrange.
  unfold parsed_labels, factorize. cbn [categories codes].
  rewrite (column_cells_pick rows na 1 p Hrange).
  assert (Permutation (pick None (column_cells rows na 1) p)
            (column_cells rows na 1)) as Hperm
    by (apply pick_permutation; now rewrite column_cells_length).
  rewrite (sorted_categories_same (pick None (column_cells rows na 1) p)
             (column_cells rows na 1)).
  - f_equal. apply pick_map. now rewrite column_cells_length.
  - intros t. split; intros Hin.
    + exact (Permutation_in _ Hperm Hin).
    + exact (Permutation_in _ (Permutation_sym Hperm) Hin).
Qed.

Lemma feature_floats_pick (rows : csv_file) (na : list string) (first n : nat)
    (xss : list (list float64)) (p : list nat) :
  Permutation p (seq 0 (List.length rows)) ->
  feature_floats rows na first n = Some xss ->
  feature_floats (pick [] rows p) na first n
  = Some (map (fun xs => pick NaN xs p) xss).
Proof.
  intros Hp H. unfold feature_floats in *.
  apply (mapM_option_map_some _ _ _ _ _ H).
  intros j xs _ Hj.
  rewrite (column_cells_pick rows na j p (pick_in_range rows p Hp)).
  apply floats_of_cells_pick; [|exact Hj]. now rewrite column_cells_length.
Qed.

Lemma read_index_pick (rows : csv_file) (na : list string) (p : list nat) :
  Permutation p (seq 0 (List.length rows)) ->
  read_index (pick [] rows p) na 0 = take_index p (read_index rows na 0).
Proof.
  intros Hp. unfold read_index, take_index. cbn [ix_cells ix_as].
  rewrite (column_cells_pick rows na 0 p (pick_in_range rows p Hp)).
  f_equal. apply index_reading_permutation, pick_permutation.
  now rewrite column_cells_length.
Qed.

Lemma infer_column_pick (rows : csv_file) (na : list string) (j : nat)
    (p : list nat) :
  Permutation p (seq 0 (List.length rows)) ->
  infer_column (column_cells (pick [] rows p) na j)
  = take_column p (infer_column (column_cells rows na j)).
Proof.
  intros Hp. unfold infer_column. cbn [take_column].
  rewrite (column_cells_pick rows na j p (pick_in_range rows p Hp)).
  f_equal. apply infer_reading_permutation, pick_permutation.
  now rewrite column_cells_length.
Qed.

Lemma take_float_table (p : list nat) (index : Index) (names : list string) :
  forall xss,
    take_frame p (float_table index names xss)
    = float_table (take_index p index) names
        (map (fun xs => pick NaN xs p) xss).
Proof.
  intros xss. unfold take_frame, float_table. cbn [df_index df_columns].
  f_equal. revert xss.
  induction names as [|n names IH]; intros [|xs xss]; try reflexivity.
  cbn [map combine fst snd take_column]. now rewrite IH.
Qed.



(* ================================================================== *)
(** * 30. The cells that call the loaders *)
(* ================================================================== *)

(** The rows under each code of a label column with two codes and,
    possibly, missing labels. *)
Lemma count_code_present (na : list string) (c1 c2 : string) (rows : csv_file) :
  c1 <> c2 -> is_na na c1 = false -> is_na na c2 = false ->
  Forall (fun r => is_na na (raw_label r) = true
                   \/ raw_label r = c1 \/ raw_label r = c2) rows ->
  count_code 0 (map (code_of [c1; c2]) (column_cells rows na 1))
  = count_label c1 rows
  /\ count_code 1 (map (code_of [c1; c2]) (column_cells rows na 1))
     = count_label c2 rows
  /\ count_label c1 rows + count_label c2 rows + count_missing_labels na rows
     = List.length rows.
Proof.
  intros Hne H1 H2 Hall. unfold count_code, count_label, count_missing_labels.
  induction Hall as [|r rows Hr _ IH]; [repeat split|].
  destruct IH as (IH0 & IH1 & IH2).
  cbn [column_cells map filter]. fold (column_cells rows na 1).
  change (nth 1 r "") with (raw_label r). unfold na_filter.
  destruct Hr as [Hna | [E | E]].
  - rewrite Hna. cbn [code_of].
    destruct (String.eqb_spec (raw_label r) c1) as [E|_]; [congruence|].
    destruct (String.eqb_spec (raw_label r) c2) as [E|_]; [congruence|].
    cbn [List.length]. repeat split; lia.
  - rewrite E, H1. cbn [code_of index_of]. rewrite String.eqb_refl.
    destruct (String.eqb_spec c1 c2) as [E'|_]; [contradiction|].
    cbn [Nat.eqb List.length]. repeat split; lia.
  - rewrite E, H2. cbn [code_of index_of].
    destruct (String.eqb_spec c2 c1) as [E'|_]; [congruence|].
    rewrite String.eqb_refl. cbn [option_map Nat.eqb List.length].
    repeat split; lia.
Qed.

Lemma count_label_positive (c : string) (rows : csv_file) :
  In c (map raw_label rows) -> 1 <= count_label c rows.
Proof.
  unfold count_label. induction rows as [|r rows IH]; [contradiction|].
  cbn [map filter]. intros [E | Hin].
  - rewrite E, String.eqb_refl. cbn [List.length]. lia.
  - specialize (IH Hin). destruct (String.eqb (raw_label r) c);
      cbn [List.length]; lia.
Qed.

(** The counts of a two-category column: one entry per category, the
    larger count first. *)
Lemma value_counts_pair (n1 n2 : string) (cs : list (option nat)) :
  let counts := value_counts {| categories := [n1; n2]; codes := cs |} in
  Permutation counts [(n1, count_code 0 cs); (n2, count_code 1 cs)]
  /\ StronglySorted (fun a b => snd b <= snd a) counts.
Proof.
  unfold value_counts. cbn [categories codes List.length seq combine map
                            fst snd fold_right insert_by_count].
  destruct (Nat.leb_spec (count_code 1 cs) (count_code 0 cs)) as [Hle|Hlt].
  - split; [apply Permutation_refl|].
    repeat constructor. simpl. lia.
  - split; [apply perm_swap|].
    repeat constructor. simpl. lia.
Qed.

Lemma boolean_select_cons {A : Type} (x : A) (xs : list A) (b : bool)
    (mask : list bool) :
  boolean_select (x :: xs) (b :: mask)
  = if b then x :: boolean_select xs mask else boolean_select xs mask.
Proof. now destruct b. Qed.

(** The rows a comparison with a target name selects: those of the code
    that was given the name. *)
Lemma selected_by_name (na : list string) (c1 c2 n1 n2 : string) (j : nat)
    (rows : csv_file) :
  c1 <> c2 -> n1 <> n2 -> is_na na c1 = false -> is_na na c2 = false ->
  Forall (fun r => is_na na (raw_label r) = true
                   \/ raw_label r = c1 \/ raw_label r = c2) rows ->
  let labels :=
    categorical_values
      {| categories := [n1; n2];
         codes := map (code_of [c1; c2]) (column_cells rows na 1) |} in
  let mask (n : string) :=
    map (fun l => match l with
                  | Some v => String.eqb v n
                  | None => false
                  end) labels in
  boolean_select (column_cells rows na j) (mask n1)
  = map (fun r => na_filter na (field j r))
        (filter (fun r => String.eqb (raw_label r) c1) rows)
  /\ boolean_select (column_cells rows na j) (mask n2)
     = map (fun r => na_filter na (field j r))
           (filter (fun r => String.eqb (raw_label r) c2) rows).
Proof.
  intros Hne Hnn H1 H2 Hall. cbv zeta. unfold categorical_values.
  cbn [categories codes].
  induction Hall as [|r rows Hr _ IH]; [split; reflexivity|].
  destruct IH as [IHa IHb].
  cbn [column_cells map filter]. fold (column_cells rows na 1).
  fold (column_cells rows na j). rewrite !boolean_select_cons.
  change (nth 1 r "") with (raw_label r).
  change (nth j r "") with (field j r). unfold na_filter at 1 4.
  destruct Hr as [Hna | [E | E]].
  - rewrite Hna. cbn [code_of value_of_code].
    destruct (String.eqb_spec (raw_label r) c1) as [E|_]; [congruence|].
    destruct (String.eqb_spec (raw_label r) c2) as [E|_]; [congruence|].
    now split.
  - rewrite E, H1. cbn [code_of index_of]. rewrite String.eqb_refl.
    cbn [value_of_code nth_error]. rewrite String.eqb_refl.
    destruct (String.eqb_spec c1 c2) as [E'|_]; [contradiction|].
    destruct (String.eqb_spec n1 n2) as [E'|_]; [contradiction|].
    cbn [map]. now rewrite IHa, IHb.
  - rewrite E, H2. cbn [code_of index_of].
    destruct (String.eqb_spec c2 c1) as [E'|_]; [congruence|].
    rewrite String.eqb_refl. cbn [option_map value_of_code nth_error].
    rewrite String.eqb_refl.
    destruct (String.eqb_spec n2 n1) as [E'|_]; [congruence|].
    cbn [map]. now rewrite IHa, IHb.
Qed.

Lemma parsed_codes (rows : csv_file) (na : list string) :
  codes (parsed_labels rows na)
  = map (code_of (categories (parsed_labels rows na))) (column_cells rows na 1).
Proof. reflexivity. Qed.

Lemma diagnosis_cell_run (G : Type) (w : world G) (rows : csv_file)
    (X : DataFrame) (y : Series) :
  fs w wdbc_data = Some rows -> diagnosis_result rows = Returns (X, y) ->
  diagnosis_cell w = (Returns (shape X, series_value_counts y), w).
Proof.
  intros Hfs Hres. unfold diagnosis_cell, bind.
  now rewrite diagnosis_run, Hfs; cbn [on_file]; rewrite Hres.
Qed.

Lemma prognosis_cell_run (G : Type) (w : world G) (rows : csv_file)
    (X : DataFrame) (index : Index) (c : Categorical) (times : column) :
  fs w wpbc_data = Some rows ->
  prognosis_result rows
  = Returns (X, {| df_index := index;
                   df_columns := [("outcome", CategoryCol c);
                                  ("time", times)] |}) ->
  let outcome := {| s_index := index; s_name := "outcome";
                    s_values := CategoryCol c |} in
  let time := {| s_index := index; s_name := "time";
                 s_values := times |} in
  prognosis_cell w
  = (Returns (shape X, value_counts c,
              [("recurring",
                series_select time (series_eq outcome "recurring"));
               ("nonrecurring",
                series_select time (series_eq outcome "nonrecurring"))]), w).
Proof.
  intros Hfs Hres. unfold prognosis_cell, bind at 1.
  now rewrite prognosis_run, Hfs; cbn [on_file]; rewrite Hres.
Qed.





(* ================================================================== *)
(** * 31. The prediction display *)
(* ================================================================== *)

Section DisplayLoop.

Import Display.

Variable Pixel : Type.

Lemma same_position_eq (p q : nat * nat * nat) :
  same_position p q = true <-> p = q.
Proof.
  destruct p as [[a b] c], q as [[a' b'] c']. unfold same_position.
  rewrite !andb_true_iff, !Nat.eqb_eq. split.
  - intros [[-> ->] ->]. reflexivity.
  - intros [= -> -> ->]. repeat split.
Qed.

Lemma find_axes_none (position : nat * nat * nat) (axes : list (Axes Pixel)) :
  Forall (fun a => ax_position a <> position) axes ->
  find_axes position axes = None.
Proof.
  induction 1 as [|a axes Ha _ IH]; [reflexivity|].
  cbn [find_axes]. rewrite IH.
  destruct (same_position (ax_position a) position) eqn:E; [|reflexivity].
  apply same_position_eq in E. contradiction.
Qed.

Lemma update_nth_last {A : Type} (f : A -> A) (l : list A) (a : A) :
  update_nth (List.length l) f (l ++ [a]) = l ++ [f a].
Proof.
  induction l as [|b l IH]; [reflexivity|].
  cbn [List.length app update_nth]. now rewrite IH.
Qed.

Lemma update_nth_beyond {A : Type} (f : A -> A) (l : list A) :
  update_nth (List.length l) f l = l.
Proof.
  induction l as [|b l IH]; [reflexivity|].
  cbn [List.length update_nth]. now rewrite IH.
Qed.

(** [subplot] at a free place of the current figure. *)
Lemma subplot_new (pre : list (Figure Pixel)) (size : Q * Q)
    (axes : list (Axes Pixel)) (nrows ncols num : nat) :
  find_axes (nrows, ncols, num) axes = None ->
  1 <= num <= nrows * ncols ->
  subplot nrows ncols num (pre ++ [{| fig_size := size; fig_axes := axes |}])
  = (Ok (List.length axes),
     pre ++ [{| fig_size := size;
                fig_axes := axes ++ [new_axes Pixel (nrows, ncols, num)] |}]).
Proof.
  intros Hfree [H1 H2]. unfold subplot.
  assert (match pre ++ [{| fig_size := size; fig_axes := axes |}] with
          | [] => [default_figure Pixel]
          | _ :: _ => pre ++ [{| fig_size := size; fig_axes := axes |}]
          end = pre ++ [{| fig_size := size; fig_axes := axes |}]) as ->
    by now destruct pre.
  cbv zeta. rewrite last_last, removelast_last. cbn [fig_axes fig_size].
  apply Nat.leb_le in H1, H2. now rewrite H1, H2, Hfree.
Qed.

Lemma subplot_rejects (pre : list (Figure Pixel)) (fig : Figure Pixel)
    (nrows ncols num : nat) :
  nrows * ncols < num ->
  subplot nrows ncols num (pre ++ [fig])
  = (Error (ValueError (subplot_out_of_range num)), pre ++ [fig]).
Proof.
  intros H. unfold subplot.
  assert (match pre ++ [fig] with
          | [] => [default_figure Pixel]
          | _ :: _ => pre ++ [fig]
          end = pre ++ [fig]) as -> by now destruct pre.
  cbv zeta. apply Nat.leb_gt in H. now rewrite H, andb_false_r.
Qed.

(** A method call on an axes of the current figure. *)
Lemma on_axes_current (pre : list (Figure Pixel)) (size : Q * Q)
    (axes : list (Axes Pixel)) (h : nat) (f : Axes Pixel -> Axes Pixel) :
  on_axes h f (pre ++ [{| fig_size := size; fig_axes := axes |}])
  = (Ok tt, pre ++ [{| fig_size := size; fig_axes := update_nth h f axes |}]).
Proof.
  unfold on_axes.
  destruct (pre ++ [{| fig_size := size; fig_axes := axes |}]) eqn:E.
  - now destruct pre.
  - rewrite <- E. cbv zeta. now rewrite last_last, removelast_last.
Qed.

(** One pass through the loop body for a displayable example: the panel
    of the example is added to the current figure. *)
Lemma display_one_panel (n : nat) (images_test : list (list Pixel))
    (labels_test : list Z) (i : nat) (p : prediction)
    (pre : list (Figure Pixel)) (size : Q * Q) (axes : list (Axes Pixel))
    (image : list Pixel) (actual z : Z) (zs : list Z) :
  i < n ->
  find_axes (2, n, i + 1) axes = None ->
  nth_error images_test i = Some image -> List.length image = 784 ->
  nth_error labels_test i = Some actual ->
  lookup "class_ids" p = Some (z :: zs) ->
  display_one n images_test labels_test i p
    (pre ++ [{| fig_size := size; fig_axes := axes |}])
  = (Ok tt,
     pre ++ [{| fig_size := size;
                fig_axes := axes ++ [panel n i image z actual] |}]).
Proof.
  intros Hi Hfree Himage Hsize Hactual Hclass.
  unfold display_one, bind.
  rewrite (subplot_new pre size axes 2 n (i + 1) Hfree) by lia.
  unfold index_array at 1. rewrite Himage. unfold ret at 1.
  unfold reshape. rewrite Hsize.
  change (784 =? 28 * 28) with true. unfold ret at 1.
  unfold imshow. rewrite on_axes_current, update_nth_last.
  unfold index_array at 1. rewrite Hactual. unfold ret at 1.
  unfold getitem. rewrite Hclass. unfold ret at 1.
  unfold index_array. cbn [nth_error]. unfold ret.
  unfold set_title. rewrite on_axes_current, update_nth_last.
  unfold xaxis_set_visible. rewrite on_axes_current, update_nth_last.
  unfold yaxis_set_visible. rewrite on_axes_current, update_nth_last.
  reflexivity.
Qed.

(** The loop from counter [i] on, the panels of the examples before [i]
    being drawn: it draws one panel for each of the next predictions, up
    to the [n]-th example, and stops. *)
Lemma display_loop_panels (n : nat) (images_test : list (list Pixel))
    (labels_test : list Z) (pre : list (Figure Pixel)) (size : Q * Q) :
  forall (rest : list prediction) (i : nat) (axes : list (Axes Pixel)),
    i < n ->
    Forall (fun a => exists k, k < i /\ ax_position a = (2, n, k + 1)) axes ->
    (forall j p, j < Nat.min (n - i) (List.length rest) ->
                 nth_error rest j = Some p ->
                 displayable images_test labels_test (i + j) p) ->
    display_loop n images_test labels_test rest i
      (pre ++ [{| fig_size := size; fig_axes := axes |}])
    = (Ok (i + Nat.min (n - i) (List.length rest),
           skipn (Nat.min (n - i) (List.length rest)) rest),
       pre ++ [{| fig_size := size;
                  fig_axes :=
                    axes ++ map (fun j => panel n (i + j)
                                            (nth (i + j) images_test [])
                                            (class_id (nth j rest []))
                                            (nth (i + j) labels_test 0%Z))
                                (seq 0 (Nat.min (n - i) (List.length rest))) |}]).
Proof.
  induction rest as [|p rest IH]; intros i axes Hi Hpos Hok.
  - cbn [display_loop List.length]. rewrite Nat.min_0_r, Nat.add_0_r.
    cbn [seq map skipn]. now rewrite app_nil_r.
  - destruct (Hok 0 p) as ((image & Himage & Hsize) & (actual & Hactual)
                           & (z & zs & Hclass)).
    { cbn [List.length]. lia. }
    { reflexivity. }
    rewrite Nat.add_0_r in Himage, Hactual.
    assert (find_axes (2, n, i + 1) axes = None) as Hfree.
    { apply find_axes_none. eapply Forall_impl; [|exact Hpos].
      intros a (k & Hk & Ha). rewrite Ha. intros [= E]. lia. }
    cbn [display_loop]. unfold bind at 1.
    rewrite (display_one_panel n images_test labels_test i p pre size axes
               image actual z zs Hi Hfree Himage Hsize Hactual Hclass).
    cbv zeta.
    assert (panel n i image z actual
            = panel n (i + 0) (nth (i + 0) images_test [])
                    (class_id (nth 0 (p :: rest) []))
                    (nth (i + 0) labels_test 0%Z)) as Hpanel.
    { rewrite Nat.add_0_r. cbn [nth]. unfold class_id. rewrite Hclass.
      now rewrite (nth_error_nth _ _ _ Himage), (nth_error_nth _ _ _ Hactual). }
    destruct (Nat.eqb_spec (i + 1) n) as [E|E].
    + assert (Nat.min (n - i) (List.length (p :: rest)) = 1) as ->
        by (cbn [List.length]; lia).
      unfold ret. cbn [seq map skipn]. now rewrite Hpanel.
    + assert (Nat.min (n - i) (List.length (p :: rest))
              = S (Nat.min (n - (i + 1)) (List.length rest))) as ->
        by (cbn [List.length]; lia).
      rewrite IH.
      * cbn [skipn seq map]. rewrite <- seq_shift, map_map, <- app_assoc.
        cbn [app]. rewrite Hpanel.
        replace (i + S (Nat.min (n - (i + 1)) (List.length rest)))
          with (i + 1 + Nat.min (n - (i + 1)) (List.length rest)) by lia.
        rewrite (map_ext
                   (fun j => panel n (i + S j) (nth (i + S j) images_test [])
                                   (class_id (nth (S j) (p :: rest) []))
                                   (nth (i + S j) labels_test 0%Z))
                   (fun j => panel n (i + 1 + j) (nth (i + 1 + j) images_test [])
                                   (class_id (nth j rest []))
                                   (nth (i + 1 + j) labels_test 0%Z)));
          [reflexivity|].
        intros j. cbn [nth].
        now replace (i + 1 + j) with (i + S j) by lia.
      * lia.
      * apply Forall_app. split.
        -- eapply Forall_impl; [|exact Hpos].
           intros a (k & Hk & Ha). exists k. split; [lia | exact Ha].
        -- constructor; [|constructor]. exists i. split; [lia | reflexivity].
      * intros j q Hj Hq.
        replace (i + 1 + j) with (i + S j) by lia.
        apply Hok; [cbn [List.length]; lia | exact Hq].
Qed.

(** The three ways the loop body fails after its axes is added. *)
Lemma display_one_no_image (n : nat) (images_test : list (list Pixel))
    (labels_test : list Z) (i : nat) (p : prediction)
    (pre : list (Figure Pixel)) (size : Q * Q) (axes : list (Axes Pixel)) :
  i < n -> find_axes (2, n, i + 1) axes = None ->
  nth_error images_test i = None ->
  display_one n images_test labels_test i p
    (pre ++ [{| fig_size := size; fig_axes := axes |}])
  = (Error (IndexError i),
     pre ++ [{| fig_size := size;
                fig_axes := axes ++ [new_axes Pixel (2, n, i + 1)] |}]).
Proof.
  intros Hi Hfree Himage. unfold display_one, bind.
  rewrite (subplot_new pre size axes 2 n (i + 1) Hfree) by lia.
  unfold index_array at 1. now rewrite Himage.
Qed.

Lemma display_one_bad_size (n : nat) (images_test : list (list Pixel))
    (labels_test : list Z) (i : nat) (p : prediction)
    (pre : list (Figure Pixel)) (size : Q * Q) (axes : list (Axes Pixel))
    (image : list Pixel) :
  i < n -> find_axes (2, n, i + 1) axes = None ->
  nth_error images_test i = Some image -> List.length image <> 784 ->
  display_one n images_test labels_test i p
    (pre ++ [{| fig_size := size; fig_axes := axes |}])
  = (Error (ValueError (cannot_reshape (List.length image))),
     pre ++ [{| fig_size := size;
                fig_axes := axes ++ [new_axes Pixel (2, n, i + 1)] |}]).
Proof.
  intros Hi Hfree Himage Hsize. unfold display_one, bind.
  rewrite (subplot_new pre size axes 2 n (i + 1) Hfree) by lia.
  unfold index_array at 1. rewrite Himage. unfold ret at 1.
  unfold reshape. change (28 * 28) with 784.
  now destruct (Nat.eqb_spec (List.length image) 784).
Qed.

Lemma display_one_untitled (n : nat) (images_test : list (list Pixel))
    (labels_test : list Z) (i : nat) (p : prediction)
    (pre : list (Figure Pixel)) (size : Q * Q) (axes : list (Axes Pixel))
    (image : list Pixel) :
  i < n -> find_axes (2, n, i + 1) axes = None ->
  nth_error images_test i = Some image -> List.length image = 784 ->
  (nth_error labels_test i = None ->
   display_one n images_test labels_test i p
     (pre ++ [{| fig_size := size; fig_axes := axes |}])
   = (Error (IndexError i),
      pre ++ [{| fig_size := size;
                 fig_axes :=
                   axes ++ [{| ax_position := (2, n, i + 1);
                               ax_image := Some (chunks 28 28 image, "gray_r");
                               ax_title := "";
                               ax_xaxis_visible := true;
                               ax_yaxis_visible := true |}] |}]))
  /\ (forall actual,
        nth_error labels_test i = Some actual ->
        lookup "class_ids" p = None ->
        display_one n images_test labels_test i p
          (pre ++ [{| fig_size := size; fig_axes := axes |}])
        = (Error (KeyError "class_ids"),
           pre ++ [{| fig_size := size;
                      fig_axes :=
                        axes ++ [{| ax_position := (2, n, i + 1);
                                    ax_image := Some (chunks 28 28 image, "gray_r");
                                    ax_title := "";
                                    ax_xaxis_visible := true;
                                    ax_yaxis_visible := true |}] |}])).
Proof.
  intros Hi Hfree Himage Hsize.
  split; [intros Hactual | intros actual Hactual Hclass];
    unfold display_one, bind;
    rewrite (subplot_new pre size axes 2 n (i + 1) Hfree) by lia;
    unfold index_array at 1; rewrite Himage; unfold ret at 1;
    unfold reshape; rewrite Hsize;
    change (784 =? 28 * 28) with true; unfold ret at 1;
    unfold imshow; rewrite on_axes_current, update_nth_last;
    unfold index_array at 1; rewrite Hactual.
  - reflexivity.
  - unfold ret at 1. unfold getitem. now rewrite Hclass.
Qed.

(** The loop when the body fails at the [k]-th of the next predictions,
    the earlier ones being displayable. *)
Lemma display_loop_fails (n : nat) (images_test : list (list Pixel))
    (labels_test : list Z) (pre : list (Figure Pixel)) (size : Q * Q)
    (e : exn) (extra : list (Axes Pixel)) :
  forall (k : nat) (rest : list prediction) (i : nat)
         (axes : list (Axes Pixel)) (p : prediction),
    i + k < n ->
    nth_error rest k = Some p ->
    Forall (fun a => exists j, j < i /\ ax_position a = (2, n, j + 1)) axes ->
    (forall j q, j < k -> nth_error rest j = Some q ->
                 displayable images_test labels_test (i + j) q) ->
    (forall axes',
       find_axes (2, n, i + k + 1) axes' = None ->
       display_one n images_test labels_test (i + k) p
         (pre ++ [{| fig_size := size; fig_axes := axes' |}])
       = (Error e, pre ++ [{| fig_size := size;
                              fig_axes := axes' ++ extra |}])) ->
    display_loop n images_test labels_test rest i
      (pre ++ [{| fig_size := size; fig_axes := axes |}])
    = (Error e,
       pre ++ [{| fig_size := size;
                  fig_axes :=
                    (axes ++ map (fun j => panel n (i + j)
                                             (nth (i + j) images_test [])
                                             (class_id (nth j rest []))
                                             (nth (i + j) labels_test 0%Z))
                                 (seq 0 k))
                    ++ extra |}]).
Proof.
  induction k as [|k IH]; intros rest i axes p Hik Hp Hpos Hok Hfail;
    destruct rest as [|q rest]; try discriminate.
  - injection Hp as ->. cbn [display_loop]. unfold bind at 1.
    rewrite Nat.add_0_r in Hfail. rewrite Hfail.
    + cbn [seq map]. now rewrite app_nil_r.
    + apply find_axes_none. eapply Forall_impl; [|exact Hpos].
      intros a (j & Hj & Ha). rewrite Ha. intros [= E]. lia.
  - cbn [nth_error] in Hp.
    destruct (Hok 0 q) as ((image & Himage & Hsize) & (actual & Hactual)
                           & (z & zs & Hclass)); [lia | reflexivity |].
    rewrite Nat.add_0_r in Himage, Hactual.
    assert (find_axes (2, n, i + 1) axes = None) as Hfree.
    { apply find_axes_none. eapply Forall_impl; [|exact Hpos].
      intros a (j & Hj & Ha). rewrite Ha. intros [= E]. lia. }
    cbn [display_loop]. unfold bind at 1.
    rewrite (display_one_panel n images_test labels_test i q pre size axes
               image actual z zs ltac:(lia) Hfree Himage Hsize Hactual Hclass).
    cbv zeta.
    destruct (Nat.eqb_spec (i + 1) n) as [E|_]; [lia|].
    rewrite (IH rest (i + 1) (axes ++ [panel n i image z actual]) p).
    + cbn [seq map]. rewrite <- seq_shift, map_map, <- (app_assoc axes).
      cbn [app nth]. rewrite Nat.add_0_r. unfold class_id at 2.
      rewrite Hclass, (nth_error_nth _ _ _ Himage), (nth_error_nth _ _ _ Hactual).
      rewrite (map_ext
                 (fun j => panel n (i + S j) (nth (i + S j) images_test [])
                                 (class_id (nth j rest []))
                                 (nth (i + S j) labels_test 0%Z))
                 (fun j => panel n (i + 1 + j) (nth (i + 1 + j) images_test [])
                                 (class_id (nth j rest []))
                                 (nth (i + 1 + j) labels_test 0%Z)));
        [reflexivity|].
      intros j. now replace (i + 1 + j) with (i + S j) by lia.
    + lia.
    + exact Hp.
    + apply Forall_app. split.
      * eapply Forall_impl; [|exact Hpos].
        intros a (j & Hj & Ha). exists j. split; [lia | exact Ha].
      * constructor; [|constructor]. exists i. split; [lia | reflexivity].
    + intros j r Hj Hr. replace (i + 1 + j) with (i + S j) by lia.
      apply Hok; [lia | exact Hr].
    + intros axes' Hfree'. replace (i + 1 + k) with (i + S k) in * by lia.
      apply Hfail. exact Hfree'.
Qed.

End DisplayLoop.

(** X7.  The display cell, for a number [n >= 1] of digits and
    predictions whose first [n] examples can be displayed: it opens one
    new figure of 20 by 4 and leaves the earlier figures alone; it draws
    one panel for each of the first [n] predictions (all of them when
    there are fewer), the panel of example [k] at place [k + 1] of the
    2-by-[n] grid with image [k], the first class of prediction [k] and
    label [k] in the title and both axes hidden; it stops there, the
    counter holding the number of panels and the later predictions not
    taken from the generator. *)
Theorem display_cell_panels :
  forall (Pixel : Type) (n : nat) (images_test : list (list Pixel))
         (labels_test : list Z) (predictions : list Display.prediction)
         (st : Display.pyplot Pixel),
    1 <= n ->
    (forall k p, k < Nat.min n (List.length predictions) ->
                 nth_error predictions k = Some p ->
                 Display.displayable images_test labels_test k p) ->
    let m := Nat.min n (List.length predictions) in
    Display.display_cell n images_test labels_test predictions st
    = (Display.Ok (m, skipn m predictions),
       st ++ [{| Display.fig_size := (20 # 1, 4 # 1);
                 Display.fig_axes :=
                   Display.panels n images_test labels_test predictions m |}]).
Proof.
  intros Pixel n images_test labels_test predictions st Hn Hok m.
  unfold Display.display_cell, Display.bind, Display.figure.
  rewrite (display_loop_panels Pixel n images_test labels_test st
             (20 # 1, 4 # 1) predictions 0 []).
  - rewrite Nat.sub_0_r. reflexivity.
  - lia.
  - constructor.
  - intros j p Hj Hp. rewrite Nat.sub_0_r in Hj. now apply Hok.
Qed.

Lemma display_cell_panels_witness :
  exists fig,
    Display.display_cell 2 Display.sample_images Display.sample_labels
      Display.sample_predictions []
    = (Display.Ok (2, skipn 2 Display.sample_predictions), [fig])
    /\ map (@Display.ax_position nat) (Display.fig_axes fig)
       = [(2, 2, 1); (2, 2, 2)]
    /\ map (@Display.ax_title nat) (Display.fig_axes fig)
       = [Display.title_of 7 7; Display.title_of 2 2].
Proof.
  eexists. split.
  - apply (display_cell_panels nat 2 Display.sample_images
             Display.sample_labels Display.sample_predictions []).
    + lia.
    + intros k p Hk Hp. change (k < 2) in Hk.
      destruct k as [|[|k]]; [| |lia]; injection Hp as <-;
        (split; [eexists; split; reflexivity
                |split; [eexists; reflexivity | do 2 eexists; reflexivity]]).
  - split; reflexivity.
Defined.

(** X8.  When the example number [k] (below [n], its prediction at hand)
    is the first that cannot be displayed, the display cell raises and
    leaves the work done so far in the new figure: the complete panels of
    the examples before [k], and one more axes at place [k + 1], which the
    loop adds before it reads the image.  The axes is blank when image [k]
    is missing (IndexError) or has not 784 pixels (ValueError); it shows
    the image, untitled and with its axis lines, when label [k] is missing
    (IndexError) or the prediction has no key [class_ids] (KeyError). *)
Theorem display_cell_fails_midway :
  forall (Pixel : Type) (n : nat) (images_test : list (list Pixel))
         (labels_test : list Z) (predictions : list Display.prediction)
         (st : Display.pyplot Pixel) (k : nat) (p : Display.prediction),
    k < n ->
    nth_error predictions k = Some p ->
    (forall j q, j < k -> nth_error predictions j = Some q ->
                 Display.displayable images_test labels_test j q) ->
    let drawn := Display.panels n images_test labels_test predictions k in
    let blank := Display.new_axes Pixel (2, n, k + 1) in
    let imaged (image : list Pixel) :=
      {| Display.ax_position := (2, n, k + 1);
         Display.ax_image := Some (Display.chunks 28 28 image, "gray_r");
         Display.ax_title := "";
         Display.ax_xaxis_visible := true;
         Display.ax_yaxis_visible := true |} in
    let left (e : Display.exn) (last : Display.Axes Pixel) :=
      (@Display.Error (nat * list Display.prediction) e,
       st ++ [{| Display.fig_size := (20 # 1, 4 # 1);
                 Display.fig_axes := drawn ++ [last] |}]) in
    (nth_error images_test k = None ->
     Display.display_cell n images_test labels_test predictions st
     = left (Display.IndexError k) blank)
    /\ (forall image,
          nth_error images_test k = Some image ->
          List.length image <> 784 ->
          Display.display_cell n images_test labels_test predictions st
          = left (Display.ValueError
                    (Display.cannot_reshape (List.length image))) blank)
    /\ (forall image,
          nth_error images_test k = Some image ->
          List.length image = 784 ->
          nth_error labels_test k = None ->
          Display.display_cell n images_test labels_test predictions st
          = left (Display.IndexError k) (imaged image))
    /\ (forall image actual,
          nth_error images_test k = Some image ->
          List.length image = 784 ->
          nth_error labels_test k = Some actual ->
          Display.lookup "class_ids" p = None ->
          Display.display_cell n images_test labels_test predictions st
          = left (Display.KeyError "class_ids") (imaged image)).
Proof.
  intros Pixel n images_test labels_test predictions st k p Hk Hp Hok
         drawn blank imaged left.
  assert (forall e last,
            (forall axes',
               Display.find_axes (2, n, k + 1) axes' = None ->
               Display.display_one n images_test labels_test k p
                 (st ++ [{| Display.fig_size := (20 # 1, 4 # 1);
                            Display.fig_axes := axes' |}])
               = (Display.Error e,
                  st ++ [{| Display.fig_size := (20 # 1, 4 # 1);
                            Display.fig_axes := axes' ++ [last] |}])) ->
            Display.display_cell n images_test labels_test predictions st
            = left e last) as Hcell.
  { intros e last Hfail.
    unfold Display.display_cell, Display.bind, Display.figure.
    exact (display_loop_fails Pixel n images_test labels_test st
             (20 # 1, 4 # 1) e [last] k predictions 0 [] p
             Hk Hp (Forall_nil _) Hok Hfail). }
  split; [|split; [|split]].
  - intros Himage. apply Hcell. intros axes' Hfree.
    now apply display_one_no_image.
  - intros image Himage Hsize. apply Hcell. intros axes' Hfree.
    now apply display_one_bad_size.
  - intros image Himage Hsize Hactual. apply Hcell. intros axes' Hfree.
    now apply (display_one_untitled Pixel n images_test labels_test k p st
                 (20 # 1, 4 # 1) axes' image Hk Hfree Himage Hsize).
  - intros image actual Himage Hsize Hactual Hclass. apply Hcell.
    intros axes' Hfree.
    now apply (display_one_untitled Pixel n images_test labels_test k p st
                 (20 # 1, 4 # 1) axes' image Hk Hfree Himage Hsize)
      with (actual := actual).
Qed.

Lemma display_cell_fails_midway_witness :
  exists fig,
    Display.display_cell 10 Display.sample_images Display.sample_labels
      Display.sample_predictions []
    = (Display.Error (Display.IndexError 3), [fig])
    /\ map (@Display.ax_position nat) (Display.fig_axes fig)
       = [(2, 10, 1); (2, 10, 2); (2, 10, 3); (2, 10, 4)]
    /\ map (@Display.ax_title nat) (Display.fig_axes fig)
       = [Display.title_of 7 7; Display.title_of 2 2; Display.title_of 8 1;
          ""%string].
Proof.
  eexists. split.
  - apply (proj1 (display_cell_fails_midway nat 10 Display.sample_images
                    Display.sample_labels Display.sample_predictions [] 3
                    [("class_ids", [4%Z])] ltac:(lia) eq_refl
                    ltac:(intros j q Hj Hq;
                          destruct j as [|[|[|j]]]; [| | |lia];
                          injection Hq as <-;
                          (split; [eexists; split; reflexivity
                                  |split; [eexists; reflexivity
                                          |do 2 eexists; reflexivity]])))).
    reflexivity.
  - split; reflexivity.
Defined.

(** X9.  With no prediction the display cell opens its figure and returns
    with the counter at 0, whatever [n]; with [n = 0] and a prediction at
    hand it raises a ValueError at the first [subplot], the grid having no
    place 1, and leaves the new figure empty. *)
Theorem display_cell_draws_nothing :
  forall (Pixel : Type) (images_test : list (list Pixel))
         (labels_test : list Z) (st : Display.pyplot Pixel),
    let opened :=
      st ++ [{| Display.fig_size := (20 # 1, 4 # 1);
                Display.fig_axes := [] |}] in
    (forall n,
       Display.display_cell n images_test labels_test [] st
       = (Display.Ok (0, []), opened))
    /\ (forall p rest,
          Display.display_cell 0 images_test labels_test (p :: rest) st
          = (Display.Error
               (Display.ValueError (Display.subplot_out_of_range 1)),
             opened)).
Proof.
  intros Pixel images_test labels_test st opened. split.
  - reflexivity.
  - intros p rest.
    unfold Display.display_cell, Display.bind at 1, Display.figure.
    cbn [Display.display_loop]. unfold Display.bind at 1.
    unfold Display.display_one, Display.bind.
    rewrite (subplot_rejects Pixel st _ 2 0 (0 + 1)) by (simpl; lia).
    reflexivity.
Qed.
